(** * MMRP dissector (epan/dissectors/packet-mrp-mmrp.c)

    A shallow embedding of the Wireshark dissector for the MRP Multiple
    MAC Registration Protocol, and the properties of its framing
    arithmetic.

    C integers are integers of [Z] with the conversions to the C types
    written out; the packet buffer is a list of bytes; the protocol tree,
    the columns and the exception raised by an out-of-range read are the
    state and the outcome of a small monad. *)

From Stdlib Require Import ZArith List Lia Bool.
From Stdlib Require Import Strings.String Strings.Ascii Strings.Byte.
From Stdlib Require Import Numbers.DecimalString.
Import ListNotations.

Local Open Scope Z_scope.

(** ** C integer types *)

Module CInt.

Definition G_MAXINT : Z := 2 ^ 31 - 1.

(** Conversion to [guint8], [guint16], [guint] (32 bits) and [gint]
    (32 bits, two's complement). *)
Definition guint8_of (x : Z) : Z := x mod 2 ^ 8.
Definition guint16_of (x : Z) : Z := x mod 2 ^ 16.
Definition guint_of (x : Z) : Z := x mod 2 ^ 32.
Definition gint_of (x : Z) : Z := (x + 2 ^ 31) mod 2 ^ 32 - 2 ^ 31.

(** C division truncates toward zero. *)
Definition cdiv (a b : Z) : Z := Z.quot a b.

End CInt.
Import CInt.

(** ** Constants of the dissector *)

Definition MMRP_END_MARK : Z := 0x0000.

Definition MMRP_PROTOCOL_VERSION_OFFSET : Z := 0.
Definition MMRP_MESSAGE_GROUP_OFFSET : Z := MMRP_PROTOCOL_VERSION_OFFSET + 1.
Definition MMRP_ATTRIBUTE_TYPE_OFFSET : Z := MMRP_MESSAGE_GROUP_OFFSET.
Definition MMRP_ATTRIBUTE_LENGTH_OFFSET : Z := MMRP_ATTRIBUTE_TYPE_OFFSET + 1.
Definition MMRP_ATTRIBUTE_LIST_GROUP_OFFSET : Z := MMRP_ATTRIBUTE_LENGTH_OFFSET + 1.
Definition MMRP_VECTOR_ATTRIBUTE_GROUP_OFFSET : Z := MMRP_ATTRIBUTE_LIST_GROUP_OFFSET.
Definition MMRP_VECTOR_HEADER_OFFSET : Z := MMRP_VECTOR_ATTRIBUTE_GROUP_OFFSET.
Definition MMRP_LEAVE_ALL_EVENT_OFFSET : Z := MMRP_VECTOR_HEADER_OFFSET.
Definition MMRP_LEAVE_ALL_EVENT_MASK : Z := 0xE000.
Definition MMRP_NUMBER_OF_VALUES_OFFSET : Z := MMRP_VECTOR_HEADER_OFFSET.
Definition MMRP_NUMBER_OF_VALUES_MASK : Z := 0x1fff.
Definition MMRP_FIRST_VALUE_GROUP_OFFSET : Z := MMRP_VECTOR_HEADER_OFFSET + 2.
Definition MMRP_SERVICE_THREE_PACKED_OFFSET : Z := MMRP_FIRST_VALUE_GROUP_OFFSET + 1.
Definition MMRP_MAC_THREE_PACKED_OFFSET : Z := MMRP_FIRST_VALUE_GROUP_OFFSET + 6.

Definition MMRP_ATTRIBUTE_TYPE_SERVICE : Z := 0x01.
Definition MMRP_ATTRIBUTE_TYPE_MAC : Z := 0x02.

Definition MMRP_NULLLEAVEALL : Z := 0.
Definition MMRP_LEAVEALL : Z := 1.

(** A [value_string] table, without its NULL terminator. *)
Definition value_string : Type := (Z * string)%type.

Definition attribute_type_vals : list value_string :=
  [ (MMRP_ATTRIBUTE_TYPE_SERVICE, "Service Requirement"%string);
    (MMRP_ATTRIBUTE_TYPE_MAC, "MAC"%string) ].

Definition leave_all_vals : list value_string :=
  [ (MMRP_NULLLEAVEALL, "Null"%string);
    (MMRP_LEAVEALL, "Leave All"%string) ].

Definition three_packed_vals : list value_string :=
  [ (0, "New"%string); (1, "JoinIn"%string); (2, "In"%string);
    (3, "JoinMt"%string); (4, "Mt"%string); (5, "Lv"%string) ].

(** Registered fields and subtrees. *)
Inductive hf_id : Type :=
| proto_mmrp
| hf_mmrp_proto_id
| hf_mmrp_message
| hf_mmrp_attribute_type
| hf_mmrp_attribute_length
| hf_mmrp_attribute_list
| hf_mmrp_vector_attribute
| hf_mmrp_vector_header
| hf_mmrp_leave_all_event
| hf_mmrp_number_of_values
| hf_mmrp_first_value
| hf_mmrp_mac
| hf_mmrp_ser_req
| hf_mmrp_three_packed_event
| hf_mmrp_end_mark.

Inductive ett_id : Type :=
| ett_mmrp | ett_msg | ett_attr_list | ett_vect_attr
| ett_vector_header | ett_first_value.

(** The bit mask each field was registered with ([hf] array of
    [proto_register_mrp_mmrp]). *)
Definition hf_bitmask (hf : hf_id) : Z :=
  match hf with
  | hf_mmrp_leave_all_event => MMRP_LEAVE_ALL_EVENT_MASK
  | hf_mmrp_number_of_values => MMRP_NUMBER_OF_VALUES_MASK
  | _ => 0x0
  end.

Definition vector_header_fields : list hf_id :=
  [ hf_mmrp_leave_all_event; hf_mmrp_number_of_values ].

(** ** The protocol tree, as the record of what the dissector adds to it *)

(** A non-NULL [proto_tree *]: the tree handed to the dissector, or the
    subtree opened under an item with [proto_item_add_subtree]. *)
Inductive proto_tree : Type :=
| root_tree
| subtree (ett : ett_id).

Definition proto_item : Type := hf_id.

Inductive encoding : Type := ENC_BIG_ENDIAN | ENC_NA.
Inductive column : Type := COL_PROTOCOL | COL_INFO.

(** One call on the output side. A length of [-1] means to the end of
    the buffer. *)
Inductive entry : Type :=
| E_item (tree : proto_tree) (hf : hf_id) (start length : Z) (enc : encoding)
| E_uint (tree : proto_tree) (hf : hf_id) (start length : Z) (value : Z)
| E_text (tree : proto_tree) (text : string)
| E_col (col : column) (text : string).

(** The state threaded through a dissection: the calls made so far, in
    order, and a count of the loop iterations entered (a ghost counter,
    used to state the bound on the work). *)
Record state : Type := mkState {
  st_log : list entry;
  st_ticks : nat
}.

Definition init_state : state := mkState [] 0.

(** ** Outcomes and the dissection monad *)

(** [Truncated] is the exception of a read beyond the buffer;
    [OutOfFuel] marks a loop cut short by the recursion bound of the
    model, and no C outcome. *)
Inductive result (A : Type) : Type :=
| OK (a : A)
| Truncated
| OutOfFuel.
Arguments OK {A} a.
Arguments Truncated {A}.
Arguments OutOfFuel {A}.

Definition M (A : Type) : Type := state -> state * result A.

Definition ret {A} (a : A) : M A := fun s => (s, OK a).

Definition bind {A B} (c : M A) (k : A -> M B) : M B :=
  fun s =>
    match c s with
    | (s', OK a) => k a s'
    | (s', Truncated) => (s', Truncated)
    | (s', OutOfFuel) => (s', OutOfFuel)
    end.

Definition throw {A} : M A := fun s => (s, Truncated).
Definition out_of_fuel {A} : M A := fun s => (s, OutOfFuel).

Definition emit (e : entry) : M unit :=
  fun s => (mkState (st_log s ++ [e]) (st_ticks s), OK tt).

Definition tick : M unit :=
  fun s => (mkState (st_log s) (S (st_ticks s)), OK tt).

Declare Scope mmrp_scope.
Delimit Scope mmrp_scope with mmrp.
Notation "x <- c ;; k" := (bind c (fun x => k))
  (at level 61, c at next level, right associativity) : mmrp_scope.
Notation "' p <- c ;; k" := (bind c (fun x => match x with p => k end))
  (at level 61, p pattern, c at next level, right associativity) : mmrp_scope.
Notation "c ;; k" := (bind c (fun _ => k))
  (at level 61, right associativity) : mmrp_scope.
Local Open Scope mmrp_scope.

(** A [while] or [for] loop over the local variables [V] it updates.
    The condition is evaluated first; entering the body takes one unit
    of fuel and counts as one iteration. *)
Fixpoint while {V : Type} (fuel : nat) (cond : V -> M bool)
  (body : V -> M V) (v : V) : M V :=
  b <- cond v ;;
  if b : bool then
    match fuel with
    | O => out_of_fuel
    | S fuel' => tick ;; v' <- body v ;; while fuel' cond body v'
    end
  else ret v.

(** ** The packet buffer *)

Definition tvbuff_t : Type := list byte.

Definition tvb_captured_length (tvb : tvbuff_t) : Z :=
  Z.of_nat (List.length tvb).

Definition byte_val (b : byte) : Z := Z.of_N (Byte.to_N b).

(** The byte at an offset of the buffer, when there is one. The offsets
    of the dissector are not negative; an offset below zero, which the
    tvbuff interface counts from the end of the buffer, has no byte
    here. *)
Definition tvb_byte (tvb : tvbuff_t) (offset : Z) : option Z :=
  if offset <? 0 then None
  else option_map byte_val (nth_error tvb (Z.to_nat offset)).

(** The two bytes at an offset as a big-endian 16-bit value, when both
    are there. *)
Definition tvb_ntohs (tvb : tvbuff_t) (offset : Z) : option Z :=
  match tvb_byte tvb offset, tvb_byte tvb (offset + 1) with
  | Some hi, Some lo => Some (Z.lor (Z.shiftl hi 8) lo)
  | _, _ => None
  end.

(** Modelled from the spec: [tvb_get_guint8] of epan/tvbuff.c. "Any peek
    or read that would run past the buffer end fails with a Truncated
    error." *)
Definition tvb_get_guint8 (tvb : tvbuff_t) (offset : Z) : M Z :=
  match tvb_byte tvb offset with
  | Some v => ret v
  | None => throw
  end.

(** Modelled from the spec: [tvb_get_ntohs] of epan/tvbuff.c, the
    big-endian 16-bit read, failing as [tvb_get_guint8] does when either
    byte is beyond the end. *)
Definition tvb_get_ntohs (tvb : tvbuff_t) (offset : Z) : M Z :=
  match tvb_ntohs tvb offset with
  | Some v => ret v
  | None => throw
  end.

(** ** The output side *)

(** Modelled from the spec: [proto_tree_add_item], [proto_tree_add_uint],
    [proto_item_add_subtree], [proto_item_append_text] and [col_set_str]
    of epan/proto.c and epan/column-utils.c. The decoder "only needs to
    emit (field-id, raw byte range, interpreted value) triples"; how they
    are rendered is the business of the field registry. *)
Definition proto_tree_add_item (tree : proto_tree) (hf : hf_id)
  (tvb : tvbuff_t) (start length : Z) (enc : encoding) : M proto_item :=
  emit (E_item tree hf start length enc) ;; ret hf.

Definition proto_tree_add_uint (tree : proto_tree) (hf : hf_id)
  (tvb : tvbuff_t) (start length : Z) (value : Z) : M proto_item :=
  emit (E_uint tree hf start length value) ;; ret hf.

Definition proto_item_add_subtree (ti : proto_item) (ett : ett_id) : proto_tree :=
  subtree ett.

Definition proto_item_append_text (tree : proto_tree) (text : string) : M unit :=
  emit (E_text tree text).

Definition col_set_str (col : column) (text : string) : M unit :=
  emit (E_col col text).

(** The number of low zero bits of a mask: the shift that brings a
    masked field down to bit 0. *)
Fixpoint ws_ctz_fuel (n : nat) (mask : Z) : Z :=
  match n with
  | O => 0
  | S n' => if Z.testbit mask 0 then 0 else 1 + ws_ctz_fuel n' (Z.shiftr mask 1)
  end.

Definition ws_ctz (mask : Z) : Z := ws_ctz_fuel 16 mask.

(** Modelled from the spec: [proto_tree_add_bitmask] of epan/proto.c,
    for a 16-bit big-endian header. "Read a big-endian 16-bit value;
    extract Leave-All-Event as bits [15:13] (mask 0xE000, 3 bits) and
    Number-of-Values as bits [12:0] (mask 0x1FFF, 13 bits)": the header
    item is added with the value read, and under it one item per field,
    each carrying the header masked with the mask the field was
    registered with and shifted down. *)
Fixpoint add_bitmask_fields (tree : proto_tree) (tvb : tvbuff_t) (offset : Z)
  (fields : list hf_id) (value : Z) : M unit :=
  match fields with
  | [] => ret tt
  | hf :: rest =>
      proto_tree_add_uint tree hf tvb offset 2
        (Z.shiftr (Z.land value (hf_bitmask hf)) (ws_ctz (hf_bitmask hf))) ;;
      add_bitmask_fields tree tvb offset rest value
  end.

Definition proto_tree_add_bitmask (parent : proto_tree) (tvb : tvbuff_t)
  (offset : Z) (hf_hdr : hf_id) (ett : ett_id) (fields : list hf_id)
  (enc : encoding) : M proto_item :=
  value <- tvb_get_ntohs tvb offset ;;
  ti <- proto_tree_add_uint parent hf_hdr tvb offset 2 value ;;
  add_bitmask_fields (proto_item_add_subtree ti ett) tvb offset fields value ;;
  ret ti.

(** Modelled from the spec: [val_to_str_const] of epan/value_string.c.
    The string of the first entry with the value, or the given default:
    "unknown values are accepted and labeled". *)
Fixpoint val_to_str_const (val : Z) (vs : list value_string)
  (unknown_str : string) : string :=
  match vs with
  | [] => unknown_str
  | (v, s) :: rest => if v =? val then s else val_to_str_const val rest unknown_str
  end.

(** The text of [": %s (%d)"]. *)
Definition format_d (n : Z) : string := NilZero.string_of_int (Z.to_int n).

Definition format_label (s : string) (n : Z) : string :=
  (": " ++ s ++ " (" ++ format_d n ++ ")")%string.

(** ** The dissector *)

Definition dissect_mmrp_common1 (msg_tree : proto_tree) (tvb : tvbuff_t)
  (msg_offset : Z) : M unit :=
  proto_tree_add_item msg_tree hf_mmrp_attribute_type tvb
    (gint_of (MMRP_ATTRIBUTE_TYPE_OFFSET + msg_offset)) 1 ENC_BIG_ENDIAN ;;
  proto_tree_add_item msg_tree hf_mmrp_attribute_length tvb
    (gint_of (MMRP_ATTRIBUTE_LENGTH_OFFSET + msg_offset)) 1 ENC_BIG_ENDIAN ;;
  ret tt.

Definition dissect_mmrp_common2 (vect_attr_tree : proto_tree) (tvb : tvbuff_t)
  (msg_offset : Z) : M unit :=
  proto_tree_add_bitmask vect_attr_tree tvb
    (gint_of (MMRP_VECTOR_HEADER_OFFSET + msg_offset))
    hf_mmrp_vector_header ett_vector_header vector_header_fields
    ENC_BIG_ENDIAN ;;
  ret tt.

(** The three digits of one packed byte, in [guint8] arithmetic. *)
Definition three_packed_event (value : Z) : Z * Z * Z :=
  let e0 := guint8_of (cdiv value 36) in
  let value := guint8_of (value - 36 * e0) in
  let e1 := guint8_of (cdiv value 6) in
  let value := guint8_of (value - 6 * e1) in
  let e2 := value in
  (e0, e1, e2).

(** The body of the [for] loop of [dissect_mmrp_three_packed_event],
    over its variables [(counter, offset)]. *)
Definition three_packed_event_body (vect_attr_tree : proto_tree)
  (tvb : tvbuff_t) (number_of_values : Z) (v : Z * Z) : M (Z * Z) :=
  let '(counter, offset) := v in
  value <- tvb_get_guint8 tvb (gint_of offset) ;;
  let '(e0, e1, e2) := three_packed_event value in
  proto_tree_add_uint vect_attr_tree hf_mmrp_three_packed_event tvb
    (gint_of offset) 1 e0 ;;
  let counter := guint_of (counter + 1) in
  counter <-
    (if counter <? number_of_values then
       proto_tree_add_uint vect_attr_tree hf_mmrp_three_packed_event tvb
         (gint_of offset) 1 e1 ;;
       ret (guint_of (counter + 1))
     else ret counter) ;;
  counter <-
    (if counter <? number_of_values then
       proto_tree_add_uint vect_attr_tree hf_mmrp_three_packed_event tvb
         (gint_of offset) 1 e2 ;;
       ret (guint_of (counter + 1))
     else ret counter) ;;
  let offset := guint_of (offset + 1) in
  ret (counter, offset).

Definition dissect_mmrp_three_packed_event (fuel : nat)
  (vect_attr_tree : proto_tree) (tvb : tvbuff_t) (offset : Z)
  (number_of_values : Z) : M Z :=
  '(_, offset) <-
     while fuel (fun v => ret (fst v <? number_of_values))
       (three_packed_event_body vect_attr_tree tvb number_of_values)
       (0, offset) ;;
  ret offset.

(** The count of a Vector Header, as assigned to the [guint16]
    [number_of_values]. *)
Definition number_of_values (header : Z) : Z :=
  guint16_of (Z.land header MMRP_NUMBER_OF_VALUES_MASK).

(** The length of a Vector Attribute, in [int] arithmetic:
    [2 + attribute_length + (number_of_values + 2)/3]. *)
Definition vect_attr_len (attribute_length number_of_values : Z) : Z :=
  gint_of (gint_of (2 + attribute_length)
           + cdiv (gint_of (number_of_values + 2)) 3).

(** One Vector Attribute: the body of the inner [while] of
    [dissect_mmrp], over its variables [(vect_offset, offset)]. *)
Definition vector_attribute_body (fuel : nat) (tvb : tvbuff_t)
  (attr_list_tree : proto_tree) (attribute_type attribute_length : Z)
  (msg_offset : Z) (v : Z * Z) : M (Z * Z) :=
  let '(vect_offset, offset) := v in
  header <- tvb_get_ntohs tvb
    (gint_of (gint_of (MMRP_NUMBER_OF_VALUES_OFFSET + msg_offset) + vect_offset)) ;;
  let number_of_values := number_of_values header in
  let vect_attr_len := vect_attr_len attribute_length number_of_values in
  vect_attr_ti <- proto_tree_add_item attr_list_tree hf_mmrp_vector_attribute tvb
    (gint_of (gint_of (MMRP_VECTOR_ATTRIBUTE_GROUP_OFFSET + msg_offset) + vect_offset))
    vect_attr_len ENC_NA ;;
  let vect_attr_tree := proto_item_add_subtree vect_attr_ti ett_vect_attr in
  dissect_mmrp_common2 vect_attr_tree tvb (gint_of (msg_offset + vect_offset)) ;;
  offset <-
    (if attribute_type =? MMRP_ATTRIBUTE_TYPE_MAC then
       first_value_ti <- proto_tree_add_item vect_attr_tree hf_mmrp_first_value tvb
         (gint_of (gint_of (MMRP_FIRST_VALUE_GROUP_OFFSET + msg_offset) + vect_offset))
         attribute_length ENC_NA ;;
       let first_value_tree := proto_item_add_subtree first_value_ti ett_first_value in
       proto_tree_add_item first_value_tree hf_mmrp_mac tvb
         (gint_of (gint_of (MMRP_FIRST_VALUE_GROUP_OFFSET + msg_offset) + vect_offset))
         6 ENC_NA ;;
       dissect_mmrp_three_packed_event fuel vect_attr_tree tvb
         (guint_of (gint_of (gint_of (MMRP_MAC_THREE_PACKED_OFFSET + msg_offset)
                             + vect_offset)))
         number_of_values
     else if attribute_type =? MMRP_ATTRIBUTE_TYPE_SERVICE then
       first_value_ti <- proto_tree_add_item vect_attr_tree hf_mmrp_first_value tvb
         (gint_of (gint_of (MMRP_FIRST_VALUE_GROUP_OFFSET + msg_offset) + vect_offset))
         attribute_length ENC_NA ;;
       let first_value_tree := proto_item_add_subtree first_value_ti ett_first_value in
       proto_tree_add_item first_value_tree hf_mmrp_ser_req tvb
         (gint_of (gint_of (MMRP_FIRST_VALUE_GROUP_OFFSET + msg_offset) + vect_offset))
         1 ENC_BIG_ENDIAN ;;
       dissect_mmrp_three_packed_event fuel vect_attr_tree tvb
         (guint_of (gint_of (gint_of (MMRP_SERVICE_THREE_PACKED_OFFSET + msg_offset)
                             + vect_offset)))
         number_of_values
     else ret offset) ;;
  let vect_offset := gint_of (vect_offset + vect_attr_len) in
  ret (vect_offset, offset).

(** The test of the inner [while]: the two bytes where the next Vector
    Header would start are not the End Mark. *)
Definition vector_attribute_cond (tvb : tvbuff_t) (msg_offset : Z)
  (v : Z * Z) : M bool :=
  peek <- tvb_get_ntohs tvb
    (gint_of (gint_of (MMRP_VECTOR_HEADER_OFFSET + msg_offset) + fst v)) ;;
  ret (negb (peek =? MMRP_END_MARK)).

(** One Message: the body of the outer [while] of [dissect_mmrp], over
    its variables [(msg_offset, offset)]. *)
Definition message_body (fuel : nat) (tvb : tvbuff_t) (mmrp_tree : proto_tree)
  (v : Z * Z) : M (Z * Z) :=
  let '(msg_offset, offset) := v in
  attribute_type <- tvb_get_guint8 tvb
    (gint_of (MMRP_ATTRIBUTE_TYPE_OFFSET + msg_offset)) ;;
  attribute_length <- tvb_get_guint8 tvb
    (gint_of (MMRP_ATTRIBUTE_LENGTH_OFFSET + msg_offset)) ;;
  msg_ti <- proto_tree_add_item mmrp_tree hf_mmrp_message tvb
    (gint_of (MMRP_MESSAGE_GROUP_OFFSET + msg_offset)) (-1) ENC_NA ;;
  let msg_tree := proto_item_add_subtree msg_ti ett_msg in
  proto_item_append_text msg_tree
    (format_label
       (val_to_str_const attribute_type attribute_type_vals "<Unknown>")
       attribute_type) ;;
  dissect_mmrp_common1 msg_tree tvb msg_offset ;;
  attr_list_ti <- proto_tree_add_item msg_tree hf_mmrp_attribute_list tvb
    (gint_of (MMRP_ATTRIBUTE_LIST_GROUP_OFFSET + msg_offset)) (-1) ENC_NA ;;
  let attr_list_tree := proto_item_add_subtree attr_list_ti ett_attr_list in
  let vect_offset := 0 in
  '(vect_offset, offset) <-
     while fuel (vector_attribute_cond tvb msg_offset)
       (vector_attribute_body fuel tvb attr_list_tree attribute_type
          attribute_length msg_offset)
       (vect_offset, offset) ;;
  proto_tree_add_item attr_list_tree hf_mmrp_end_mark tvb (gint_of offset) 2
    ENC_BIG_ENDIAN ;;
  let msg_offset := gint_of (msg_offset + gint_of (gint_of (vect_offset + 2) + 2)) in
  ret (msg_offset, offset).

Definition message_cond (tvb : tvbuff_t) (v : Z * Z) : M bool :=
  peek <- tvb_get_ntohs tvb (gint_of (MMRP_ATTRIBUTE_TYPE_OFFSET + fst v)) ;;
  ret (negb (peek =? MMRP_END_MARK)).

(** [dissect_mmrp]. The tree is [None] for a NULL [tree]; the loops run
    on [fuel]. *)
Definition dissect_mmrp (fuel : nat) (tvb : tvbuff_t)
  (tree : option proto_tree) : M Z :=
  col_set_str COL_PROTOCOL "MRP-MMRP" ;;
  col_set_str COL_INFO "Multiple Mac Registration Protocol" ;;
  match tree with
  | Some tree =>
      let offset := 0 in
      ti <- proto_tree_add_item tree proto_mmrp tvb 0 (-1) ENC_NA ;;
      let mmrp_tree := proto_item_add_subtree ti ett_mmrp in
      proto_tree_add_item mmrp_tree hf_mmrp_proto_id tvb
        MMRP_PROTOCOL_VERSION_OFFSET 1 ENC_BIG_ENDIAN ;;
      let msg_offset := 0 in
      '(msg_offset, offset) <-
         while fuel (message_cond tvb) (message_body fuel tvb mmrp_tree)
           (msg_offset, offset) ;;
      proto_tree_add_item mmrp_tree hf_mmrp_end_mark tvb
        (gint_of (guint_of (offset + 2))) 2 ENC_BIG_ENDIAN ;;
      ret tt
  | None => ret tt
  end ;;
  ret (tvb_captured_length tvb).

(** A run from the empty state. *)
Definition run {A} (c : M A) : state * result A := c init_state.

(** ** Test vectors *)

(** A MAC Message of one Vector Attribute with four events, then a
    Service Message of one Vector Attribute with two events. *)
Definition frame_mac_service : tvbuff_t :=
  [ x00;
    x02; x06;
      x20; x04; xaa; xbb; xcc; xdd; xee; xff; x2b; x90;
      x00; x00;
    x01; x01;
      x00; x02; x01; xd7;
      x00; x00;
    x00; x00 ]%byte.

(** A MAC Message whose AttributeLength is 5: one Vector Attribute of
    one event, the two End Marks, and three bytes more. *)
Definition frame_mac_length5 : tvbuff_t :=
  [ x00;
    x02; x05;
      x00; x01; xaa; xbb; xcc; xdd; xee; x2b;
      x00; x00;
    x00; x00;
    x00; x00; x00 ]%byte.

(** A MAC Message cut short in the packed events of its Vector
    Attribute: the header counts four events, two bytes, and one byte is
    there. *)
Definition frame_cut_short : tvbuff_t :=
  [ x00;
    x02; x06;
      x20; x04; xaa; xbb; xcc; xdd; xee; xff; x2b ]%byte.

(** A Message of attribute type 3 and AttributeLength 4, with one
    Vector Attribute of five events. *)
Definition frame_type3 : tvbuff_t :=
  [ x00;
    x03; x04;
      x00; x05; x0a; x0b; x0c; x0d; x2b; x90;
      x00; x00;
    x00; x00 ]%byte.

(** A MAC Message whose first Vector Attribute has the Leave All Event
    7 and no event, and whose second counts 36 events where four bytes
    are left. *)
Definition frame_leave_all7 : tvbuff_t :=
  [ x01;
    x02; x06;
      xe0; x00; xaa; xbb; xcc; xdd; xee; xff;
      x00; x24; x00; x00; x00; x00 ]%byte.

(** ** Specification-side definitions *)

(** The ceiling of [n / 3], by cases on the remainder. *)
Definition ceil3 (n : Z) : Z := n / 3 + (if n mod 3 =? 0 then 0 else 1).

(** The three base-6 digits of a packed byte, most significant first. *)
Definition expand (v : Z) : list Z := [v / 36; (v mod 36) / 6; v mod 6].

(** The Attribute Event items of [count] packed bytes from [offset] on:
    three for each byte, carrying the position of their byte. *)
Fixpoint packed_run (tree : proto_tree) (tvb : tvbuff_t) (offset : Z)
  (count : nat) : list entry :=
  match count with
  | O => []
  | S count' =>
      match tvb_byte tvb offset with
      | Some v => map (E_uint tree hf_mmrp_three_packed_event offset 1) (expand v)
      | None => []
      end ++ packed_run tree tvb (offset + 1) count'
  end.

(** The items of the [n] events of a packed run. *)
Definition packed_events (tree : proto_tree) (tvb : tvbuff_t) (offset n : Z)
  : list entry :=
  firstn (Z.to_nat n) (packed_run tree tvb offset (Z.to_nat (ceil3 n))).

(** The size of the First Value that the offset of the packed events
    is computed for: fixed by the attribute type, and none for a type
    that is neither MAC nor Service Requirement. *)
Definition first_value_size (attribute_type : Z) : option Z :=
  if attribute_type =? MMRP_ATTRIBUTE_TYPE_MAC then
    Some (MMRP_MAC_THREE_PACKED_OFFSET - MMRP_FIRST_VALUE_GROUP_OFFSET)
  else if attribute_type =? MMRP_ATTRIBUTE_TYPE_SERVICE then
    Some (MMRP_SERVICE_THREE_PACKED_OFFSET - MMRP_FIRST_VALUE_GROUP_OFFSET)
  else None.

(** The items that open a Vector Attribute at position [p]: the group,
    its header and the two fields of the header. *)
Definition vector_header_items (attr_list_tree : proto_tree) (p len h : Z)
  : list entry :=
  [ E_item attr_list_tree hf_mmrp_vector_attribute p len ENC_NA;
    E_uint (subtree ett_vect_attr) hf_mmrp_vector_header p 2 h;
    E_uint (subtree ett_vector_header) hf_mmrp_leave_all_event p 2
      (Z.shiftr (Z.land h MMRP_LEAVE_ALL_EVENT_MASK) 13);
    E_uint (subtree ett_vector_header) hf_mmrp_number_of_values p 2
      (Z.land h MMRP_NUMBER_OF_VALUES_MASK) ].

(** The items of the First Value at position [p] of a MAC or Service
    Requirement Message. *)
Definition first_value_items (attribute_type p attribute_length : Z)
  : list entry :=
  if attribute_type =? MMRP_ATTRIBUTE_TYPE_MAC then
    [ E_item (subtree ett_vect_attr) hf_mmrp_first_value p attribute_length ENC_NA;
      E_item (subtree ett_first_value) hf_mmrp_mac p 6 ENC_NA ]
  else if attribute_type =? MMRP_ATTRIBUTE_TYPE_SERVICE then
    [ E_item (subtree ett_vect_attr) hf_mmrp_first_value p attribute_length ENC_NA;
      E_item (subtree ett_first_value) hf_mmrp_ser_req p 1 ENC_BIG_ENDIAN ]
  else [].

(** The framing of the wire format, as the grammar has it. From [p] on
    the buffer holds Vector Attributes of a Message of the given
    AttributeLength, each a header that is not the End Mark, the First
    Value and the bytes of the packed events its header counts, up to the
    End Mark at [e]. *)
Inductive vector_attributes (tvb : tvbuff_t) (attribute_length : Z)
  : Z -> Z -> Prop :=
| va_end p :
    tvb_ntohs tvb p = Some MMRP_END_MARK ->
    vector_attributes tvb attribute_length p p
| va_next p h e :
    tvb_ntohs tvb p = Some h ->
    h <> MMRP_END_MARK ->
    vector_attributes tvb attribute_length
      (p + (2 + attribute_length + ceil3 (h mod 2 ^ 13))) e ->
    vector_attributes tvb attribute_length p e.

(** From [q] on the buffer holds Messages, each an AttributeType and an
    AttributeLength that are not the End Mark together and a list of
    Vector Attributes with its End Mark, up to the End Mark that ends at
    [e]. *)
Inductive messages (tvb : tvbuff_t) : Z -> Z -> Prop :=
| msg_end q :
    tvb_ntohs tvb q = Some MMRP_END_MARK ->
    messages tvb q (q + 2)
| msg_next q h l e e' :
    tvb_ntohs tvb q = Some h ->
    h <> MMRP_END_MARK ->
    tvb_byte tvb (q + 1) = Some l ->
    vector_attributes tvb l (q + 2) e ->
    messages tvb (e + 2) e' ->
    messages tvb q e'.

(** The buffer holds a whole frame: the Protocol Version and Messages up
    to their End Mark. A buffer that does not is shorter than its own
    header fields imply. *)
Definition well_framed (tvb : tvbuff_t) : Prop :=
  exists e, messages tvb 1 e.

(** The Vector Attributes of a Message whose type is neither MAC nor
    Service Requirement, from [p] up to the End Mark at [e], with the
    items that are added for them: for each one the group, sized by the
    AttributeLength as it is, its header and the two fields of the
    header, and nothing for the First Value or the packed events. *)
Inductive skipped_vector_attributes (tvb : tvbuff_t)
  (attr_list_tree : proto_tree) (attribute_length : Z)
  : Z -> Z -> list entry -> Prop :=
| sva_end p :
    tvb_ntohs tvb p = Some MMRP_END_MARK ->
    skipped_vector_attributes tvb attr_list_tree attribute_length p p []
| sva_next p h e items :
    tvb_ntohs tvb p = Some h ->
    h <> MMRP_END_MARK ->
    skipped_vector_attributes tvb attr_list_tree attribute_length
      (p + (2 + attribute_length + ceil3 (number_of_values h))) e items ->
    skipped_vector_attributes tvb attr_list_tree attribute_length p e
      (vector_header_items attr_list_tree p
         (2 + attribute_length + ceil3 (number_of_values h)) h ++ items).

(** A Vector Attribute item stands on a header of the buffer, has the
    length that the NumberOfValues of the header and an AttributeLength
    imply, and ends at or before [bound]; other entries are not
    constrained. *)
Definition va_within (tvb : tvbuff_t) (bound : Z) (e : entry) : Prop :=
  match e with
  | E_item _ hf_mmrp_vector_attribute start length _ =>
      start + length <= bound
      /\ exists h l,
           tvb_ntohs tvb start = Some h
           /\ 0 <= l <= 255
           /\ length = 2 + l + ceil3 (number_of_values h)
  | _ => True
  end.

(** The state after more calls and more loop iterations. *)
Definition extend (s : state) (out : list entry) (ticks : nat) : state :=
  mkState (st_log s ++ out) (st_ticks s + ticks).

(** Where the event cursor stands after the Vector Attributes of a
    Message at [msg_offset], the last of which ends at [vect_offset]:
    past the packed events of the last one, as the fixed First Value
    size places them, or where it stood before, at [offset0], when none
    was expanded. *)
Definition event_cursor (attribute_type attribute_length msg_offset : Z)
  (offset0 vect_offset : Z) : Z :=
  match first_value_size attribute_type with
  | Some fs =>
      if vect_offset =? 0 then offset0
      else MMRP_VECTOR_HEADER_OFFSET + msg_offset + vect_offset
           + (fs - attribute_length)
  | None => offset0
  end.

(** What holds before each test of the Vector Attribute loop of the
    Message at [msg_offset], entered in state [s0] with the cursor at
    [offset0]. *)
Definition vect_loop_inv (tvb : tvbuff_t)
  (attribute_type attribute_length msg_offset offset0 : Z) (s0 : state)
  (v : Z * Z) (s : state) : Prop :=
  let len := tvb_captured_length tvb in
  exists out t,
    s = extend s0 out t
    /\ 0 <= fst v
    /\ 3 + msg_offset + fst v <= len + 2986
    /\ Z.of_nat t <= fst v
    /\ Z.of_nat t <= len - (3 + msg_offset)
    /\ 0 <= snd v <= len + 6
    /\ Forall (va_within tvb (3 + msg_offset + fst v)) out
    /\ (fst v = 0 -> out = [])
    /\ snd v = event_cursor attribute_type attribute_length msg_offset
                 offset0 (fst v)
    /\ (forall e,
          vector_attributes tvb attribute_length (3 + msg_offset + fst v) e ->
          vector_attributes tvb attribute_length (3 + msg_offset) e).

(** What holds of the state and the outcome the loop ends in. *)
Definition vect_loop_post (tvb : tvbuff_t)
  (attribute_type attribute_length msg_offset offset0 : Z) (s0 : state)
  (o : state * result (Z * Z)) : Prop :=
  let len := tvb_captured_length tvb in
  exists out t,
    fst o = extend s0 out t
    /\ Z.of_nat t <= len - (3 + msg_offset)
    /\ match snd o with
       | OK v =>
           0 <= fst v
           /\ tvb_ntohs tvb (3 + msg_offset + fst v) = Some MMRP_END_MARK
           /\ Z.of_nat t <= fst v
           /\ 0 <= snd v <= len + 6
           /\ Forall (va_within tvb (3 + msg_offset + fst v)) out
           /\ (fst v = 0 -> out = [])
           /\ snd v = event_cursor attribute_type attribute_length msg_offset
                        offset0 (fst v)
           /\ vector_attributes tvb attribute_length (3 + msg_offset)
                (3 + msg_offset + fst v)
       | Truncated => True
       | OutOfFuel => False
       end.

(** The items that open a Message at [msg_offset]. *)
Definition message_items (mmrp_tree : proto_tree)
  (attribute_type attribute_length msg_offset : Z) : list entry :=
  [ E_item mmrp_tree hf_mmrp_message (1 + msg_offset) (-1) ENC_NA;
    E_text (subtree ett_msg)
      (format_label
         (val_to_str_const attribute_type attribute_type_vals "<Unknown>")
         attribute_type);
    E_item (subtree ett_msg) hf_mmrp_attribute_type (1 + msg_offset) 1
      ENC_BIG_ENDIAN;
    E_item (subtree ett_msg) hf_mmrp_attribute_length (2 + msg_offset) 1
      ENC_BIG_ENDIAN;
    E_item (subtree ett_msg) hf_mmrp_attribute_list (3 + msg_offset) (-1)
      ENC_NA ].

(** What holds before each test of the Message loop, entered in state
    [s0]. *)
Definition msg_loop_inv (tvb : tvbuff_t) (s0 : state) (v : Z * Z) (s : state)
  : Prop :=
  let len := tvb_captured_length tvb in
  exists out t,
    s = extend s0 out t
    /\ 0 <= fst v <= len
    /\ Z.of_nat t <= fst v
    /\ 0 <= snd v <= len + 6
    /\ Forall (va_within tvb (fst v - 1)) out
    /\ (forall e, messages tvb (1 + fst v) e -> messages tvb 1 e).

(** What holds of the state and the outcome the Message loop ends in. *)
Definition msg_loop_post (tvb : tvbuff_t) (s0 : state)
  (o : state * result (Z * Z)) : Prop :=
  let len := tvb_captured_length tvb in
  exists out t,
    fst o = extend s0 out t
    /\ Z.of_nat t <= len
    /\ match snd o with
       | OK v =>
           0 <= fst v
           /\ tvb_ntohs tvb (1 + fst v) = Some MMRP_END_MARK
           /\ Z.of_nat t <= fst v
           /\ 0 <= snd v <= len + 6
           /\ Forall (va_within tvb (fst v - 1)) out
           /\ messages tvb 1 (1 + fst v + 2)
       | Truncated => True
       | OutOfFuel => False
       end.

(** The entries that open a dissection: the two columns, the protocol
    item and the Protocol Version. *)
Definition column_items : list entry :=
  [ E_col COL_PROTOCOL "MRP-MMRP";
    E_col COL_INFO "Multiple Mac Registration Protocol" ].

Definition frame_items (tree : proto_tree) : list entry :=
  column_items ++
  [ E_item tree proto_mmrp 0 (-1) ENC_NA;
    E_item (subtree ett_mmrp) hf_mmrp_proto_id 0 1 ENC_BIG_ENDIAN ].

(** A computation that leaves what was recorded before it in place. *)
Definition extends {A} (c : M A) : Prop :=
  forall s, exists out t, fst (c s) = extend s out t.


(** A buffer whose offsets, and the offsets the dissector derives from
    them, are values of a [gint]: a Vector Attribute is 2 + 255 + 2731
    bytes at most, and no offset computed is further than that past the
    end. *)
Definition tvb_fits (tvb : tvbuff_t) : Prop :=
  tvb_captured_length tvb + 4096 <= G_MAXINT.

(** ** The registration *)

(** The field types and the display bases that [proto_register_mrp_mmrp]
    uses. *)
Inductive ftenum : Type := FT_NONE | FT_UINT8 | FT_UINT16 | FT_ETHER.

Inductive field_display_e : Type := BASE_NONE | BASE_DEC | BASE_HEX.

(** A [header_field_info], without its blurb: the name, the filter
    name, the type, the base, the [value_string] table and the bit
    mask. *)
Record header_field_info : Type := mk_hfinfo {
  hfi_name : string;
  hfi_abbrev : string;
  hfi_type : ftenum;
  hfi_display : field_display_e;
  hfi_strings : option (list value_string);
  hfi_bitmask : Z
}.

(** The [hf] array of [proto_register_mrp_mmrp]. *)
Definition hf : list (hf_id * header_field_info) :=
  [ (hf_mmrp_proto_id,
     mk_hfinfo "Protocol Version" "mrp-mmrp.protocol_version"
       FT_UINT8 BASE_DEC None 0x0);
    (hf_mmrp_message,
     mk_hfinfo "Message" "mrp-mmrp.message"
       FT_NONE BASE_NONE None 0x0);
    (hf_mmrp_attribute_type,
     mk_hfinfo "Attribute Type" "mrp-mmrp.attribute_type"
       FT_UINT8 BASE_DEC (Some attribute_type_vals) 0x0);
    (hf_mmrp_attribute_length,
     mk_hfinfo "Attribute Length" "mrp-mmrp.attribute_length"
       FT_UINT8 BASE_DEC None 0x0);
    (hf_mmrp_attribute_list,
     mk_hfinfo "Attribute List" "mrp-mmrp.attribute_list"
       FT_NONE BASE_NONE None 0x0);
    (hf_mmrp_vector_attribute,
     mk_hfinfo "Vector Attribute" "mrp-mmrp.vector_attribute"
       FT_NONE BASE_NONE None 0x0);
    (hf_mmrp_vector_header,
     mk_hfinfo "Vector Header" "mrp-mmrp.vector_header"
       FT_UINT16 BASE_HEX None 0x0);
    (hf_mmrp_leave_all_event,
     mk_hfinfo "Leave All Event" "mrp-mmrp.leave_all_event"
       FT_UINT16 BASE_DEC (Some leave_all_vals) MMRP_LEAVE_ALL_EVENT_MASK);
    (hf_mmrp_number_of_values,
     mk_hfinfo "Number of Values" "mrp-mmrp.number_of_values"
       FT_UINT16 BASE_DEC None MMRP_NUMBER_OF_VALUES_MASK);
    (hf_mmrp_first_value,
     mk_hfinfo "First Value" "mrp-mmrp.first_value"
       FT_NONE BASE_NONE None 0x0);
    (hf_mmrp_mac,
     mk_hfinfo "MAC" "mrp-mmrp.mac"
       FT_ETHER BASE_NONE None 0x00);
    (hf_mmrp_ser_req,
     mk_hfinfo "Service Requirement" "mrp-mmrp.service_requirement"
       FT_UINT8 BASE_DEC None 0x0);
    (hf_mmrp_three_packed_event,
     mk_hfinfo "Attribute Event" "mrp-mmrp.three_packed_event"
       FT_UINT8 BASE_DEC (Some three_packed_vals) 0x0);
    (hf_mmrp_end_mark,
     mk_hfinfo "End Mark" "mrp-mmrp.end_mark"
       FT_UINT16 BASE_HEX None 0x0) ].

Definition hf_id_eq_dec (a b : hf_id) : {a = b} + {a <> b}.
Proof. decide equality. Defined.

(** What a field was registered with; nothing for [proto_mmrp], the
    protocol itself, which is not of the [hf] array. *)
Fixpoint hf_lookup (table : list (hf_id * header_field_info)) (id : hf_id)
  : option header_field_info :=
  match table with
  | [] => None
  | (id', info) :: rest =>
      if hf_id_eq_dec id' id then Some info else hf_lookup rest id
  end.

Definition hfinfo (id : hf_id) : option header_field_info := hf_lookup hf id.

(** The values that have a name in the [value_string] table a field was
    registered with. *)
Definition named_values (id : hf_id) : list Z :=
  match hfinfo id with
  | Some info =>
      match hfi_strings info with
      | Some vs => map fst vs
      | None => []
      end
  | None => []
  end.

(** The bytes a value of a type takes; [FT_NONE] has no width of its
    own. *)
Definition ft_width (t : ftenum) : option Z :=
  match t with
  | FT_NONE => None
  | FT_UINT8 => Some 1
  | FT_UINT16 => Some 2
  | FT_ETHER => Some 6
  end.

(** The largest value of a field: all the bits of its type, or the bits
    of its mask brought down to bit 0. *)
Definition field_max (info : header_field_info) : option Z :=
  match ft_width (hfi_type info) with
  | Some w =>
      Some (if hfi_bitmask info =? 0 then 2 ^ (8 * w) - 1
            else Z.shiftr (hfi_bitmask info) (ws_ctz (hfi_bitmask info)))
  | None => None
  end.

(** An entry is added with the length that is the width of the type of
    its field. *)
Definition width_ok (e : entry) : Prop :=
  match e with
  | E_item _ id _ length _ | E_uint _ id _ length _ =>
      match hfinfo id with
      | Some info =>
          match ft_width (hfi_type info) with
          | Some w => length = w
          | None => True
          end
      | None => True
      end
  | _ => True
  end.

(** The value an entry carries is a value of its field. *)
Definition value_ok (e : entry) : Prop :=
  match e with
  | E_uint _ id _ _ value =>
      match hfinfo id with
      | Some info =>
          match field_max info with
          | Some m => 0 <= value <= m
          | None => True
          end
      | None => True
      end
  | _ => True
  end.

(** The trees that the calls of a dissection into [tree] hand the items
    of a field to. A tree is recorded as the subtree index ([ett]) it was
    opened with, not as the item it was opened under: this is the kind of
    subtree a field goes to. The End Mark alone has two, the one of the
    Attribute List and the one of the protocol. *)
Definition field_subtrees (tree : proto_tree) (id : hf_id) : list proto_tree :=
  match id with
  | proto_mmrp => [tree]
  | hf_mmrp_proto_id | hf_mmrp_message => [subtree ett_mmrp]
  | hf_mmrp_attribute_type | hf_mmrp_attribute_length
  | hf_mmrp_attribute_list => [subtree ett_msg]
  | hf_mmrp_vector_attribute => [subtree ett_attr_list]
  | hf_mmrp_vector_header | hf_mmrp_first_value
  | hf_mmrp_three_packed_event => [subtree ett_vect_attr]
  | hf_mmrp_leave_all_event | hf_mmrp_number_of_values =>
      [subtree ett_vector_header]
  | hf_mmrp_mac | hf_mmrp_ser_req => [subtree ett_first_value]
  | hf_mmrp_end_mark => [subtree ett_attr_list; subtree ett_mmrp]
  end.

Definition subtree_ok (tree : proto_tree) (e : entry) : Prop :=
  match e with
  | E_item t id _ _ _ | E_uint t id _ _ _ => In t (field_subtrees tree id)
  | E_text t _ => t = subtree ett_msg
  | E_col _ _ => True
  end.

(** The entries of a dissection into [tree], by the call that adds
    them. *)
Inductive mmrp_entry (tree : proto_tree) : entry -> Prop :=
| me_col col text : mmrp_entry tree (E_col col text)
| me_proto :
    mmrp_entry tree (E_item tree proto_mmrp 0 (-1) ENC_NA)
| me_proto_id :
    mmrp_entry tree
      (E_item (subtree ett_mmrp) hf_mmrp_proto_id 0 1 ENC_BIG_ENDIAN)
| me_message start :
    mmrp_entry tree
      (E_item (subtree ett_mmrp) hf_mmrp_message start (-1) ENC_NA)
| me_message_text text :
    mmrp_entry tree (E_text (subtree ett_msg) text)
| me_attribute_type start :
    mmrp_entry tree
      (E_item (subtree ett_msg) hf_mmrp_attribute_type start 1 ENC_BIG_ENDIAN)
| me_attribute_length start :
    mmrp_entry tree
      (E_item (subtree ett_msg) hf_mmrp_attribute_length start 1
         ENC_BIG_ENDIAN)
| me_attribute_list start :
    mmrp_entry tree
      (E_item (subtree ett_msg) hf_mmrp_attribute_list start (-1) ENC_NA)
| me_vector_attribute start length :
    mmrp_entry tree
      (E_item (subtree ett_attr_list) hf_mmrp_vector_attribute start length
         ENC_NA)
| me_vector_header start h :
    0 <= h < 2 ^ 16 ->
    mmrp_entry tree (E_uint (subtree ett_vect_attr) hf_mmrp_vector_header start 2 h)
| me_leave_all_event start v :
    0 <= v <= 7 ->
    mmrp_entry tree
      (E_uint (subtree ett_vector_header) hf_mmrp_leave_all_event start 2 v)
| me_number_of_values start v :
    0 <= v <= 8191 ->
    mmrp_entry tree
      (E_uint (subtree ett_vector_header) hf_mmrp_number_of_values start 2 v)
| me_first_value start length :
    mmrp_entry tree
      (E_item (subtree ett_vect_attr) hf_mmrp_first_value start length ENC_NA)
| me_mac start :
    mmrp_entry tree (E_item (subtree ett_first_value) hf_mmrp_mac start 6 ENC_NA)
| me_ser_req start :
    mmrp_entry tree
      (E_item (subtree ett_first_value) hf_mmrp_ser_req start 1 ENC_BIG_ENDIAN)
| me_three_packed_event start v :
    0 <= v <= 7 ->
    mmrp_entry tree
      (E_uint (subtree ett_vect_attr) hf_mmrp_three_packed_event start 1 v)
| me_end_mark_list start :
    mmrp_entry tree
      (E_item (subtree ett_attr_list) hf_mmrp_end_mark start 2 ENC_BIG_ENDIAN)
| me_end_mark_frame start :
    mmrp_entry tree
      (E_item (subtree ett_mmrp) hf_mmrp_end_mark start 2 ENC_BIG_ENDIAN).

(** A computation that adds to the record, and adds entries of [P]
    only. *)
Definition emits {A} (P : entry -> Prop) (c : M A) : Prop :=
  forall s, exists out t, fst (c s) = extend s out t /\ Forall P out.

(** [c'] returns what [c] returns, in the state [c] returns it in,
    wherever [c] returns. *)
Definition ok_le {A} (c c' : M A) : Prop :=
  forall s s' a, c s = (s', OK a) -> c' s = (s', OK a).

(** ** Frames by the Messages they hold *)

(** The framing of [messages], with [P] of the AttributeType, the
    AttributeLength and the size of the Vector Attributes of every
    Message. *)
Inductive messages_such (P : Z -> Z -> Z -> Prop) (tvb : tvbuff_t)
  : Z -> Z -> Prop :=
| msgs_end q :
    tvb_ntohs tvb q = Some MMRP_END_MARK ->
    messages_such P tvb q (q + 2)
| msgs_next q h t l e e' :
    tvb_ntohs tvb q = Some h ->
    h <> MMRP_END_MARK ->
    tvb_byte tvb q = Some t ->
    tvb_byte tvb (q + 1) = Some l ->
    vector_attributes tvb l (q + 2) e ->
    P t l (e - (q + 2)) ->
    messages_such P tvb (e + 2) e' ->
    messages_such P tvb q e'.

(** The First Value of a Message has room for the value of its type:
    the AttributeLength of a MAC Message is 6 at least, and the one of a
    Service Requirement Message 1 at least. The MAC or Service
    Requirement item and the packed events, placed by the size of the
    type, lie within the Vector Attribute then. *)
Definition first_value_fits (attribute_type attribute_length size : Z)
  : Prop :=
  forall fs, first_value_size attribute_type = Some fs ->
             fs <= attribute_length.

(** The bytes of an item lie within the buffer: from its start to the
    end of the buffer for a length of [-1], and as many as its length
    otherwise. *)
Definition item_within (tvb : tvbuff_t) (e : entry) : Prop :=
  match e with
  | E_item _ _ start length _ | E_uint _ _ start length _ =>
      0 <= start
      /\ (if length <? 0 then start <= tvb_captured_length tvb
          else start + length <= tvb_captured_length tvb)
  | _ => True
  end.

(** A Message of a known type, whose AttributeLength is the First Value
    size of the type, with a Vector Attribute at least. *)
Definition regular_message (attribute_type attribute_length size : Z)
  : Prop :=
  first_value_size attribute_type = Some attribute_length /\ 0 < size.

(** The byte of three events. *)
Definition pack_three (e0 e1 e2 : Z) : Z := 36 * e0 + 6 * e1 + e2.

(** * Properties *)

(** ** C integers *)

Section CIntFacts.

Lemma guint8_of_small x : 0 <= x < 2 ^ 8 -> guint8_of x = x.
Proof. intros H. unfold guint8_of. now apply Z.mod_small. Qed.

Lemma guint16_of_small x : 0 <= x < 2 ^ 16 -> guint16_of x = x.
Proof. intros H. unfold guint16_of. now apply Z.mod_small. Qed.

Lemma guint_of_small x : 0 <= x < 2 ^ 32 -> guint_of x = x.
Proof. intros H. unfold guint_of. now apply Z.mod_small. Qed.

Lemma gint_of_small x : - 2 ^ 31 <= x < 2 ^ 31 -> gint_of x = x.
Proof.
  intros H. unfold gint_of.
  rewrite Z.mod_small; lia.
Qed.

Lemma cdiv_nonneg a b : 0 <= a -> 0 < b -> cdiv a b = a / b.
Proof. intros Ha Hb. unfold cdiv. apply Z.quot_div_nonneg; assumption. Qed.

Lemma ceil3_eq n : ceil3 n = (n + 2) / 3.
Proof.
  unfold ceil3. destruct (Z.eqb_spec (n mod 3) 0);
    Z.div_mod_to_equations; lia.
Qed.

Lemma ceil3_spec n : 3 * (ceil3 n - 1) < n <= 3 * ceil3 n.
Proof. rewrite ceil3_eq. Z.div_mod_to_equations. lia. Qed.

End CIntFacts.

(** Offsets within the range of the C types lose their conversions. *)
Ltac unwrap1 :=
  match goal with
  | |- context [gint_of ?x] => rewrite (gint_of_small x) by lia
  | |- context [guint_of ?x] => rewrite (guint_of_small x) by lia
  | |- context [guint16_of ?x] => rewrite (guint16_of_small x) by lia
  | |- context [guint8_of ?x] => rewrite (guint8_of_small x) by lia
  end.

Ltac unwrap := repeat unwrap1.

(** ** The buffer *)

Lemma byte_val_range b : 0 <= byte_val b < 256.
Proof.
  unfold byte_val. pose proof (Byte.to_N_bounded b). lia.
Qed.

Lemma tvb_byte_some tvb offset :
  0 <= offset < tvb_captured_length tvb ->
  exists v, tvb_byte tvb offset = Some v /\ 0 <= v < 256.
Proof.
  unfold tvb_byte, tvb_captured_length. intros H.
  destruct (Z.ltb_spec offset 0); [lia|].
  destruct (nth_error tvb (Z.to_nat offset)) as [b|] eqn:E.
  - exists (byte_val b). split; [reflexivity | apply byte_val_range].
  - apply nth_error_None in E. lia.
Qed.

Lemma tvb_byte_none tvb offset :
  offset < 0 \/ tvb_captured_length tvb <= offset ->
  tvb_byte tvb offset = None.
Proof.
  unfold tvb_byte, tvb_captured_length. intros H.
  destruct (Z.ltb_spec offset 0); [reflexivity|].
  destruct (nth_error tvb (Z.to_nat offset)) as [b|] eqn:E; [|reflexivity].
  assert (nth_error tvb (Z.to_nat offset) <> None) as N by congruence.
  apply nth_error_Some in N. lia.
Qed.

Lemma tvb_byte_range tvb offset v :
  tvb_byte tvb offset = Some v ->
  0 <= offset < tvb_captured_length tvb /\ 0 <= v < 256.
Proof.
  intros E.
  destruct (Z_lt_dec offset 0) as [L|L];
    [rewrite tvb_byte_none in E by lia; discriminate|].
  destruct (Z_le_dec (tvb_captured_length tvb) offset) as [G|G];
    [rewrite tvb_byte_none in E by lia; discriminate|].
  split; [lia|].
  destruct (tvb_byte_some tvb offset) as (w & Ew & Hw); [lia|].
  congruence.
Qed.

Lemma lor_shiftl_8 hi lo :
  0 <= lo < 256 -> Z.lor (Z.shiftl hi 8) lo = 256 * hi + lo.
Proof.
  intros Hlo.
  assert (Z.land (Z.shiftl hi 8) lo = 0) as Hland.
  { apply Z.bits_inj'. intros i Hi.
    rewrite Z.land_spec, Z.bits_0.
    destruct (Z_lt_dec i 8) as [L|G].
    - rewrite Z.shiftl_spec_low by lia. reflexivity.
    - destruct (Z.eq_dec lo 0) as [->|Nz];
        [rewrite Z.bits_0; apply andb_false_r|].
      rewrite (Z.bits_above_log2 lo i); [apply andb_false_r | lia |].
      assert (Z.log2 lo < 8) by (apply Z.log2_lt_pow2; lia). lia. }
  pose proof (Z.add_lor_land (Z.shiftl hi 8) lo) as E.
  rewrite Hland, Z.add_0_r in E. rewrite E.
  rewrite Z.shiftl_mul_pow2 by lia. lia.
Qed.

Lemma tvb_ntohs_some tvb offset :
  0 <= offset -> offset + 2 <= tvb_captured_length tvb ->
  exists hi lo,
    tvb_byte tvb offset = Some hi /\ tvb_byte tvb (offset + 1) = Some lo /\
    0 <= hi < 256 /\ 0 <= lo < 256 /\
    tvb_ntohs tvb offset = Some (256 * hi + lo).
Proof.
  intros Ho Hlen.
  destruct (tvb_byte_some tvb offset) as (hi & Ehi & Hhi); [lia|].
  destruct (tvb_byte_some tvb (offset + 1)) as (lo & Elo & Hlo); [lia|].
  exists hi, lo. repeat (split; [assumption || lia|]).
  unfold tvb_ntohs. rewrite Ehi, Elo, lor_shiftl_8 by lia. reflexivity.
Qed.

Lemma tvb_ntohs_none tvb offset :
  offset < 0 \/ tvb_captured_length tvb < offset + 2 ->
  tvb_ntohs tvb offset = None.
Proof.
  intros H. unfold tvb_ntohs.
  destruct (tvb_byte tvb offset) as [hi|] eqn:Ehi; [|reflexivity].
  apply tvb_byte_range in Ehi.
  rewrite (tvb_byte_none tvb (offset + 1)) by lia. reflexivity.
Qed.

Lemma tvb_ntohs_range tvb offset h :
  tvb_ntohs tvb offset = Some h ->
  0 <= offset /\ offset + 2 <= tvb_captured_length tvb /\ 0 <= h < 2 ^ 16.
Proof.
  intros E.
  destruct (Z_lt_dec offset 0) as [L|L];
    [rewrite tvb_ntohs_none in E by lia; discriminate|].
  destruct (Z_lt_dec (tvb_captured_length tvb) (offset + 2)) as [G|G];
    [rewrite tvb_ntohs_none in E by lia; discriminate|].
  destruct (tvb_ntohs_some tvb offset) as (hi & lo & _ & _ & Hhi & Hlo & E');
    try lia.
  assert (h = 256 * hi + lo) by congruence. lia.
Qed.

(** The End Mark is two zero bytes. *)
Lemma tvb_ntohs_end_mark tvb offset :
  tvb_ntohs tvb offset = Some MMRP_END_MARK <->
  tvb_byte tvb offset = Some 0 /\ tvb_byte tvb (offset + 1) = Some 0.
Proof.
  unfold MMRP_END_MARK. split.
  - intros E. destruct (tvb_ntohs_range _ _ _ E) as (Ho & Hlen & _).
    destruct (tvb_ntohs_some tvb offset) as (hi & lo & Ehi & Elo & Hhi & Hlo & E');
      try lia.
    assert (0 = 256 * hi + lo) by congruence.
    assert (hi = 0) by lia. assert (lo = 0) by lia. subst. now split.
  - intros [Ehi Elo]. unfold tvb_ntohs. rewrite Ehi, Elo. reflexivity.
Qed.

Lemma tvb_get_ntohs_OK tvb offset v s :
  tvb_ntohs tvb offset = Some v -> tvb_get_ntohs tvb offset s = (s, OK v).
Proof. intros E. unfold tvb_get_ntohs. now rewrite E. Qed.

Lemma tvb_get_ntohs_Truncated tvb offset s :
  tvb_ntohs tvb offset = None -> tvb_get_ntohs tvb offset s = (s, Truncated).
Proof. intros E. unfold tvb_get_ntohs. now rewrite E. Qed.

(** ** The Vector Header *)

Lemma number_of_values_mod h :
  0 <= h < 2 ^ 16 -> number_of_values h = h mod 2 ^ 13.
Proof.
  intros H. unfold number_of_values, MMRP_NUMBER_OF_VALUES_MASK.
  change 0x1fff with (Z.ones 13). rewrite Z.land_ones by lia.
  apply guint16_of_small.
  pose proof (Z.mod_pos_bound h (2 ^ 13)). lia.
Qed.

Lemma number_of_values_range h :
  0 <= h < 2 ^ 16 -> 0 <= number_of_values h <= 8191.
Proof.
  intros H. rewrite number_of_values_mod by assumption.
  pose proof (Z.mod_pos_bound h (2 ^ 13)). lia.
Qed.

Lemma leave_all_event_bits h :
  0 <= h < 2 ^ 16 ->
  Z.shiftr (Z.land h MMRP_LEAVE_ALL_EVENT_MASK) 13 = h / 2 ^ 13.
Proof.
  intros H. rewrite <- Z.shiftr_div_pow2 by lia.
  apply Z.bits_inj'. intros i Hi.
  rewrite !Z.shiftr_spec, Z.land_spec by lia.
  destruct (Z_lt_dec i 3) as [L|G].
  - assert (i = 0 \/ i = 1 \/ i = 2) as [->|[->| ->]] by lia;
      cbn [Z.add]; apply andb_true_r.
  - destruct (Z.eq_dec h 0) as [->|Nz];
      [rewrite Z.bits_0; reflexivity|].
    rewrite (Z.bits_above_log2 h (i + 13)); [reflexivity | lia |].
    assert (Z.log2 h < 16) by (apply Z.log2_lt_pow2; lia). lia.
Qed.

(** ** The monad *)

Lemma bind_OK {A B} (c : M A) (k : A -> M B) s s' a :
  c s = (s', OK a) -> bind c k s = k a s'.
Proof. intros E. unfold bind. now rewrite E. Qed.

Lemma bind_Truncated {A B} (c : M A) (k : A -> M B) s s' :
  c s = (s', Truncated) -> bind c k s = (s', Truncated).
Proof. intros E. unfold bind. now rewrite E. Qed.

Lemma bind_OK_inv {A B} (c : M A) (k : A -> M B) s s' b :
  bind c k s = (s', OK b) ->
  exists s1 a, c s = (s1, OK a) /\ k a s1 = (s', OK b).
Proof.
  unfold bind. destruct (c s) as [s1 [a| |]]; intros E; try discriminate.
  exists s1, a. split; [reflexivity | assumption].
Qed.

Lemma pair_OK_inj {A} (s s' : state) (a a' : A) :
  (s, OK a) = (s', OK a') -> s = s' /\ a = a'.
Proof. intros E. split; congruence. Qed.

Lemma bind_assoc {A B C} (c : M A) (k : A -> M B) (k' : B -> M C) s :
  bind (bind c k) k' s = bind c (fun a => bind (k a) k') s.
Proof. unfold bind. destruct (c s) as [s1 [a| |]]; reflexivity. Qed.

Lemma bind_ret {A B} (a : A) (k : A -> M B) s : bind (ret a) k s = k a s.
Proof. reflexivity. Qed.

Lemma while_unfold {V} fuel (cond : V -> M bool) (body : V -> M V) v :
  while fuel cond body v =
  (b <- cond v ;;
   if b : bool then
     match fuel with
     | O => out_of_fuel
     | S fuel' => tick ;; v' <- body v ;; while fuel' cond body v'
     end
   else ret v).
Proof. destruct fuel; reflexivity. Qed.

Lemma extend_nil s : extend s [] 0 = s.
Proof.
  destruct s as [l t]. unfold extend. cbn [st_log st_ticks].
  now rewrite app_nil_r, Nat.add_0_r.
Qed.

Lemma extend_extend s o1 t1 o2 t2 :
  extend (extend s o1 t1) o2 t2 = extend s (o1 ++ o2) (t1 + t2).
Proof.
  unfold extend. cbn [st_log st_ticks].
  now rewrite app_assoc, Nat.add_assoc.
Qed.

Lemma emit_extend e s : emit e s = (extend s [e] 0, OK tt).
Proof. unfold emit, extend. now rewrite Nat.add_0_r. Qed.

Lemma tick_extend s : tick s = (extend s [] 1, OK tt).
Proof.
  unfold tick, extend. now rewrite app_nil_r, Nat.add_1_r.
Qed.

Lemma proto_tree_add_uint_extend tree hf tvb start len value s :
  proto_tree_add_uint tree hf tvb start len value s =
  (extend s [E_uint tree hf start len value] 0, OK hf).
Proof.
  unfold proto_tree_add_uint. unfold bind at 1. now rewrite emit_extend.
Qed.

Lemma proto_tree_add_item_extend tree hf tvb start len enc s :
  proto_tree_add_item tree hf tvb start len enc s =
  (extend s [E_item tree hf start len enc] 0, OK hf).
Proof.
  unfold proto_tree_add_item. unfold bind at 1. now rewrite emit_extend.
Qed.

(** ** The packed byte *)

Lemma three_packed_event_digits v :
  0 <= v < 256 ->
  three_packed_event v = (v / 36, (v mod 36) / 6, v mod 6).
Proof.
  intros H. unfold three_packed_event.
  rewrite (cdiv_nonneg v 36) by lia.
  assert (0 <= v / 36 < 8) as H0 by (Z.div_mod_to_equations; lia).
  rewrite (guint8_of_small (v / 36)) by lia.
  assert (v - 36 * (v / 36) = v mod 36) as -> by (Z.div_mod_to_equations; lia).
  assert (0 <= v mod 36 < 36) as H1 by (apply Z.mod_pos_bound; lia).
  rewrite (guint8_of_small (v mod 36)) by lia.
  rewrite (cdiv_nonneg (v mod 36) 6) by lia.
  assert (0 <= v mod 36 / 6 < 6) as H2 by (Z.div_mod_to_equations; lia).
  rewrite (guint8_of_small (v mod 36 / 6)) by lia.
  assert (v mod 36 - 6 * (v mod 36 / 6) = v mod 6) as ->
      by (Z.div_mod_to_equations; lia).
  rewrite guint8_of_small by (Z.div_mod_to_equations; lia).
  reflexivity.
Qed.

Lemma tvb_get_guint8_OK tvb offset v s :
  tvb_byte tvb offset = Some v -> tvb_get_guint8 tvb offset s = (s, OK v).
Proof. intros E. unfold tvb_get_guint8. now rewrite E. Qed.

Lemma tvb_get_guint8_Truncated tvb offset s :
  tvb_byte tvb offset = None -> tvb_get_guint8 tvb offset s = (s, Truncated).
Proof. intros E. unfold tvb_get_guint8. now rewrite E. Qed.

(** ** The expander *)

Section Expander.

Variable vect_attr_tree : proto_tree.
Variable tvb : tvbuff_t.
Variable nvalues : Z.
Hypothesis Hnov : 0 <= nvalues < 2 ^ 16.
Hypothesis Hfits : tvb_fits tvb.

Let cond := fun v : Z * Z => ret (fst v <? nvalues).
Let body := three_packed_event_body vect_attr_tree tvb nvalues.
Let ev := E_uint vect_attr_tree hf_mmrp_three_packed_event.

(** One iteration over a byte of the buffer: the events of the byte
    that are still due, the counter advanced by as many, the offset
    by one. *)
Lemma three_packed_event_body_OK counter offset v s :
  0 <= counter < nvalues ->
  tvb_byte tvb offset = Some v ->
  body (counter, offset) s =
  (extend s
     (firstn (Z.to_nat (nvalues - counter))
        (map (ev offset 1) (expand v))) 0,
   OK (Z.min nvalues (counter + 3), offset + 1)).
Proof.
  intros Hc Ev.
  destruct (tvb_byte_range _ _ _ Ev) as [Ho Hv].
  unfold tvb_fits, G_MAXINT in Hfits.
  unfold body, three_packed_event_body.
  rewrite (gint_of_small offset) by lia.
  rewrite (bind_OK _ _ _ _ _ (tvb_get_guint8_OK _ _ _ _ Ev)).
  rewrite three_packed_event_digits by lia.
  rewrite (bind_OK _ _ _ _ _ (proto_tree_add_uint_extend _ _ _ _ _ _ _)).
  rewrite (guint_of_small (counter + 1)) by lia.
  rewrite (guint_of_small (offset + 1)) by lia.
  destruct (Z.ltb_spec (counter + 1) nvalues) as [L1|L1].
  - rewrite bind_assoc.
    rewrite (bind_OK _ _ _ _ _ (proto_tree_add_uint_extend _ _ _ _ _ _ _)).
    rewrite bind_ret.
    rewrite (guint_of_small (counter + 1 + 1)) by lia.
    destruct (Z.ltb_spec (counter + 1 + 1) nvalues) as [L2|L2].
    + rewrite bind_assoc.
      rewrite (bind_OK _ _ _ _ _ (proto_tree_add_uint_extend _ _ _ _ _ _ _)).
      rewrite !bind_ret. unfold ret.
      rewrite (guint_of_small (counter + 1 + 1 + 1)) by lia.
      rewrite !extend_extend.
      replace (Z.to_nat (nvalues - counter))
        with (S (S (S (Z.to_nat (nvalues - counter - 3))))) by lia.
      cbn [expand map firstn app Nat.add]. rewrite firstn_nil.
      do 3 f_equal. lia.
    + rewrite !bind_ret. unfold ret. rewrite !extend_extend.
      replace (Z.to_nat (nvalues - counter)) with 2%nat by lia.
      cbn [expand map firstn app Nat.add].
      do 3 f_equal. lia.
  - rewrite !bind_ret.
    destruct (Z.ltb_spec (counter + 1) nvalues) as [L2|L2]; [lia|].
    rewrite !bind_ret. unfold ret.
    replace (Z.to_nat (nvalues - counter)) with 1%nat by lia.
    cbn [expand map firstn app Nat.add].
    do 3 f_equal. lia.
Qed.

Lemma ceil3_step r : 0 < r -> ceil3 (r - Z.min r 3) = ceil3 r - 1.
Proof. intros H. rewrite !ceil3_eq. Z.div_mod_to_equations. lia. Qed.

(** The loop over a run of bytes that lies within the buffer. *)
Lemma three_packed_event_loop_OK fuel : forall counter offset s,
  0 <= counter <= nvalues ->
  0 <= offset ->
  offset + ceil3 (nvalues - counter) <= tvb_captured_length tvb ->
  (Z.to_nat (ceil3 (nvalues - counter)) <= fuel)%nat ->
  while fuel cond body (counter, offset) s =
  (extend s
     (firstn (Z.to_nat (nvalues - counter))
        (packed_run vect_attr_tree tvb offset
           (Z.to_nat (ceil3 (nvalues - counter)))))
     (Z.to_nat (ceil3 (nvalues - counter))),
   OK (nvalues, offset + ceil3 (nvalues - counter))).
Proof.
  induction fuel as [|fuel IH]; intros counter offset s Hc Ho Hlen Hfuel;
    rewrite while_unfold; unfold cond at 1; rewrite bind_ret; cbn [fst];
    destruct (Z.ltb_spec counter nvalues) as [L|L].
  - pose proof (ceil3_spec (nvalues - counter)). lia.
  - replace counter with nvalues by lia.
    rewrite Z.sub_diag. change (ceil3 0) with 0. cbn [Z.to_nat firstn].
    rewrite extend_nil, Z.add_0_r. reflexivity.
  - pose proof (ceil3_spec (nvalues - counter)) as Hk.
    rewrite (bind_OK _ _ _ _ _ (tick_extend _)).
    destruct (tvb_byte_some tvb offset) as (v & Ev & Hv); [lia|].
    rewrite (bind_OK _ _ _ _ _
               (three_packed_event_body_OK counter offset v _ ltac:(lia) Ev)).
    assert (nvalues - Z.min nvalues (counter + 3)
            = (nvalues - counter)
              - Z.min (nvalues - counter) 3) as Er by lia.
    pose proof (ceil3_step (nvalues - counter) ltac:(lia)) as Ek.
    rewrite IH; rewrite ?Er, ?Ek; try lia.
    rewrite !extend_extend. cbn [app].
    assert (Z.to_nat (ceil3 (nvalues - counter))
            = S (Z.to_nat (ceil3 (nvalues - counter) - 1))) as ->
        by lia.
    cbn [packed_run]. rewrite Ev.
    rewrite firstn_app. rewrite length_map. cbn [expand List.length].
    f_equal; [f_equal|].
    + do 2 f_equal. lia.
    + do 2 f_equal. lia.
  - replace counter with nvalues by lia.
    rewrite Z.sub_diag. change (ceil3 0) with 0. cbn [Z.to_nat firstn].
    rewrite extend_nil, Z.add_0_r. reflexivity.
Qed.

(** The loop over a run of bytes that the buffer ends in: every byte
    there is gives its three events, and the read after the last one
    fails. *)
Lemma three_packed_event_loop_Truncated fuel : forall counter offset s,
  0 <= counter < nvalues ->
  0 <= offset <= tvb_captured_length tvb + 16 ->
  tvb_captured_length tvb < offset + ceil3 (nvalues - counter) ->
  Z.max 0 (tvb_captured_length tvb - offset) < Z.of_nat fuel ->
  while fuel cond body (counter, offset) s =
  (extend s
     (packed_run vect_attr_tree tvb offset
        (Z.to_nat (tvb_captured_length tvb - offset)))
     (S (Z.to_nat (tvb_captured_length tvb - offset))),
   Truncated).
Proof.
  unfold tvb_fits, G_MAXINT in Hfits.
  induction fuel as [|fuel IH]; intros counter offset s Hc Ho Hlen Hfuel;
    [lia|].
  rewrite while_unfold; unfold cond at 1; rewrite bind_ret; cbn [fst].
  destruct (Z.ltb_spec counter nvalues) as [L|L]; [|lia].
  rewrite (bind_OK _ _ _ _ _ (tick_extend _)).
  destruct (Z_lt_dec offset (tvb_captured_length tvb)) as [In|Out].
  - destruct (tvb_byte_some tvb offset) as (v & Ev & Hv); [lia|].
    rewrite (bind_OK _ _ _ _ _
               (three_packed_event_body_OK counter offset v _ ltac:(lia) Ev)).
    assert (nvalues - Z.min nvalues (counter + 3)
            = (nvalues - counter)
              - Z.min (nvalues - counter) 3) as Er by lia.
    pose proof (ceil3_step (nvalues - counter) ltac:(lia)) as Ek.
    pose proof (ceil3_spec (nvalues - counter)) as Hk.
    rewrite IH; rewrite ?Er, ?Ek; try lia.
    rewrite !extend_extend. cbn [app].
    assert (Z.to_nat (tvb_captured_length tvb - offset)
            = S (Z.to_nat (tvb_captured_length tvb - (offset + 1)))) as ->
        by lia.
    cbn [packed_run]. rewrite Ev.
    assert (Z.to_nat (nvalues - counter)
            = (3 + Z.to_nat (nvalues - counter - 3))%nat) as ->
        by lia.
    cbn [expand map firstn Nat.add app]. rewrite firstn_nil.
    cbn [app]. reflexivity.
  - unfold body, three_packed_event_body.
    rewrite (gint_of_small offset) by lia.
    rewrite bind_assoc.
    rewrite (bind_Truncated _ _ _ _
               (tvb_get_guint8_Truncated tvb offset _
                  (tvb_byte_none tvb offset ltac:(lia)))).
    replace (Z.to_nat (tvb_captured_length tvb - offset)) with 0%nat by lia.
    reflexivity.
Qed.

End Expander.

(** The expander on a run within the buffer, and on a run that the
    buffer ends in. *)
Lemma dissect_mmrp_three_packed_event_OK fuel tree tvb offset n s :
  0 <= n < 2 ^ 16 ->
  tvb_fits tvb ->
  0 <= offset ->
  n = 0 \/ offset + ceil3 n <= tvb_captured_length tvb ->
  (Z.to_nat (ceil3 n) <= fuel)%nat ->
  dissect_mmrp_three_packed_event fuel tree tvb offset n s =
  (extend s (packed_events tree tvb offset n) (Z.to_nat (ceil3 n)),
   OK (offset + ceil3 n)).
Proof.
  intros Hn Hfits Ho [->|Hlen] Hfuel.
  { unfold packed_events. change (ceil3 0) with 0. cbn [Z.to_nat firstn].
    rewrite extend_nil, Z.add_0_r. destruct fuel; reflexivity. }
  unfold dissect_mmrp_three_packed_event.
  erewrite bind_OK.
  2:{ apply three_packed_event_loop_OK; rewrite ?Z.sub_0_r; try lia; assumption. }
  rewrite Z.sub_0_r. reflexivity.
Qed.

Lemma dissect_mmrp_three_packed_event_Truncated fuel tree tvb offset n s :
  0 < n < 2 ^ 16 ->
  tvb_fits tvb ->
  0 <= offset <= tvb_captured_length tvb + 16 ->
  tvb_captured_length tvb < offset + ceil3 n ->
  Z.max 0 (tvb_captured_length tvb - offset) < Z.of_nat fuel ->
  dissect_mmrp_three_packed_event fuel tree tvb offset n s =
  (extend s
     (packed_run tree tvb offset (Z.to_nat (tvb_captured_length tvb - offset)))
     (S (Z.to_nat (tvb_captured_length tvb - offset))),
   Truncated).
Proof.
  intros Hn Hfits Ho Hlen Hfuel. unfold dissect_mmrp_three_packed_event.
  erewrite bind_Truncated; [reflexivity|].
  apply three_packed_event_loop_Truncated; rewrite ?Z.sub_0_r; try lia; assumption.
Qed.

(** The items of a run within the buffer, one by one. *)
Lemma packed_run_length tree tvb count : forall offset,
  0 <= offset ->
  offset + Z.of_nat count <= tvb_captured_length tvb ->
  List.length (packed_run tree tvb offset count) = (3 * count)%nat.
Proof.
  induction count as [|count IH]; intros offset Ho Hlen; [reflexivity|].
  cbn [packed_run].
  destruct (tvb_byte_some tvb offset) as (v & Ev & _); [lia|].
  rewrite Ev, length_app, length_map, IH by lia.
  cbn [expand List.length]. lia.
Qed.

Lemma packed_run_nth tree tvb count : forall offset i,
  0 <= offset ->
  offset + Z.of_nat count <= tvb_captured_length tvb ->
  (i < 3 * count)%nat ->
  exists v,
    tvb_byte tvb (offset + Z.of_nat i / 3) = Some v /\
    nth_error (packed_run tree tvb offset count) i =
    Some (E_uint tree hf_mmrp_three_packed_event (offset + Z.of_nat i / 3) 1
            (nth (Z.to_nat (Z.of_nat i mod 3)) (expand v) 0)).
Proof.
  induction count as [|count IH]; intros offset i Ho Hlen Hi; [lia|].
  cbn [packed_run].
  destruct (tvb_byte_some tvb offset) as (v & Ev & _); [lia|].
  rewrite Ev.
  destruct (Nat.lt_ge_cases i 3) as [Lt|Ge].
  - exists v.
    assert (Z.of_nat i / 3 = 0) as -> by (Z.div_mod_to_equations; lia).
    rewrite Z.add_0_r. split; [assumption|].
    rewrite nth_error_app1 by (rewrite length_map; cbn; lia).
    destruct i as [|[|[|i]]]; try lia; reflexivity.
  - destruct (IH (offset + 1) (i - 3)%nat) as (w & Ew & En); try lia.
    assert (offset + 1 + Z.of_nat (i - 3) / 3 = offset + Z.of_nat i / 3) as Eo
        by (Z.div_mod_to_equations; lia).
    assert (Z.of_nat (i - 3) mod 3 = Z.of_nat i mod 3) as Em
        by (Z.div_mod_to_equations; lia).
    rewrite Eo, Em in *.
    exists w. split; [assumption|].
    rewrite nth_error_app2 by (rewrite length_map; cbn; lia).
    rewrite length_map. cbn [expand List.length]. exact En.
Qed.

Lemma packed_events_length tree tvb offset n :
  0 <= n -> 0 <= offset ->
  offset + ceil3 n <= tvb_captured_length tvb ->
  List.length (packed_events tree tvb offset n) = Z.to_nat n.
Proof.
  intros Hn Ho Hlen. unfold packed_events.
  pose proof (ceil3_spec n).
  rewrite length_firstn, packed_run_length by lia. lia.
Qed.

Lemma packed_events_nth tree tvb offset n i :
  0 <= i < n -> 0 <= offset ->
  offset + ceil3 n <= tvb_captured_length tvb ->
  exists v,
    tvb_byte tvb (offset + i / 3) = Some v /\
    nth_error (packed_events tree tvb offset n) (Z.to_nat i) =
    Some (E_uint tree hf_mmrp_three_packed_event (offset + i / 3) 1
            (nth (Z.to_nat (i mod 3)) (expand v) 0)).
Proof.
  intros Hi Ho Hlen. unfold packed_events.
  pose proof (ceil3_spec n).
  destruct (packed_run_nth tree tvb (Z.to_nat (ceil3 n)) offset (Z.to_nat i))
    as (v & Ev & En); try lia.
  rewrite Z2Nat.id in * by lia.
  exists v. split; [assumption|].
  rewrite nth_error_firstn.
  destruct (Nat.ltb_spec (Z.to_nat i) (Z.to_nat n)); [assumption | lia].
Qed.

(** ** Invariants of loops *)

Section WhileRule.

Context {V : Type}.
Variable cond : V -> M bool.
Variable body : V -> M V.

(** [Inv] holds of the variables and the state before each test of
    the loop, [Post] of the state and the outcome it ends in, and
    [measure] bounds the iterations that remain. *)
Variable Inv : V -> state -> Prop.
Variable Post : state * result V -> Prop.
Variable measure : V -> Z.

Hypothesis step : forall v s,
  Inv v s ->
  match cond v s with
  | (s1, OK true) =>
      0 < measure v /\
      match body v (extend s1 [] 1) with
      | (s2, OK v') => Inv v' s2 /\ measure v' < measure v
      | (s2, Truncated) => Post (s2, Truncated)
      | (s2, OutOfFuel) => Post (s2, OutOfFuel)
      end
  | (s1, OK false) => Post (s1, OK v)
  | (s1, Truncated) => Post (s1, Truncated)
  | (s1, OutOfFuel) => Post (s1, OutOfFuel)
  end.

Lemma while_rule fuel : forall v s,
  Inv v s -> measure v <= Z.of_nat fuel ->
  Post (while fuel cond body v s).
Proof.
  induction fuel as [|fuel IH]; intros v s Hinv Hm;
    rewrite while_unfold; unfold bind at 1;
    specialize (step v s Hinv);
    destruct (cond v s) as [s1 [[|]| |]]; try assumption.
  - lia.
  - destruct step as [Hpos Hbody].
    rewrite (bind_OK _ _ _ _ _ (tick_extend _)). unfold bind at 1.
    destruct (body v (extend s1 [] 1)) as [s2 [v'| |]]; try assumption.
    destruct Hbody as [Hinv' Hdec]. apply IH; [assumption | lia].
Qed.

End WhileRule.

(** ** One Vector Attribute *)

Lemma ws_ctz_leave_all : ws_ctz (hf_bitmask hf_mmrp_leave_all_event) = 13.
Proof. reflexivity. Qed.

Lemma ws_ctz_number_of_values : ws_ctz (hf_bitmask hf_mmrp_number_of_values) = 0.
Proof. reflexivity. Qed.

(** Evaluation of the calls on the output side. *)
Ltac mstep :=
  repeat first
    [ rewrite bind_assoc
    | rewrite bind_ret
    | rewrite (bind_OK _ _ _ _ _ (proto_tree_add_item_extend _ _ _ _ _ _ _))
    | rewrite (bind_OK _ _ _ _ _ (proto_tree_add_uint_extend _ _ _ _ _ _ _))
    | rewrite (bind_OK _ _ _ _ _ (emit_extend _ _)) ];
  rewrite ?extend_extend; cbn [Nat.add app].

Lemma dissect_mmrp_common2_OK tree tvb msg_offset h s :
  tvb_fits tvb ->
  tvb_ntohs tvb (3 + msg_offset) = Some h ->
  dissect_mmrp_common2 tree tvb msg_offset s =
  (extend s
     [ E_uint tree hf_mmrp_vector_header (3 + msg_offset) 2 h;
       E_uint (subtree ett_vector_header) hf_mmrp_leave_all_event
         (3 + msg_offset) 2 (Z.shiftr (Z.land h MMRP_LEAVE_ALL_EVENT_MASK) 13);
       E_uint (subtree ett_vector_header) hf_mmrp_number_of_values
         (3 + msg_offset) 2 (Z.land h MMRP_NUMBER_OF_VALUES_MASK) ] 0,
   OK tt).
Proof.
  intros Hfits Eh. destruct (tvb_ntohs_range _ _ _ Eh) as (Ho & Hlen & Hh).
  unfold tvb_fits, G_MAXINT in Hfits.
  unfold dissect_mmrp_common2, proto_tree_add_bitmask.
  change MMRP_VECTOR_HEADER_OFFSET with 3.
  rewrite (gint_of_small (3 + msg_offset)) by lia.
  rewrite !bind_assoc.
  rewrite (bind_OK _ _ _ _ _ (tvb_get_ntohs_OK _ _ _ _ Eh)).
  unfold vector_header_fields, proto_item_add_subtree.
  cbn [add_bitmask_fields].
  rewrite ws_ctz_leave_all, ws_ctz_number_of_values.
  mstep. unfold ret. reflexivity.
Qed.

Section VectorAttribute.

Variable tvb : tvbuff_t.
Variable attr_list_tree : proto_tree.
Variables attribute_type attribute_length msg_offset : Z.
Hypothesis Hfits : tvb_fits tvb.
Hypothesis Hlength : 0 <= attribute_length <= 255.
Hypothesis Hmsg : 0 <= msg_offset.

Let len := tvb_captured_length tvb.

(** The outcome of one Vector Attribute, at [vect_offset] in the
    Message, whose header is [h]. *)
Lemma vector_attribute_body_eq fuel vect_offset offset h s :
  0 <= vect_offset ->
  tvb_ntohs tvb (3 + msg_offset + vect_offset) = Some h ->
  len < Z.of_nat fuel ->
  let p := 3 + msg_offset + vect_offset in
  let n := number_of_values h in
  let val := 2 + attribute_length + ceil3 n in
  vector_attribute_body fuel tvb attr_list_tree attribute_type
    attribute_length msg_offset (vect_offset, offset) s =
  match first_value_size attribute_type with
  | None =>
      (extend s (vector_header_items attr_list_tree p val h) 0,
       OK (vect_offset + val, offset))
  | Some fs =>
      if (n =? 0) || (p + 2 + fs + ceil3 n <=? len) then
        (extend s
           (vector_header_items attr_list_tree p val h
            ++ first_value_items attribute_type (p + 2) attribute_length
            ++ packed_events (subtree ett_vect_attr) tvb (p + 2 + fs) n)
           (Z.to_nat (ceil3 n)),
         OK (vect_offset + val, p + 2 + fs + ceil3 n))
      else
        (extend s
           (vector_header_items attr_list_tree p val h
            ++ first_value_items attribute_type (p + 2) attribute_length
            ++ packed_run (subtree ett_vect_attr) tvb (p + 2 + fs)
                 (Z.to_nat (len - (p + 2 + fs))))
           (S (Z.to_nat (len - (p + 2 + fs)))),
         Truncated)
  end.
Proof.
  intros Hv Eh Hfuel p n val.
  destruct (tvb_ntohs_range _ _ _ Eh) as (_ & Hlen & Hh).
  pose proof (number_of_values_range h Hh) as Hn. fold n in Hn.
  pose proof (ceil3_spec n) as Hk.
  assert (vect_attr_len attribute_length n = val) as Eval.
  { unfold vect_attr_len, val. rewrite ceil3_eq.
    rewrite (gint_of_small (n + 2)) by lia.
    rewrite cdiv_nonneg by lia.
    assert (0 <= (n + 2) / 3 <= 2731) by (Z.div_mod_to_equations; lia).
    unwrap. reflexivity. }
  assert (Hfits' := Hfits). unfold tvb_fits, G_MAXINT in Hfits'. fold len in Hfits'.
  fold len in Hlen. fold p in Hlen.
  unfold vector_attribute_body.
  change MMRP_NUMBER_OF_VALUES_OFFSET with 3.
  change MMRP_VECTOR_ATTRIBUTE_GROUP_OFFSET with 3.
  change MMRP_FIRST_VALUE_GROUP_OFFSET with 5.
  change MMRP_MAC_THREE_PACKED_OFFSET with 11.
  change MMRP_SERVICE_THREE_PACKED_OFFSET with 6.
  rewrite (gint_of_small (3 + msg_offset)) by lia.
  rewrite (gint_of_small (3 + msg_offset + vect_offset)) by lia.
  rewrite (gint_of_small (msg_offset + vect_offset)) by lia.
  rewrite (bind_OK _ _ _ _ _ (tvb_get_ntohs_OK _ _ _ _ Eh)).
  fold n. rewrite Eval.
  rewrite (gint_of_small (vect_offset + val)) by (unfold val; lia).
  unfold proto_item_add_subtree.
  rewrite (bind_OK _ _ _ _ _ (proto_tree_add_item_extend _ _ _ _ _ _ _)).
  assert (3 + (msg_offset + vect_offset) = p) as Ep by (unfold p; lia).
  erewrite bind_OK.
  2:{ apply dissect_mmrp_common2_OK; [assumption|]. rewrite Ep. exact Eh. }
  rewrite Ep, extend_extend. cbn [Nat.add app].
  fold p. fold (vector_header_items attr_list_tree p val h).
  unfold first_value_size, first_value_items.
  change (MMRP_MAC_THREE_PACKED_OFFSET - MMRP_FIRST_VALUE_GROUP_OFFSET) with 6.
  change (MMRP_SERVICE_THREE_PACKED_OFFSET - MMRP_FIRST_VALUE_GROUP_OFFSET) with 1.
  destruct (attribute_type =? MMRP_ATTRIBUTE_TYPE_MAC);
    [|destruct (attribute_type =? MMRP_ATTRIBUTE_TYPE_SERVICE)].
  - rewrite (gint_of_small (5 + msg_offset)) by lia.
    rewrite (gint_of_small (11 + msg_offset)) by lia.
    rewrite (gint_of_small (5 + msg_offset + vect_offset)) by lia.
    rewrite (gint_of_small (11 + msg_offset + vect_offset)) by lia.
    rewrite (guint_of_small (11 + msg_offset + vect_offset)) by lia.
    replace (5 + msg_offset + vect_offset) with (p + 2) by (unfold p; lia).
    replace (11 + msg_offset + vect_offset) with (p + 2 + 6) by (unfold p; lia).
    mstep.
    destruct ((n =? 0) || (p + 2 + 6 + ceil3 n <=? len)) eqn:Ein.
    + apply orb_true_iff in Ein. rewrite Z.eqb_eq, Z.leb_le in Ein.
      erewrite bind_OK.
      2:{ apply dissect_mmrp_three_packed_event_OK; try assumption; try lia. }
      unfold ret. rewrite extend_extend, <- app_assoc. reflexivity.
    + apply orb_false_iff in Ein. rewrite Z.eqb_neq, Z.leb_gt in Ein.
      erewrite bind_Truncated.
      2:{ apply dissect_mmrp_three_packed_event_Truncated;
            try assumption; try lia. }
      fold len. rewrite extend_extend, <- app_assoc. reflexivity.
  - rewrite (gint_of_small (5 + msg_offset)) by lia.
    rewrite (gint_of_small (6 + msg_offset)) by lia.
    rewrite (gint_of_small (5 + msg_offset + vect_offset)) by lia.
    rewrite (gint_of_small (6 + msg_offset + vect_offset)) by lia.
    rewrite (guint_of_small (6 + msg_offset + vect_offset)) by lia.
    replace (5 + msg_offset + vect_offset) with (p + 2) by (unfold p; lia).
    replace (6 + msg_offset + vect_offset) with (p + 2 + 1) by (unfold p; lia).
    mstep.
    destruct ((n =? 0) || (p + 2 + 1 + ceil3 n <=? len)) eqn:Ein.
    + apply orb_true_iff in Ein. rewrite Z.eqb_eq, Z.leb_le in Ein.
      erewrite bind_OK.
      2:{ apply dissect_mmrp_three_packed_event_OK; try assumption; try lia. }
      unfold ret. rewrite extend_extend, <- app_assoc. reflexivity.
    + apply orb_false_iff in Ein. rewrite Z.eqb_neq, Z.leb_gt in Ein.
      erewrite bind_Truncated.
      2:{ apply dissect_mmrp_three_packed_event_Truncated;
            try assumption; try lia. }
      fold len. rewrite extend_extend, <- app_assoc. reflexivity.
  - rewrite !bind_ret. reflexivity.
Qed.

End VectorAttribute.

(** ** The Vector Attributes of a Message *)

Lemma Forall_firstn_of {A} (P : A -> Prop) n : forall l,
  Forall P l -> Forall P (firstn n l).
Proof.
  induction n as [|n IH]; intros l H; [constructor|].
  destruct H as [|a l Ha Hl]; constructor; auto.
Qed.

Lemma va_within_packed_run tvb0 bound tree tvb count : forall offset,
  Forall (va_within tvb0 bound) (packed_run tree tvb offset count).
Proof.
  induction count as [|count IH]; intros offset; cbn [packed_run];
    [constructor|].
  apply Forall_app. split; [|apply IH].
  destruct (tvb_byte tvb offset); repeat constructor.
Qed.

Lemma va_within_packed_events tvb0 bound tree tvb offset n :
  Forall (va_within tvb0 bound) (packed_events tree tvb offset n).
Proof. apply Forall_firstn_of, va_within_packed_run. Qed.

Lemma va_within_first_value_items tvb0 bound attribute_type p attribute_length :
  Forall (va_within tvb0 bound) (first_value_items attribute_type p attribute_length).
Proof.
  unfold first_value_items.
  destruct (attribute_type =? _); [|destruct (attribute_type =? _)];
    repeat constructor.
Qed.

Lemma va_within_vector_header_items tvb bound tree p l h :
  tvb_ntohs tvb p = Some h ->
  0 <= l <= 255 ->
  p + (2 + l + ceil3 (number_of_values h)) <= bound ->
  Forall (va_within tvb bound)
    (vector_header_items tree p (2 + l + ceil3 (number_of_values h)) h).
Proof.
  intros Eh Hl H. unfold vector_header_items. repeat constructor; [exact H|].
  exists h, l. auto.
Qed.

Lemma va_within_mono tvb b b' l :
  b <= b' -> Forall (va_within tvb b) l -> Forall (va_within tvb b') l.
Proof.
  intros Hb. apply Forall_impl.
  intros [t [] st ln e| | |] H; cbn in *; try exact I.
  destruct H as [H1 H2]. split; [lia | exact H2].
Qed.

Lemma first_value_size_cases attribute_type :
  first_value_size attribute_type = Some 6
  \/ first_value_size attribute_type = Some 1
  \/ first_value_size attribute_type = None.
Proof.
  unfold first_value_size.
  destruct (attribute_type =? _); [|destruct (attribute_type =? _)]; auto.
Qed.

Lemma vector_attribute_cond_eq tvb msg_offset v s :
  tvb_fits tvb -> 0 <= msg_offset -> 0 <= fst v ->
  3 + msg_offset + fst v <= tvb_captured_length tvb + 2986 ->
  vector_attribute_cond tvb msg_offset v s =
  match tvb_ntohs tvb (3 + msg_offset + fst v) with
  | Some h => (s, OK (negb (h =? MMRP_END_MARK)))
  | None => (s, Truncated)
  end.
Proof.
  intros Hfits Hm Hv Hp. unfold tvb_fits, G_MAXINT in Hfits.
  unfold vector_attribute_cond. change MMRP_VECTOR_HEADER_OFFSET with 3.
  unwrap. unfold tvb_get_ntohs, bind.
  destruct (tvb_ntohs tvb (3 + msg_offset + fst v)); reflexivity.
Qed.

Section VectorLoop.

Variable tvb : tvbuff_t.
Variable attr_list_tree : proto_tree.
Variables attribute_type attribute_length msg_offset offset0 : Z.
Variable s0 : state.
Variable gas : nat.
Hypothesis Hfits : tvb_fits tvb.
Hypothesis Hlength : 0 <= attribute_length <= 255.
Hypothesis Hmsg : 0 <= msg_offset.
Hypothesis Hgas : tvb_captured_length tvb < Z.of_nat gas.

Let len := tvb_captured_length tvb.
Let inv := vect_loop_inv tvb attribute_type attribute_length msg_offset offset0 s0.
Let post := vect_loop_post tvb attribute_type attribute_length msg_offset offset0 s0.

Lemma vector_attribute_loop_step v s :
  inv v s ->
  match vector_attribute_cond tvb msg_offset v s with
  | (s1, OK true) =>
      0 < len - (3 + msg_offset + fst v) /\
      match vector_attribute_body gas tvb attr_list_tree attribute_type
              attribute_length msg_offset v (extend s1 [] 1) with
      | (s2, OK v') =>
          inv v' s2 /\
          len - (3 + msg_offset + fst v') < len - (3 + msg_offset + fst v)
      | (s2, Truncated) => post (s2, Truncated)
      | (s2, OutOfFuel) => post (s2, OutOfFuel)
      end
  | (s1, OK false) => post (s1, OK v)
  | (s1, Truncated) => post (s1, Truncated)
  | (s1, OutOfFuel) => post (s1, OutOfFuel)
  end.
Proof.
  intros (out & t & -> & Hv & Hp & Htv & Htl & Hoff & Hwithin & Hnil & Hcur
          & Hframe).
  destruct v as [vect_offset offset]. cbn [fst snd] in *.
  rewrite vector_attribute_cond_eq by (cbn [fst]; assumption || lia).
  cbn [fst].
  destruct (tvb_ntohs tvb (3 + msg_offset + vect_offset)) as [h|] eqn:Eh.
  2:{ exists out, t. cbn [fst snd]. auto. }
  destruct (tvb_ntohs_range _ _ _ Eh) as (_ & Hlen & Hh). fold len in Hlen.
  destruct (Z.eqb_spec h MMRP_END_MARK) as [->|Hnz]; cbn [negb].
  { exists out, t. cbn [fst snd]. repeat split; auto; try lia.
    apply Hframe, va_end, Eh. }
  split; [lia|].
  pose proof (number_of_values_range h Hh) as Hn.
  pose proof (ceil3_spec (number_of_values h)) as Hk.
  assert (forall e,
             vector_attributes tvb attribute_length
               (3 + msg_offset
                + (vect_offset
                   + (2 + attribute_length + ceil3 (number_of_values h)))) e ->
             vector_attributes tvb attribute_length (3 + msg_offset) e)
    as Hframe'.
  { intros e He. apply Hframe. apply va_next with (h := h); try assumption.
    rewrite <- number_of_values_mod by assumption.
    replace (3 + msg_offset + vect_offset
             + (2 + attribute_length + ceil3 (number_of_values h)))
      with (3 + msg_offset
            + (vect_offset
               + (2 + attribute_length + ceil3 (number_of_values h))))
      by lia.
    exact He. }
  rewrite vector_attribute_body_eq with (h := h); try assumption.
  fold len.
  set (p := 3 + msg_offset + vect_offset) in *.
  set (n := number_of_values h) in *.
  set (val := 2 + attribute_length + ceil3 n).
  assert (Hcur' := Hcur). unfold event_cursor in Hcur'.
  change MMRP_VECTOR_HEADER_OFFSET with 3 in Hcur'.
  destruct (first_value_size_cases attribute_type) as [Efs|[Efs|Efs]];
    rewrite Efs in *.
  - (* MAC *)
    destruct ((n =? 0) || (p + 2 + 6 + ceil3 n <=? len)) eqn:Ein.
    + apply orb_true_iff in Ein. rewrite Z.eqb_eq, Z.leb_le in Ein.
      split; [|cbn [fst]; unfold val; lia].
      rewrite !extend_extend. cbn [app].
      eexists _, _. split; [reflexivity|]. cbn [fst snd].
      repeat split; try (unfold val, p in *; lia).
      * repeat (apply Forall_app; split).
        -- eapply va_within_mono; [|exact Hwithin]. unfold val, p. lia.
        -- apply va_within_vector_header_items;
             [exact Eh | lia | unfold val, p, n; lia].
        -- apply va_within_first_value_items.
        -- apply va_within_packed_events.
      * unfold event_cursor. rewrite Efs.
        change MMRP_VECTOR_HEADER_OFFSET with 3.
        destruct (Z.eqb_spec (vect_offset + val) 0);
          unfold val, p in *; lia.
      * exact Hframe'.
    + apply orb_false_iff in Ein. rewrite Z.eqb_neq, Z.leb_gt in Ein.
      rewrite !extend_extend.
      eexists _, _. split; [reflexivity|]. cbn [fst snd].
      split; [unfold p in *; lia | exact I].
  - (* Service Requirement *)
    destruct ((n =? 0) || (p + 2 + 1 + ceil3 n <=? len)) eqn:Ein.
    + apply orb_true_iff in Ein. rewrite Z.eqb_eq, Z.leb_le in Ein.
      split; [|cbn [fst]; unfold val; lia].
      rewrite !extend_extend. cbn [app].
      eexists _, _. split; [reflexivity|]. cbn [fst snd].
      repeat split; try (unfold val, p in *; lia).
      * repeat (apply Forall_app; split).
        -- eapply va_within_mono; [|exact Hwithin]. unfold val, p. lia.
        -- apply va_within_vector_header_items;
             [exact Eh | lia | unfold val, p, n; lia].
        -- apply va_within_first_value_items.
        -- apply va_within_packed_events.
      * unfold event_cursor. rewrite Efs.
        change MMRP_VECTOR_HEADER_OFFSET with 3.
        destruct (Z.eqb_spec (vect_offset + val) 0);
          unfold val, p in *; lia.
      * exact Hframe'.
    + apply orb_false_iff in Ein. rewrite Z.eqb_neq, Z.leb_gt in Ein.
      rewrite !extend_extend.
      eexists _, _. split; [reflexivity|]. cbn [fst snd].
      split; [unfold p in *; lia | exact I].
  - (* neither *)
    split; [|cbn [fst]; unfold val; lia].
    rewrite !extend_extend. cbn [app].
    eexists _, _. split; [reflexivity|]. cbn [fst snd].
    repeat split; try (unfold val, p in *; lia).
    * apply Forall_app; split.
      -- eapply va_within_mono; [|exact Hwithin]. unfold val, p. lia.
      -- apply va_within_vector_header_items;
             [exact Eh | lia | unfold val, p, n; lia].
    * unfold event_cursor. rewrite Efs. exact Hcur'.
    * exact Hframe'.
Qed.

Lemma vector_attribute_loop_post fuel :
  3 + msg_offset <= len ->
  0 <= offset0 <= len + 6 ->
  len <= Z.of_nat fuel ->
  post (while fuel (vector_attribute_cond tvb msg_offset)
          (vector_attribute_body gas tvb attr_list_tree attribute_type
             attribute_length msg_offset)
          (0, offset0) s0).
Proof.
  intros Hstart Hoff Hfuel.
  apply while_rule
    with (Inv := inv) (measure := fun v => len - (3 + msg_offset + fst v)).
  - apply vector_attribute_loop_step.
  - exists [], 0%nat. rewrite extend_nil. cbn [fst snd].
    repeat split; try lia; try constructor.
    + unfold event_cursor.
      destruct (first_value_size attribute_type); reflexivity.
    + intros e. rewrite Z.add_0_r. exact (fun H => H).
  - cbn [fst]. lia.
Qed.

End VectorLoop.

(** ** One Message *)

Lemma message_body_eq fuel tvb mmrp_tree msg_offset offset T L s :
  tvb_fits tvb -> 0 <= msg_offset ->
  tvb_byte tvb (1 + msg_offset) = Some T ->
  tvb_byte tvb (2 + msg_offset) = Some L ->
  message_body fuel tvb mmrp_tree (msg_offset, offset) s =
  bind
    (while fuel (vector_attribute_cond tvb msg_offset)
       (vector_attribute_body fuel tvb (subtree ett_attr_list) T L msg_offset)
       (0, offset))
    (fun v =>
       proto_tree_add_item (subtree ett_attr_list) hf_mmrp_end_mark tvb
         (gint_of (snd v)) 2 ENC_BIG_ENDIAN ;;
       ret (gint_of (msg_offset + gint_of (gint_of (fst v + 2) + 2)), snd v))
    (extend s (message_items mmrp_tree T L msg_offset) 0).
Proof.
  intros Hfits Hm ET EL. unfold tvb_fits, G_MAXINT in Hfits.
  destruct (tvb_byte_range _ _ _ ET) as [HoT _].
  destruct (tvb_byte_range _ _ _ EL) as [HoL _].
  unfold message_body, dissect_mmrp_common1.
  change MMRP_ATTRIBUTE_TYPE_OFFSET with 1.
  change MMRP_ATTRIBUTE_LENGTH_OFFSET with 2.
  change MMRP_MESSAGE_GROUP_OFFSET with 1.
  change MMRP_ATTRIBUTE_LIST_GROUP_OFFSET with 3.
  rewrite (gint_of_small (1 + msg_offset)) by lia.
  rewrite (gint_of_small (2 + msg_offset)) by lia.
  rewrite (gint_of_small (3 + msg_offset)) by lia.
  rewrite (bind_OK _ _ _ _ _ (tvb_get_guint8_OK _ _ _ _ ET)).
  rewrite (bind_OK _ _ _ _ _ (tvb_get_guint8_OK _ _ _ _ EL)).
  unfold proto_item_add_subtree, proto_item_append_text.
  mstep. fold (message_items mmrp_tree T L msg_offset).
  unfold bind.
  destruct (while _ _ _ _ _) as [s1 [[v' off']| |]]; reflexivity.
Qed.

Lemma message_cond_eq tvb v s :
  tvb_fits tvb -> 0 <= fst v <= tvb_captured_length tvb ->
  message_cond tvb v s =
  match tvb_ntohs tvb (1 + fst v) with
  | Some h => (s, OK (negb (h =? MMRP_END_MARK)))
  | None => (s, Truncated)
  end.
Proof.
  intros Hfits Hm. unfold tvb_fits, G_MAXINT in Hfits.
  unfold message_cond. change MMRP_ATTRIBUTE_TYPE_OFFSET with 1.
  unwrap. unfold tvb_get_ntohs, bind.
  destruct (tvb_ntohs tvb (1 + fst v)); reflexivity.
Qed.

(** ** The Messages of a frame *)

Lemma va_within_message_items tvb0 bound tree T L m :
  Forall (va_within tvb0 bound) (message_items tree T L m).
Proof. unfold message_items. repeat constructor. Qed.

Section MessageLoop.

Variable tvb : tvbuff_t.
Variable mmrp_tree : proto_tree.
Variable s0 : state.
Variable gas : nat.
Hypothesis Hfits : tvb_fits tvb.
Hypothesis Hgas : tvb_captured_length tvb < Z.of_nat gas.

Let len := tvb_captured_length tvb.
Let inv := msg_loop_inv tvb s0.
Let post := msg_loop_post tvb s0.

Lemma message_loop_step v s :
  inv v s ->
  match message_cond tvb v s with
  | (s1, OK true) =>
      0 < len - fst v /\
      match message_body gas tvb mmrp_tree v (extend s1 [] 1) with
      | (s2, OK v') => inv v' s2 /\ len - fst v' < len - fst v
      | (s2, Truncated) => post (s2, Truncated)
      | (s2, OutOfFuel) => post (s2, OutOfFuel)
      end
  | (s1, OK false) => post (s1, OK v)
  | (s1, Truncated) => post (s1, Truncated)
  | (s1, OutOfFuel) => post (s1, OutOfFuel)
  end.
Proof.
  intros (out & t & -> & Hm & Ht & Hoff & Hwithin & Hframe).
  destruct v as [msg_offset offset]. cbn [fst snd] in *. fold len in Hm, Hoff.
  rewrite message_cond_eq by (cbn [fst]; assumption). cbn [fst].
  destruct (tvb_ntohs tvb (1 + msg_offset)) as [h|] eqn:Eh.
  2:{ exists out, t. cbn [fst snd]. repeat split; auto. fold len. lia. }
  destruct (tvb_ntohs_range _ _ _ Eh) as (_ & Hlen & Hh). fold len in Hlen.
  destruct (Z.eqb_spec h MMRP_END_MARK) as [->|Hnz]; cbn [negb].
  { exists out, t. cbn [fst snd]. fold len. repeat split; auto; try lia.
    apply Hframe, msg_end, Eh. }
  split; [lia|].
  destruct (tvb_byte_some tvb (1 + msg_offset)) as (T & ET & HT);
    [fold len; lia|].
  destruct (tvb_byte_some tvb (2 + msg_offset)) as (L & EL & HL);
    [fold len; lia|].
  rewrite (message_body_eq _ _ _ _ _ T L) by (assumption || lia).
  rewrite !extend_extend. cbn [app Nat.add].
  match goal with
  | |- context [bind (while ?f ?c ?b ?v) _ ?s] =>
      pose proof (vector_attribute_loop_post tvb (subtree ett_attr_list)
                    T L msg_offset offset s gas Hfits
                    ltac:(lia) ltac:(lia) Hgas gas
                    ltac:(fold len; lia) ltac:(fold len; lia)
                    ltac:(fold len; lia)) as Hpost;
      unfold bind at 1;
      destruct (while f c b v s) as [s1 [[vect_offset offset']| |]]
  end;
    destruct Hpost as (out1 & t1 & E1 & Htl & Hr);
    cbn [fst snd] in E1, Hr; fold len in Htl, Hr; subst s1;
    rewrite ?extend_extend.
  - destruct Hr as (Hv & Eend & Htv & Hoff' & Hwithin1 & _ & _ & Hlist).
    destruct (tvb_ntohs_range _ _ _ Eend) as (_ & Hend & _). fold len in Hend.
    assert (Hfits' := Hfits). unfold tvb_fits, G_MAXINT in Hfits'.
    fold len in Hfits'.
    cbn [fst snd]. mstep. unfold ret. unwrap. split; [|cbn [fst]; lia].
    eexists _, _. split; [reflexivity|]. cbn [fst snd]. fold len.
    repeat split; try lia.
    + rewrite !Forall_app. repeat split.
      * eapply va_within_mono; [|exact Hwithin]. lia.
      * apply va_within_message_items.
      * eapply va_within_mono; [|exact Hwithin1]. lia.
      * repeat constructor.
    + intros e He. apply Hframe.
      apply msg_next with (h := h) (l := L) (e := 3 + msg_offset + vect_offset);
        try assumption.
      * replace (1 + msg_offset + 1) with (2 + msg_offset) by lia. exact EL.
      * replace (1 + msg_offset + 2) with (3 + msg_offset) by lia. exact Hlist.
      * replace (3 + msg_offset + vect_offset + 2)
          with (1 + (msg_offset + (vect_offset + 2 + 2))) by lia.
        exact He.
  - eexists _, _. split; [reflexivity|]. cbn [fst snd]. fold len.
    split; [lia | exact I].
  - contradiction.
Qed.

Lemma message_loop_post fuel :
  len <= Z.of_nat fuel ->
  post (while fuel (message_cond tvb) (message_body gas tvb mmrp_tree)
          (0, 0) s0).
Proof.
  intros Hfuel.
  apply while_rule with (Inv := inv) (measure := fun v => len - fst v).
  - apply message_loop_step.
  - exists [], 0%nat. rewrite extend_nil. cbn [fst snd]. fold len.
    unfold len, tvb_captured_length.
    repeat split; try lia; [constructor|].
    intros e. rewrite Z.add_0_r. exact (fun H => H).
  - cbn [fst]. lia.
Qed.

End MessageLoop.

(** ** The record only grows *)

Lemma extends_ret {A} (a : A) : extends (ret a).
Proof. intros s. exists [], 0%nat. now rewrite extend_nil. Qed.

Lemma extends_throw {A} : extends (@throw A).
Proof. intros s. exists [], 0%nat. now rewrite extend_nil. Qed.

Lemma extends_out_of_fuel {A} : extends (@out_of_fuel A).
Proof. intros s. exists [], 0%nat. now rewrite extend_nil. Qed.

Lemma extends_emit e : extends (emit e).
Proof. intros s. exists [e], 0%nat. now rewrite emit_extend. Qed.

Lemma extends_tick : extends tick.
Proof. intros s. exists [], 1%nat. now rewrite tick_extend. Qed.

Lemma extends_bind {A B} (c : M A) (k : A -> M B) :
  extends c -> (forall a, extends (k a)) -> extends (bind c k).
Proof.
  intros Hc Hk s. unfold bind.
  destruct (Hc s) as (o1 & t1 & E1).
  destruct (c s) as [s1 [a| |]]; cbn [fst] in *; subst s1;
    try (exists o1, t1; reflexivity).
  destruct (Hk a (extend s o1 t1)) as (o2 & t2 & E2).
  exists (o1 ++ o2), (t1 + t2)%nat. now rewrite E2, extend_extend.
Qed.

Lemma extends_while {V} (cond : V -> M bool) (body : V -> M V) :
  (forall v, extends (cond v)) -> (forall v, extends (body v)) ->
  forall fuel v, extends (while fuel cond body v).
Proof.
  intros Hc Hb. induction fuel as [|fuel IH]; intros v; cbn [while];
    (apply extends_bind; [apply Hc|]); intros [|];
    try apply extends_ret; try apply extends_out_of_fuel.
  apply extends_bind; [apply extends_tick|]. intros _.
  apply extends_bind; [apply Hb | apply IH].
Qed.

Lemma extends_tvb_get_guint8 tvb offset : extends (tvb_get_guint8 tvb offset).
Proof.
  unfold tvb_get_guint8.
  destruct (tvb_byte tvb offset); [apply extends_ret | apply extends_throw].
Qed.

Lemma extends_tvb_get_ntohs tvb offset : extends (tvb_get_ntohs tvb offset).
Proof.
  unfold tvb_get_ntohs.
  destruct (tvb_ntohs tvb offset); [apply extends_ret | apply extends_throw].
Qed.

Lemma extends_proto_tree_add_item tree hf tvb start len enc :
  extends (proto_tree_add_item tree hf tvb start len enc).
Proof.
  apply extends_bind; [apply extends_emit | intros; apply extends_ret].
Qed.

Lemma extends_proto_tree_add_uint tree hf tvb start len value :
  extends (proto_tree_add_uint tree hf tvb start len value).
Proof.
  apply extends_bind; [apply extends_emit | intros; apply extends_ret].
Qed.

Create HintDb extends_db.

#[local] Hint Resolve extends_ret extends_throw extends_out_of_fuel
  extends_emit extends_tick extends_tvb_get_guint8 extends_tvb_get_ntohs
  extends_proto_tree_add_item extends_proto_tree_add_uint : extends_db.

(** Sequences, branches and destructured pairs of computations that
    extend the record. *)
Ltac extends_tac :=
  repeat first
    [ progress auto with extends_db
    | apply extends_bind; [|intros ?]
    | apply extends_while; intros ?
    | match goal with
      | |- extends (if ?b then _ else _) => destruct b
      | |- extends (match ?x with (_, _) => _ end) => destruct x
      | |- extends (let (_, _) := ?x in _) => destruct x
      end ].

Lemma extends_add_bitmask_fields tree tvb offset fields value :
  extends (add_bitmask_fields tree tvb offset fields value).
Proof.
  induction fields as [|hf rest IH]; cbn [add_bitmask_fields]; extends_tac.
Qed.

#[local] Hint Resolve extends_add_bitmask_fields : extends_db.

Lemma extends_dissect_mmrp_common1 tree tvb msg_offset :
  extends (dissect_mmrp_common1 tree tvb msg_offset).
Proof. unfold dissect_mmrp_common1. extends_tac. Qed.

Lemma extends_dissect_mmrp_common2 tree tvb msg_offset :
  extends (dissect_mmrp_common2 tree tvb msg_offset).
Proof. unfold dissect_mmrp_common2, proto_tree_add_bitmask. extends_tac. Qed.

Lemma extends_three_packed_event_body tree tvb n v :
  extends (three_packed_event_body tree tvb n v).
Proof.
  unfold three_packed_event_body. destruct v as [counter offset].
  apply extends_bind; [auto with extends_db|]. intros value.
  destruct (three_packed_event value) as [[e0 e1] e2]. extends_tac.
Qed.

#[local] Hint Resolve extends_dissect_mmrp_common1
  extends_dissect_mmrp_common2 extends_three_packed_event_body : extends_db.

Lemma extends_dissect_mmrp_three_packed_event fuel tree tvb offset n :
  extends (dissect_mmrp_three_packed_event fuel tree tvb offset n).
Proof. unfold dissect_mmrp_three_packed_event. extends_tac. Qed.

#[local] Hint Resolve extends_dissect_mmrp_three_packed_event : extends_db.

Lemma extends_vector_attribute_body fuel tvb tree T L m v :
  extends (vector_attribute_body fuel tvb tree T L m v).
Proof.
  unfold vector_attribute_body, proto_item_add_subtree.
  destruct v as [vect_offset offset]. extends_tac.
Qed.

Lemma extends_vector_attribute_cond tvb m v :
  extends (vector_attribute_cond tvb m v).
Proof. unfold vector_attribute_cond. extends_tac. Qed.

#[local] Hint Resolve extends_vector_attribute_body
  extends_vector_attribute_cond : extends_db.

Lemma extends_message_body fuel tvb tree v :
  extends (message_body fuel tvb tree v).
Proof.
  unfold message_body, proto_item_add_subtree, proto_item_append_text.
  destruct v as [msg_offset offset]. extends_tac.
Qed.

Lemma extends_message_cond tvb v : extends (message_cond tvb v).
Proof. unfold message_cond. extends_tac. Qed.

#[local] Hint Resolve extends_message_body extends_message_cond : extends_db.

Lemma extends_dissect_mmrp fuel tvb tree : extends (dissect_mmrp fuel tvb tree).
Proof.
  unfold dissect_mmrp, col_set_str, proto_item_add_subtree.
  destruct tree as [tree|]; extends_tac.
Qed.

(** ** The whole frame *)

Lemma vect_attr_len_eq l n :
  0 <= l <= 255 -> 0 <= n <= 8191 -> vect_attr_len l n = 2 + l + ceil3 n.
Proof.
  intros Hl Hn. unfold vect_attr_len. rewrite ceil3_eq.
  rewrite (gint_of_small (n + 2)) by lia.
  rewrite cdiv_nonneg by lia.
  assert (0 <= (n + 2) / 3 <= 2731) by (Z.div_mod_to_equations; lia).
  unwrap. reflexivity.
Qed.

Lemma dissect_mmrp_None fuel tvb s :
  dissect_mmrp fuel tvb None s =
  (extend s column_items 0, OK (tvb_captured_length tvb)).
Proof.
  unfold dissect_mmrp, col_set_str. mstep. reflexivity.
Qed.

Lemma dissect_mmrp_Some fuel tvb tree s :
  dissect_mmrp fuel tvb (Some tree) s =
  bind
    (while fuel (message_cond tvb) (message_body fuel tvb (subtree ett_mmrp))
       (0, 0))
    (fun v =>
       proto_tree_add_item (subtree ett_mmrp) hf_mmrp_end_mark tvb
         (gint_of (guint_of (snd v + 2))) 2 ENC_BIG_ENDIAN ;;
       ret (tvb_captured_length tvb))
    (extend s (frame_items tree) 0).
Proof.
  unfold dissect_mmrp, col_set_str, proto_item_add_subtree.
  change MMRP_PROTOCOL_VERSION_OFFSET with 0.
  mstep. fold (frame_items tree).
  unfold bind.
  destruct (while _ _ _ _ _) as [s1 [[m' off']| |]]; reflexivity.
Qed.

(** The outcome of a dissection into a tree, on enough fuel. *)
Lemma dissect_mmrp_post fuel tvb tree s :
  tvb_fits tvb ->
  tvb_captured_length tvb < Z.of_nat fuel ->
  exists out t r,
    dissect_mmrp fuel tvb (Some tree) s = (extend s out t, r)
    /\ Z.of_nat t <= tvb_captured_length tvb
    /\ match r with
       | OK n =>
           n = tvb_captured_length tvb
           /\ Forall (va_within tvb (tvb_captured_length tvb - 4)) out
           /\ exists e, messages tvb 1 e /\ e <= tvb_captured_length tvb
       | Truncated => True
       | OutOfFuel => False
       end.
Proof.
  intros Hfits Hfuel. rewrite dissect_mmrp_Some.
  pose proof (message_loop_post tvb (subtree ett_mmrp)
                (extend s (frame_items tree) 0) fuel Hfits Hfuel fuel
                ltac:(lia)) as Hpost.
  unfold bind at 1.
  destruct (while _ _ _ _ _) as [s1 [[m' off']| |]];
    destruct Hpost as (out & t & E & Ht & Hr); cbn [fst snd] in *; subst s1;
    rewrite ?extend_extend.
  - destruct Hr as (Hm & Eend & Htm & Hoff & Hwithin & Hframe).
    destruct (tvb_ntohs_range _ _ _ Eend) as (_ & Hlen & _).
    mstep. unfold ret.
    eexists _, _, _. split; [reflexivity|]. split; [lia|].
    split; [reflexivity|]. split.
    + rewrite !Forall_app. repeat split.
      * unfold frame_items, column_items. repeat constructor.
      * eapply va_within_mono; [|exact Hwithin]. lia.
      * repeat constructor.
    + exists (1 + m' + 2). split; [exact Hframe | lia].
  - eexists _, _, _. split; [reflexivity|]. split; [lia | exact I].
  - contradiction.
Qed.

(** ** More fuel changes nothing *)








(** ** Single iterations *)


(** A Message that returns: its Vector Attribute loop has ended on an
    End Mark, at [vect_offset]; the End Mark item is the last entry, at
    the event cursor; and the next Message starts four bytes after the
    last Vector Attribute. *)
Lemma message_body_OK_inv fuel tvb mmrp_tree msg_offset offset T L s s' v' :
  tvb_fits tvb ->
  tvb_captured_length tvb < Z.of_nat fuel ->
  0 <= msg_offset ->
  0 <= offset <= tvb_captured_length tvb + 6 ->
  tvb_byte tvb (1 + msg_offset) = Some T ->
  tvb_byte tvb (2 + msg_offset) = Some L ->
  message_body fuel tvb mmrp_tree (msg_offset, offset) s = (s', OK v') ->
  exists vect_offset out t,
    while fuel (vector_attribute_cond tvb msg_offset)
      (vector_attribute_body fuel tvb (subtree ett_attr_list) T L msg_offset)
      (0, offset) (extend s (message_items mmrp_tree T L msg_offset) 0)
    = (extend s (message_items mmrp_tree T L msg_offset ++ out) t,
       OK (vect_offset, snd v'))
    /\ s' = extend s
              (message_items mmrp_tree T L msg_offset ++ out
               ++ [E_item (subtree ett_attr_list) hf_mmrp_end_mark (snd v') 2
                     ENC_BIG_ENDIAN]) t
    /\ fst v' = msg_offset + (vect_offset + 4)
    /\ 0 <= vect_offset
    /\ tvb_ntohs tvb (3 + msg_offset + vect_offset) = Some MMRP_END_MARK
    /\ Z.of_nat t <= vect_offset
    /\ 0 <= snd v' <= tvb_captured_length tvb + 6
    /\ (vect_offset = 0 -> out = [])
    /\ snd v' = event_cursor T L msg_offset offset vect_offset
    /\ Forall (va_within tvb (3 + msg_offset + vect_offset)) out
    /\ vector_attributes tvb L (3 + msg_offset) (3 + msg_offset + vect_offset).
Proof.
  intros Hfits Hfuel Hm Hoff ET EL.
  destruct (tvb_byte_range _ _ _ ET) as [_ HT].
  destruct (tvb_byte_range _ _ _ EL) as [HoL HL].
  rewrite (message_body_eq _ _ _ _ _ T L) by assumption.
  pose proof (vector_attribute_loop_post tvb (subtree ett_attr_list)
                T L msg_offset offset
                (extend s (message_items mmrp_tree T L msg_offset) 0)
                fuel Hfits ltac:(lia) Hm Hfuel fuel
                ltac:(lia) Hoff ltac:(lia)) as Hpost.
  unfold bind at 1.
  destruct (while _ _ _ _ _) as [s1 [[vect_offset offset']| |]];
    try discriminate.
  destruct Hpost as (out & t & E & _ & Hv & Eend & Htv & Hoff' & Hwithin & Hnil
                     & Hcur & Hlist).
  cbn [fst snd] in *. subst s1. rewrite extend_extend. cbn [Nat.add].
  destruct (tvb_ntohs_range _ _ _ Eend) as (_ & Hend & _).
  unfold tvb_fits, G_MAXINT in Hfits.
  mstep. unfold ret. unwrap. intros E.
  apply pair_OK_inj in E. destruct E as [<- <-]. cbn [fst snd].
  exists vect_offset, out, t.
  rewrite <- !app_assoc, Nat.add_0_r.
  repeat split; auto; lia.
Qed.

(** Whatever its outcome, a Message starts the record with its opening
    items and a Vector Attribute with its own. *)
Lemma message_body_opens fuel tvb mmrp_tree msg_offset offset T L s :
  tvb_fits tvb -> 0 <= msg_offset ->
  tvb_byte tvb (1 + msg_offset) = Some T ->
  tvb_byte tvb (2 + msg_offset) = Some L ->
  exists rest t,
    fst (message_body fuel tvb mmrp_tree (msg_offset, offset) s)
    = extend s (message_items mmrp_tree T L msg_offset ++ rest) t.
Proof.
  intros Hfits Hm ET EL.
  rewrite (message_body_eq _ _ _ _ _ T L) by assumption.
  match goal with
  | |- context [bind ?c ?k ?s0] =>
      assert (extends (bind c k)) as Hext
          by (extends_tac; apply extends_while; intros; auto with extends_db);
      destruct (Hext s0) as (rest & t & E)
  end.
  exists rest, t. rewrite E, extend_extend. reflexivity.
Qed.

Lemma vector_attribute_body_opens fuel tvb tree T L msg_offset vect_offset
  offset h s :
  tvb_fits tvb ->
  tvb_captured_length tvb < Z.of_nat fuel ->
  0 <= L <= 255 -> 0 <= msg_offset -> 0 <= vect_offset ->
  tvb_ntohs tvb (3 + msg_offset + vect_offset) = Some h ->
  exists rest t,
    fst (vector_attribute_body fuel tvb tree T L msg_offset
           (vect_offset, offset) s)
    = extend s
        (vector_header_items tree (3 + msg_offset + vect_offset)
           (vect_attr_len L (number_of_values h)) h ++ rest) t.
Proof.
  intros Hfits Hfuel HL Hm Hv Eh.
  destruct (tvb_ntohs_range _ _ _ Eh) as (_ & _ & Hh).
  pose proof (number_of_values_range h Hh) as Hn.
  rewrite vector_attribute_body_eq with (h := h) by assumption.
  rewrite vect_attr_len_eq by lia.
  destruct (first_value_size T) as [fs|].
  - destruct (_ || _); cbn [fst]; eexists _, _; reflexivity.
  - cbn [fst]. exists [], 0%nat. rewrite app_nil_r. reflexivity.
Qed.

(** ** Runs on the test vectors *)

Example run_frame_mac_service :
  run (dissect_mmrp 26 frame_mac_service (Some root_tree))
  = (mkState
       (frame_items root_tree
        ++ message_items (subtree ett_mmrp) 2 6 0
        ++ vector_header_items (subtree ett_attr_list) 3 10 0x2004
        ++ first_value_items 2 5 6
        ++ map (E_uint (subtree ett_vect_attr) hf_mmrp_three_packed_event 11 1)
             [1; 1; 1]
        ++ [ E_uint (subtree ett_vect_attr) hf_mmrp_three_packed_event 12 1 4;
             E_item (subtree ett_attr_list) hf_mmrp_end_mark 13 2 ENC_BIG_ENDIAN ]
        ++ message_items (subtree ett_mmrp) 1 1 14
        ++ vector_header_items (subtree ett_attr_list) 17 4 0x0002
        ++ first_value_items 1 19 1
        ++ map (E_uint (subtree ett_vect_attr) hf_mmrp_three_packed_event 20 1)
             [5; 5]
        ++ [ E_item (subtree ett_attr_list) hf_mmrp_end_mark 21 2 ENC_BIG_ENDIAN;
             E_item (subtree ett_mmrp) hf_mmrp_end_mark 23 2 ENC_BIG_ENDIAN ])
       7,
     OK 25).
Proof. reflexivity. Qed.

Example run_frame_type3 :
  run (dissect_mmrp 16 frame_type3 (Some root_tree))
  = (mkState
       (frame_items root_tree
        ++ message_items (subtree ett_mmrp) 3 4 0
        ++ vector_header_items (subtree ett_attr_list) 3 8 0x0005
        ++ [ E_item (subtree ett_attr_list) hf_mmrp_end_mark 0 2 ENC_BIG_ENDIAN;
             E_item (subtree ett_mmrp) hf_mmrp_end_mark 2 2 ENC_BIG_ENDIAN ])
       2,
     OK 15).
Proof. reflexivity. Qed.

Example run_frame_cut_short :
  run (dissect_mmrp 13 frame_cut_short (Some root_tree))
  = (mkState
       (frame_items root_tree
        ++ message_items (subtree ett_mmrp) 2 6 0
        ++ vector_header_items (subtree ett_attr_list) 3 10 0x2004
        ++ first_value_items 2 5 6
        ++ map (E_uint (subtree ett_vect_attr) hf_mmrp_three_packed_event 11 1)
             [1; 1; 1])
       4,
     Truncated).
Proof. reflexivity. Qed.

Example run_frame_leave_all7 :
  run (dissect_mmrp 18 frame_leave_all7 (Some root_tree))
  = (mkState
       (frame_items root_tree
        ++ message_items (subtree ett_mmrp) 2 6 0
        ++ vector_header_items (subtree ett_attr_list) 3 8 0xe000
        ++ first_value_items 2 5 6
        ++ vector_header_items (subtree ett_attr_list) 11 20 0x0024
        ++ first_value_items 2 13 6)
       4,
     Truncated).
Proof. reflexivity. Qed.

(** * The claims *)

(** C1. For every count [n] and start offset whose run of [ceil3 n]
    bytes lies within the buffer, the packed-event expander enters its
    loop [ceil3 n] times, one byte each, adds exactly [n] Attribute
    Event items, in order, and returns the offset that follows the last
    byte consumed. The [i]-th item carries digit [i mod 3] of the byte at
    [offset + i / 3], the digits of a byte [v] in [0,215] being
    [v / 36], [(v mod 36) / 6] and [v mod 6]; the digits of the last
    byte beyond the [n]-th event are computed and not added. *)
Theorem C1_packed_event_expander fuel tree tvb offset n s :
  0 <= n < 2 ^ 16 ->
  tvb_fits tvb ->
  0 <= offset ->
  offset + ceil3 n <= tvb_captured_length tvb ->
  (Z.to_nat (ceil3 n) <= fuel)%nat ->
  dissect_mmrp_three_packed_event fuel tree tvb offset n s =
    (extend s (packed_events tree tvb offset n) (Z.to_nat (ceil3 n)),
     OK (offset + ceil3 n))
  /\ List.length (packed_events tree tvb offset n) = Z.to_nat n
  /\ (forall i, 0 <= i < n ->
      exists v,
        tvb_byte tvb (offset + i / 3) = Some v /\
        nth_error (packed_events tree tvb offset n) (Z.to_nat i) =
        Some (E_uint tree hf_mmrp_three_packed_event (offset + i / 3) 1
                (nth (Z.to_nat (i mod 3)) (expand v) 0)))
  /\ (forall v, 0 <= v <= 215 ->
      three_packed_event v = (v / 36, (v mod 36) / 6, v mod 6)
      /\ Forall (fun d => 0 <= d <= 5) (expand v)).
Proof.
  intros Hn Hfits Ho Hlen Hfuel. repeat split.
  - apply dissect_mmrp_three_packed_event_OK; auto.
  - apply packed_events_length; lia.
  - intros i Hi. apply packed_events_nth; lia.
  - apply three_packed_event_digits. lia.
  - unfold expand. repeat constructor; Z.div_mod_to_equations; lia.
Qed.

(** The four events of the MAC Message of the well-formed frame, in the
    two bytes at 11 and 12. *)
Lemma C1_packed_event_expander_witness :
  dissect_mmrp_three_packed_event 2 (subtree ett_vect_attr) frame_mac_service
    11 4 init_state
  = (extend init_state
       (packed_events (subtree ett_vect_attr) frame_mac_service 11 4) 2,
     OK 13).
Proof.
  refine (proj1
    (C1_packed_event_expander 2 (subtree ett_vect_attr) frame_mac_service
       11 4 init_state _ _ _ _ _)).
  - lia.
  - unfold tvb_fits, G_MAXINT. vm_compute. discriminate.
  - lia.
  - vm_compute. discriminate.
  - vm_compute. lia.
Defined.

(** C2. For every NumberOfValues [n] in [0,8191] and every
    AttributeLength [l] of a byte, the length computed for a Vector
    Attribute is [2 + l + ceil3 n]: the C expression [(n + 2) / 3] is the
    ceiling of [n / 3] and no conversion of the computation wraps. With
    [n = 0] the length is [2 + l] and the expander reads no byte; with
    [n = 8191] the packed events take 2731 bytes. *)
Theorem C2_vector_attribute_length n l :
  0 <= n <= 8191 ->
  0 <= l <= 255 ->
  vect_attr_len l n = 2 + l + ceil3 n
  /\ cdiv (gint_of (n + 2)) 3 = ceil3 n
  /\ vect_attr_len l n = 2 + l + (n + 2) / 3
  /\ 0 <= 2 + l + (n + 2) / 3 <= G_MAXINT
  /\ vect_attr_len l 0 = 2 + l
  /\ (forall fuel tree tvb offset s,
      dissect_mmrp_three_packed_event fuel tree tvb offset 0 s = (s, OK offset))
  /\ ceil3 8191 = 2731
  /\ vect_attr_len l 8191 = 2 + l + 2731
  /\ (forall fuel tree tvb offset s,
      tvb_fits tvb -> 0 <= offset ->
      offset + 2731 <= tvb_captured_length tvb ->
      (2731 <= fuel)%nat ->
      dissect_mmrp_three_packed_event fuel tree tvb offset 8191 s =
      (extend s (packed_events tree tvb offset 8191) 2731, OK (offset + 2731))).
Proof.
  intros Hn Hl.
  assert (forall m, 0 <= m <= 8191 -> vect_attr_len l m = 2 + l + (m + 2) / 3)
    as Hlen.
  { intros m Hm. unfold vect_attr_len.
    rewrite (gint_of_small (m + 2)) by lia.
    rewrite cdiv_nonneg by lia.
    assert (0 <= (m + 2) / 3 <= 2731) by (Z.div_mod_to_equations; lia).
    unwrap. reflexivity. }
  assert (0 <= (n + 2) / 3 <= 2731) by (Z.div_mod_to_equations; lia).
  repeat split.
  - rewrite Hlen, ceil3_eq by lia. reflexivity.
  - rewrite gint_of_small, cdiv_nonneg, ceil3_eq by lia. reflexivity.
  - apply Hlen; lia.
  - lia.
  - unfold G_MAXINT. lia.
  - rewrite Hlen by lia. change ((0 + 2) / 3) with 0. lia.
  - intros fuel tree tvb offset s. destruct fuel; reflexivity.
  - rewrite Hlen by lia. reflexivity.
  - intros fuel tree tvb offset s Hfits Ho Hb Hfuel.
    rewrite dissect_mmrp_three_packed_event_OK;
      try assumption; change (ceil3 8191) with 2731; try lia.
    reflexivity.
Qed.

(** Four values and a MAC address: ten bytes. *)
Lemma C2_vector_attribute_length_witness : vect_attr_len 6 4 = 2 + 6 + ceil3 4.
Proof.
  refine (proj1 (C2_vector_attribute_length 4 6 _ _)); lia.
Defined.

(** The look-ahead of the Message loop, at any state of the loop: the
    End Mark at [1 + msg_offset] is two zero bytes; a read beyond the
    buffer there ends the loop in [Truncated]; the loop returns with its
    variables and the record as they are if and only if the End Mark is
    there; and on any other value it enters its body, which adds the
    Message item at that position first, and goes on from where the body
    ends. *)
Lemma message_loop_framing fuel gas tvb mmrp_tree msg_offset offset s :
  tvb_fits tvb ->
  tvb_captured_length tvb < Z.of_nat gas ->
  0 <= msg_offset <= tvb_captured_length tvb ->
  let cond := message_cond tvb in
  let body := message_body gas tvb mmrp_tree in
  let loop := while (S fuel) cond body (msg_offset, offset) s in
  (tvb_ntohs tvb (1 + msg_offset) = Some MMRP_END_MARK <->
   tvb_byte tvb (1 + msg_offset) = Some 0
   /\ tvb_byte tvb (1 + msg_offset + 1) = Some 0)
  /\ (tvb_ntohs tvb (1 + msg_offset) = None -> loop = (s, Truncated))
  /\ (loop = (s, OK (msg_offset, offset)) <->
      tvb_ntohs tvb (1 + msg_offset) = Some MMRP_END_MARK)
  /\ (forall h,
      tvb_ntohs tvb (1 + msg_offset) = Some h -> h <> MMRP_END_MARK ->
      loop = (v' <- body (msg_offset, offset) ;; while fuel cond body v')
               (extend s [] 1)
      /\ exists rest t,
          fst loop
          = extend s
              (E_item mmrp_tree hf_mmrp_message (1 + msg_offset) (-1)
                 ENC_NA :: rest) (S t)).
Proof.
  intros Hfits Hgas.
  assert (forall s out t, extend s out (S t) <> s) as Hneq.
  { intros s0 out t E. apply (f_equal st_ticks) in E. cbn in E. lia. }
  intros Hm cond body loop.
  assert (forall h, tvb_ntohs tvb (1 + msg_offset) = Some h ->
                    h <> MMRP_END_MARK ->
          loop = (v' <- body (msg_offset, offset) ;; while fuel cond body v')
                   (extend s [] 1)
          /\ exists rest t,
              fst loop
              = extend s
                  (E_item mmrp_tree hf_mmrp_message (1 + msg_offset) (-1)
                     ENC_NA :: rest) (S t)) as Hcommit.
  { intros h Eh Hnz.
    assert (loop = (v' <- body (msg_offset, offset) ;; while fuel cond body v')
                     (extend s [] 1)) as Eloop.
    { unfold loop. rewrite while_unfold. unfold bind at 1, cond at 1.
      rewrite message_cond_eq by (cbn [fst]; assumption). cbn [fst].
      rewrite Eh. destruct (Z.eqb_spec h MMRP_END_MARK); [contradiction|].
      cbn [negb]. rewrite (bind_OK _ _ _ _ _ (tick_extend _)). reflexivity. }
    split; [exact Eloop|]. rewrite Eloop.
    destruct (tvb_ntohs_range _ _ _ Eh) as (_ & Hlen & _).
    destruct (tvb_byte_some tvb (1 + msg_offset)) as (T & ET & _); [lia|].
    destruct (tvb_byte_some tvb (2 + msg_offset)) as (L & EL & _); [lia|].
    destruct (message_body_opens gas tvb mmrp_tree msg_offset offset T L
                (extend s [] 1) Hfits ltac:(lia) ET EL) as (r1 & t1 & E1).
    fold body in E1. unfold bind at 1.
    destruct (body (msg_offset, offset) (extend s [] 1)) as [s1 [v'| |]];
      cbn [fst] in E1; subst s1; rewrite extend_extend; cbn [fst];
      try (eexists _, _; reflexivity).
    destruct (extends_while cond body
                ltac:(intros; apply extends_message_cond)
                ltac:(intros; apply extends_message_body) fuel v'
                (extend s ([] ++ message_items mmrp_tree T L msg_offset ++ r1)
                   (1 + t1))) as (r2 & t2 & E2).
    rewrite E2, extend_extend. eexists _, _. reflexivity. }
  split; [apply tvb_ntohs_end_mark|].
  assert (tvb_ntohs tvb (1 + msg_offset) = Some MMRP_END_MARK ->
          loop = (s, OK (msg_offset, offset))) as Hstop.
  { intros Eh. unfold loop. rewrite while_unfold. unfold bind at 1, cond at 1.
    rewrite message_cond_eq by (cbn [fst]; assumption). cbn [fst].
    rewrite Eh. reflexivity. }
  assert (tvb_ntohs tvb (1 + msg_offset) = None -> loop = (s, Truncated))
    as Hfail.
  { intros Eh. unfold loop. rewrite while_unfold. unfold bind at 1, cond at 1.
    rewrite message_cond_eq by (cbn [fst]; assumption). cbn [fst].
    rewrite Eh. reflexivity. }
  split; [exact Hfail | split; [|exact Hcommit]].
  split; [|exact Hstop].
  intros Eloop.
  destruct (tvb_ntohs tvb (1 + msg_offset)) as [h|] eqn:Eh.
  + destruct (Z.eq_dec h MMRP_END_MARK) as [->|Hnz]; [reflexivity|].
    destruct (Hcommit h eq_refl Hnz) as (_ & rest & t & E).
    rewrite Eloop in E. cbn [fst] in E. symmetry in E.
    now apply Hneq in E.
  + rewrite (Hfail eq_refl) in Eloop. discriminate.
Qed.

(** The look-ahead of the Vector Attribute loop, likewise, at
    [3 + msg_offset + vect_offset]. *)
Lemma vector_attribute_loop_framing fuel gas tvb tree T L msg_offset
  vect_offset offset s :
  tvb_fits tvb ->
  tvb_captured_length tvb < Z.of_nat gas ->
  0 <= L <= 255 -> 0 <= msg_offset -> 0 <= vect_offset ->
  3 + msg_offset + vect_offset <= tvb_captured_length tvb + 2986 ->
  let cond := vector_attribute_cond tvb msg_offset in
  let body := vector_attribute_body gas tvb tree T L msg_offset in
  let loop := while (S fuel) cond body (vect_offset, offset) s in
  (tvb_ntohs tvb (3 + msg_offset + vect_offset) = Some MMRP_END_MARK <->
   tvb_byte tvb (3 + msg_offset + vect_offset) = Some 0
   /\ tvb_byte tvb (3 + msg_offset + vect_offset + 1) = Some 0)
  /\ (tvb_ntohs tvb (3 + msg_offset + vect_offset) = None ->
      loop = (s, Truncated))
  /\ (loop = (s, OK (vect_offset, offset)) <->
      tvb_ntohs tvb (3 + msg_offset + vect_offset) = Some MMRP_END_MARK)
  /\ (forall h,
      tvb_ntohs tvb (3 + msg_offset + vect_offset) = Some h ->
      h <> MMRP_END_MARK ->
      loop = (v' <- body (vect_offset, offset) ;; while fuel cond body v')
               (extend s [] 1)
      /\ exists rest t,
          fst loop
          = extend s
              (E_item tree hf_mmrp_vector_attribute
                 (3 + msg_offset + vect_offset)
                 (vect_attr_len L (number_of_values h)) ENC_NA :: rest)
              (S t)).
Proof.
  intros Hfits Hgas.
  assert (forall s out t, extend s out (S t) <> s) as Hneq.
  { intros s0 out t E. apply (f_equal st_ticks) in E. cbn in E. lia. }
  intros HL Hm Hv Hp cond body loop.
  assert (forall h, tvb_ntohs tvb (3 + msg_offset + vect_offset) = Some h ->
                    h <> MMRP_END_MARK ->
          loop = (v' <- body (vect_offset, offset) ;; while fuel cond body v')
                   (extend s [] 1)
          /\ exists rest t,
              fst loop
              = extend s
                  (E_item tree hf_mmrp_vector_attribute
                     (3 + msg_offset + vect_offset)
                     (vect_attr_len L (number_of_values h)) ENC_NA :: rest)
                  (S t)) as Hcommit.
  { intros h Eh Hnz.
    assert (loop = (v' <- body (vect_offset, offset) ;; while fuel cond body v')
                     (extend s [] 1)) as Eloop.
    { unfold loop. rewrite while_unfold. unfold bind at 1, cond at 1.
      rewrite vector_attribute_cond_eq by (cbn [fst]; assumption).
      cbn [fst]. rewrite Eh.
      destruct (Z.eqb_spec h MMRP_END_MARK); [contradiction|].
      cbn [negb]. rewrite (bind_OK _ _ _ _ _ (tick_extend _)). reflexivity. }
    split; [exact Eloop|]. rewrite Eloop.
    destruct (vector_attribute_body_opens gas tvb tree T L msg_offset
                vect_offset offset h (extend s [] 1)
                Hfits Hgas HL Hm Hv Eh) as (r1 & t1 & E1).
    fold body in E1. unfold bind at 1.
    destruct (body (vect_offset, offset) (extend s [] 1)) as [s1 [v'| |]];
      cbn [fst] in E1; subst s1; rewrite extend_extend; cbn [fst];
      try (eexists _, _; reflexivity).
    destruct (extends_while cond body
                ltac:(intros; apply extends_vector_attribute_cond)
                ltac:(intros; apply extends_vector_attribute_body) fuel v'
                (extend s
                   ([] ++ vector_header_items tree
                            (3 + msg_offset + vect_offset)
                            (vect_attr_len L (number_of_values h)) h ++ r1)
                   (1 + t1))) as (r2 & t2 & E2).
    rewrite E2, extend_extend. eexists _, _. reflexivity. }
  split; [apply tvb_ntohs_end_mark|].
  assert (tvb_ntohs tvb (3 + msg_offset + vect_offset) = Some MMRP_END_MARK ->
          loop = (s, OK (vect_offset, offset))) as Hstop.
  { intros Eh. unfold loop. rewrite while_unfold. unfold bind at 1, cond at 1.
    rewrite vector_attribute_cond_eq by (cbn [fst]; assumption).
    cbn [fst]. rewrite Eh. reflexivity. }
  assert (tvb_ntohs tvb (3 + msg_offset + vect_offset) = None ->
          loop = (s, Truncated)) as Hfail.
  { intros Eh. unfold loop. rewrite while_unfold. unfold bind at 1, cond at 1.
    rewrite vector_attribute_cond_eq by (cbn [fst]; assumption).
    cbn [fst]. rewrite Eh. reflexivity. }
  split; [exact Hfail | split; [|exact Hcommit]].
  split; [|exact Hstop].
  intros Eloop.
  destruct (tvb_ntohs tvb (3 + msg_offset + vect_offset)) as [h|] eqn:Eh.
  + destruct (Z.eq_dec h MMRP_END_MARK) as [->|Hnz]; [reflexivity|].
    destruct (Hcommit h eq_refl Hnz) as (_ & rest & t & E).
    rewrite Eloop in E. cbn [fst] in E. symmetry in E.
    now apply Hneq in E.
  + rewrite (Hfail eq_refl) in Eloop. discriminate.
Qed.

(** C3. Both loops of [dissect_mmrp] are framed by a look-ahead of one
    sentinel. The dissection into a tree is the Message loop, entered at
    [msg_offset] 0 after the protocol item and the Protocol Version, and
    followed by the End Mark item of the frame; a Message is its opening
    items, the Vector Attribute loop entered at [vect_offset] 0, and the
    End Mark item of the list. Before a Message is parsed at
    [1 + msg_offset], and before a Vector Attribute is parsed at
    [3 + msg_offset + vect_offset], the two bytes there are read as a
    big-endian value. The loop ends there, with nothing added and its
    variables as they are, if and only if the value is the End Mark, both
    bytes being zero; a read beyond the buffer ends the dissection and is
    not recovered from; and on any other value the loop enters its body,
    which starts a record at that position (the Message item, or the
    Vector Attribute item when the bytes of the Vector Attribute are in
    the buffer), and goes on from where the body ends. So the dissection
    ends in [Truncated] when the two bytes at offset 1 are not in the
    buffer, adds no Message when they are the
    End Mark (in a buffer of four bytes at least, which holds its End
    Mark item), and adds the Message item at offset 1 right after the
    Protocol Version on any other value. *)
Theorem C3_lookahead_framing fuel gas tvb :
  tvb_fits tvb ->
  tvb_captured_length tvb < Z.of_nat gas ->
  (forall tree s,
      dissect_mmrp gas tvb (Some tree) s =
      bind
        (while gas (message_cond tvb) (message_body gas tvb (subtree ett_mmrp))
           (0, 0))
        (fun v =>
           proto_tree_add_item (subtree ett_mmrp) hf_mmrp_end_mark tvb
             (gint_of (guint_of (snd v + 2))) 2 ENC_BIG_ENDIAN ;;
           ret (tvb_captured_length tvb))
        (extend s (frame_items tree) 0))
  /\ (forall mmrp_tree msg_offset offset T L s,
      0 <= msg_offset ->
      tvb_byte tvb (1 + msg_offset) = Some T ->
      tvb_byte tvb (2 + msg_offset) = Some L ->
      message_body gas tvb mmrp_tree (msg_offset, offset) s =
      bind
        (while gas (vector_attribute_cond tvb msg_offset)
           (vector_attribute_body gas tvb (subtree ett_attr_list) T L
              msg_offset)
           (0, offset))
        (fun v =>
           proto_tree_add_item (subtree ett_attr_list) hf_mmrp_end_mark tvb
             (gint_of (snd v)) 2 ENC_BIG_ENDIAN ;;
           ret (gint_of (msg_offset + gint_of (gint_of (fst v + 2) + 2)),
                snd v))
        (extend s (message_items mmrp_tree T L msg_offset) 0))
  /\ (forall tree s,
      (tvb_ntohs tvb 1 = None ->
       snd (dissect_mmrp gas tvb (Some tree) s) = Truncated)
      /\ (tvb_ntohs tvb 1 = Some MMRP_END_MARK ->
          4 <= tvb_captured_length tvb ->
          dissect_mmrp gas tvb (Some tree) s
          = (extend s
               (frame_items tree
                ++ [E_item (subtree ett_mmrp) hf_mmrp_end_mark 2 2
                      ENC_BIG_ENDIAN]) 0,
             OK (tvb_captured_length tvb)))
      /\ (forall h,
          tvb_ntohs tvb 1 = Some h -> h <> MMRP_END_MARK ->
          exists rest t,
            fst (dissect_mmrp gas tvb (Some tree) s)
            = extend s
                (frame_items tree
                 ++ E_item (subtree ett_mmrp) hf_mmrp_message 1 (-1) ENC_NA
                 :: rest) (S t)))
  /\ (forall mmrp_tree msg_offset offset s,
      0 <= msg_offset <= tvb_captured_length tvb ->
      let cond := message_cond tvb in
      let body := message_body gas tvb mmrp_tree in
      let loop := while (S fuel) cond body (msg_offset, offset) s in
      (tvb_ntohs tvb (1 + msg_offset) = Some MMRP_END_MARK <->
       tvb_byte tvb (1 + msg_offset) = Some 0
       /\ tvb_byte tvb (1 + msg_offset + 1) = Some 0)
      /\ (tvb_ntohs tvb (1 + msg_offset) = None -> loop = (s, Truncated))
      /\ (loop = (s, OK (msg_offset, offset)) <->
          tvb_ntohs tvb (1 + msg_offset) = Some MMRP_END_MARK)
      /\ (forall h,
          tvb_ntohs tvb (1 + msg_offset) = Some h -> h <> MMRP_END_MARK ->
          loop = (v' <- body (msg_offset, offset) ;; while fuel cond body v')
                   (extend s [] 1)
          /\ exists rest t,
              fst loop
              = extend s
                  (E_item mmrp_tree hf_mmrp_message (1 + msg_offset) (-1)
                     ENC_NA :: rest) (S t)))
  /\ (forall tree T L msg_offset vect_offset offset s,
      0 <= L <= 255 -> 0 <= msg_offset -> 0 <= vect_offset ->
      3 + msg_offset + vect_offset <= tvb_captured_length tvb + 2986 ->
      let cond := vector_attribute_cond tvb msg_offset in
      let body := vector_attribute_body gas tvb tree T L msg_offset in
      let loop := while (S fuel) cond body (vect_offset, offset) s in
      (tvb_ntohs tvb (3 + msg_offset + vect_offset) = Some MMRP_END_MARK <->
       tvb_byte tvb (3 + msg_offset + vect_offset) = Some 0
       /\ tvb_byte tvb (3 + msg_offset + vect_offset + 1) = Some 0)
      /\ (tvb_ntohs tvb (3 + msg_offset + vect_offset) = None ->
          loop = (s, Truncated))
      /\ (loop = (s, OK (vect_offset, offset)) <->
          tvb_ntohs tvb (3 + msg_offset + vect_offset) = Some MMRP_END_MARK)
      /\ (forall h,
          tvb_ntohs tvb (3 + msg_offset + vect_offset) = Some h ->
          h <> MMRP_END_MARK ->
          loop = (v' <- body (vect_offset, offset) ;; while fuel cond body v')
                   (extend s [] 1)
          /\ (3 + msg_offset + vect_offset
              + vect_attr_len L (number_of_values h)
              <= tvb_captured_length tvb ->
              exists rest t,
                fst loop
                = extend s
                    (E_item tree hf_mmrp_vector_attribute
                       (3 + msg_offset + vect_offset)
                       (vect_attr_len L (number_of_values h)) ENC_NA :: rest)
                    (S t)))).
Proof.
  intros Hfits Hgas.
  split; [intros tree s; apply dissect_mmrp_Some|].
  split.
  { intros mmrp_tree msg_offset offset T L s Hm ET EL.
    apply message_body_eq; assumption. }
  split.
  { intros tree s. rewrite dissect_mmrp_Some.
    destruct gas as [|g]; [pose proof (Zle_0_nat (List.length tvb));
                           unfold tvb_captured_length in Hgas; lia|].
    destruct (message_loop_framing g (S g) tvb (subtree ett_mmrp) 0 0
                (extend s (frame_items tree) 0) Hfits Hgas)
      as (_ & Hfail & Hstop & Hcommit).
    { unfold tvb_captured_length. lia. }
    change (1 + 0) with 1 in *.
    split; [|split].
    - intros Eh. rewrite (bind_Truncated _ _ _ _ (Hfail Eh)). reflexivity.
    - intros Eh _. rewrite (bind_OK _ _ _ _ _ (proj2 Hstop Eh)).
      cbn [snd]. change (gint_of (guint_of (0 + 2))) with 2.
      mstep. reflexivity.
    - intros h Eh Hnz. destruct (Hcommit h Eh Hnz) as (_ & rest & t & E).
      match goal with
      | |- context [bind ?c ?k ?s0] =>
          assert (exists r t1, fst (bind c k s0) = extend (fst (c s0)) r t1)
            as (r & t1 & E1)
      end.
      { unfold bind at 1.
        destruct (while _ _ _ _ _) as [s1 [v| |]]; cbn [fst];
          try (exists [], 0%nat; rewrite extend_nil; reflexivity).
        mstep. cbn [fst]. eexists _, _. reflexivity. }
      rewrite E1, E, !extend_extend. cbn [app].
      exists (rest ++ r), (t + t1)%nat. reflexivity. }
  split.
  - intros mmrp_tree msg_offset offset s Hm.
    apply message_loop_framing; assumption.
  - intros tree T L msg_offset vect_offset offset s HL Hm Hv Hp.
    destruct (vector_attribute_loop_framing fuel gas tvb tree T L msg_offset
                vect_offset offset s Hfits Hgas HL Hm Hv Hp)
      as (Hmark & Hfail & Hstop & Hcommit).
    split; [exact Hmark|]. split; [exact Hfail|]. split; [exact Hstop|].
    intros h Eh Hnz. destruct (Hcommit h Eh Hnz) as [Eloop Hrest].
    split; [exact Eloop | intros _; exact Hrest].
Qed.

(** In the well-formed frame the dissection is the Message loop; the
    first look-ahead, at offset 1, commits to the MAC Message there; and
    the frame End Mark, at 1 + 22, ends the loop. *)
Lemma C3_lookahead_framing_witness :
  dissect_mmrp 26 frame_mac_service (Some root_tree) init_state =
  bind
    (while 26 (message_cond frame_mac_service)
       (message_body 26 frame_mac_service (subtree ett_mmrp)) (0, 0))
    (fun v =>
       proto_tree_add_item (subtree ett_mmrp) hf_mmrp_end_mark
         frame_mac_service (gint_of (guint_of (snd v + 2))) 2 ENC_BIG_ENDIAN ;;
       ret (tvb_captured_length frame_mac_service))
    (extend init_state (frame_items root_tree) 0)
  /\ (exists rest t,
        fst (dissect_mmrp 26 frame_mac_service (Some root_tree) init_state)
        = extend init_state
            (frame_items root_tree
             ++ E_item (subtree ett_mmrp) hf_mmrp_message 1 (-1) ENC_NA
             :: rest) (S t))
  /\ while 1 (message_cond frame_mac_service)
       (message_body 26 frame_mac_service (subtree ett_mmrp)) (22, 21)
       init_state
     = (init_state, OK (22, 21)).
Proof.
  destruct (C3_lookahead_framing 0 26 frame_mac_service)
    as (Hdis & _ & Hfirst & Hmsg & _).
  - unfold tvb_fits, G_MAXINT. vm_compute. discriminate.
  - vm_compute. reflexivity.
  - split; [apply Hdis|]. split.
    + destruct (Hfirst root_tree init_state) as (_ & _ & Hcommit).
      apply (Hcommit 0x0206); [reflexivity | discriminate].
    + destruct (Hmsg (subtree ett_mmrp) 22 21 init_state) as (_ & _ & Hstop & _).
      * vm_compute. split; discriminate.
      * apply Hstop. reflexivity.
Defined.

(** C4. The two bytes of a Vector Header are read as a big-endian
    16-bit value [h]. The Leave All Event added is the bits 15 to 13 of
    [h], the header masked with 0xE000 and shifted down by 13; the Number
    of Values added, and the count the dissector goes on with, is the bits
    12 to 0, the header masked with 0x1FFF, from 0 to 8191. The header is
    dissected without an error whatever the two fields are. *)
Theorem C4_vector_header tree tvb msg_offset h s :
  tvb_fits tvb ->
  tvb_ntohs tvb (3 + msg_offset) = Some h ->
  (exists hi lo,
      tvb_byte tvb (3 + msg_offset) = Some hi
      /\ tvb_byte tvb (3 + msg_offset + 1) = Some lo
      /\ h = 256 * hi + lo)
  /\ dissect_mmrp_common2 tree tvb msg_offset s
     = (extend s
          [ E_uint tree hf_mmrp_vector_header (3 + msg_offset) 2 h;
            E_uint (subtree ett_vector_header) hf_mmrp_leave_all_event
              (3 + msg_offset) 2 (h / 2 ^ 13);
            E_uint (subtree ett_vector_header) hf_mmrp_number_of_values
              (3 + msg_offset) 2 (h mod 2 ^ 13) ] 0,
        OK tt)
  /\ h / 2 ^ 13 = Z.shiftr (Z.land h MMRP_LEAVE_ALL_EVENT_MASK) 13
  /\ 0 <= h / 2 ^ 13 <= 7
  /\ (forall i, 0 <= i ->
      Z.testbit (h / 2 ^ 13) i = (i <? 3) && Z.testbit h (i + 13))
  /\ number_of_values h = Z.land h MMRP_NUMBER_OF_VALUES_MASK
  /\ number_of_values h = h mod 2 ^ 13
  /\ 0 <= number_of_values h <= 8191
  /\ (forall i, 0 <= i ->
      Z.testbit (number_of_values h) i = (i <? 13) && Z.testbit h i).
Proof.
  intros Hfits Eh.
  destruct (tvb_ntohs_range _ _ _ Eh) as (Ho & Hlen & Hh).
  pose proof (number_of_values_mod h Hh) as Emod.
  pose proof (number_of_values_range h Hh) as Hn.
  assert (Z.land h MMRP_NUMBER_OF_VALUES_MASK = h mod 2 ^ 13) as Eland.
  { unfold MMRP_NUMBER_OF_VALUES_MASK. change 0x1fff with (Z.ones 13).
    apply Z.land_ones. lia. }
  split; [|split; [|split; [|split; [|split; [|split; [|split; [|split]]]]]]].
  - destruct (tvb_ntohs_some tvb (3 + msg_offset) Ho Hlen)
      as (hi & lo & Ehi & Elo & _ & _ & E).
    exists hi, lo. repeat split; try assumption. congruence.
  - rewrite (dissect_mmrp_common2_OK _ _ _ h) by assumption.
    rewrite leave_all_event_bits, Eland by assumption. reflexivity.
  - symmetry. apply leave_all_event_bits. assumption.
  - Z.div_mod_to_equations. lia.
  - intros i Hi. rewrite <- Z.shiftr_div_pow2 by lia.
    rewrite Z.shiftr_spec by lia.
    destruct (Z.ltb_spec i 3) as [Lt|Ge]; [reflexivity|].
    destruct (Z.eq_dec h 0) as [->|Nz]; [apply Z.bits_0|].
    apply Z.bits_above_log2; [lia|].
    assert (Z.log2 h < 16) by (apply Z.log2_lt_pow2; lia). lia.
  - rewrite Emod, Eland. reflexivity.
  - exact Emod.
  - exact Hn.
  - intros i Hi. rewrite Emod.
    destruct (Z.ltb_spec i 13) as [Lt|Ge].
    + apply Z.mod_pow2_bits_low. lia.
    + apply Z.mod_pow2_bits_high. lia.
Qed.

(** The header 0x2004 of the well-formed frame: Leave All Event 1,
    Number of Values 4. *)
Lemma C4_vector_header_witness :
  dissect_mmrp_common2 (subtree ett_vect_attr) frame_mac_service 0 init_state
  = (extend init_state
       [ E_uint (subtree ett_vect_attr) hf_mmrp_vector_header 3 2 0x2004;
         E_uint (subtree ett_vector_header) hf_mmrp_leave_all_event 3 2 1;
         E_uint (subtree ett_vector_header) hf_mmrp_number_of_values 3 2 4 ] 0,
     OK tt).
Proof.
  refine (proj1 (proj2
    (C4_vector_header (subtree ett_vect_attr) frame_mac_service 0 0x2004
       init_state _ _))).
  - unfold tvb_fits, G_MAXINT. vm_compute. discriminate.
  - reflexivity.
Defined.

(** C5, as amended. The End Mark item of the Vector Attribute list of a
    Message is the last entry the Message adds, at the event cursor: the
    offset returned by the last packed-event expansion, which is the
    cursor the Message was entered with when it has expanded none. The
    End Mark that ends the list stands two bytes before the next
    Message, and the item is added there whenever the Message has a
    Vector Attribute and is a MAC Message of AttributeLength 6 or a
    Service Requirement Message of AttributeLength 1. *)
Theorem C5_end_mark_position fuel tvb mmrp_tree msg_offset offset T L s s' v' :
  tvb_fits tvb ->
  tvb_captured_length tvb < Z.of_nat fuel ->
  0 <= msg_offset ->
  0 <= offset <= tvb_captured_length tvb + 6 ->
  tvb_byte tvb (1 + msg_offset) = Some T ->
  tvb_byte tvb (2 + msg_offset) = Some L ->
  message_body fuel tvb mmrp_tree (msg_offset, offset) s = (s', OK v') ->
  (exists out t,
      s' = extend s
             (out ++ [E_item (subtree ett_attr_list) hf_mmrp_end_mark
                        (snd v') 2 ENC_BIG_ENDIAN]) t)
  /\ tvb_ntohs tvb (1 + fst v' - 2) = Some MMRP_END_MARK
  /\ snd v' = event_cursor T L msg_offset offset (fst v' - msg_offset - 4)
  /\ (fst v' = msg_offset + 4 -> snd v' = offset)
  /\ (first_value_size T = None -> snd v' = offset)
  /\ (msg_offset + 4 < fst v' ->
      T = MMRP_ATTRIBUTE_TYPE_MAC /\ L = 6
      \/ T = MMRP_ATTRIBUTE_TYPE_SERVICE /\ L = 1 ->
      snd v' = 1 + fst v' - 2).
Proof.
  intros Hfits Hfuel Hm Hoff ET EL Eb.
  destruct (message_body_OK_inv _ _ _ _ _ _ _ _ _ _ Hfits Hfuel Hm Hoff ET EL Eb)
    as (vect_offset & out & t & _ & Es & Ev & Hv & Eend & _ & _ & _ & Hcur & _).
  replace (1 + fst v' - 2) with (3 + msg_offset + vect_offset) by lia.
  replace (fst v' - msg_offset - 4) with vect_offset by lia.
  split; [|split; [exact Eend | split; [exact Hcur|]]].
  { exists (message_items mmrp_tree T L msg_offset ++ out), t.
    rewrite <- app_assoc. exact Es. }
  rewrite Hcur. unfold event_cursor, first_value_size.
  change MMRP_VECTOR_HEADER_OFFSET with 3.
  change (MMRP_MAC_THREE_PACKED_OFFSET - MMRP_FIRST_VALUE_GROUP_OFFSET) with 6.
  change (MMRP_SERVICE_THREE_PACKED_OFFSET - MMRP_FIRST_VALUE_GROUP_OFFSET) with 1.
  unfold MMRP_ATTRIBUTE_TYPE_MAC, MMRP_ATTRIBUTE_TYPE_SERVICE.
  split; [|split].
  - intros E. assert (vect_offset = 0) as -> by lia.
    destruct (T =? 2); [|destruct (T =? 1)]; reflexivity.
  - destruct (T =? 2); [discriminate|]. destruct (T =? 1); [discriminate|].
    reflexivity.
  - intros Hva [[-> ->]|[-> ->]]; cbn [Z.eqb Pos.eqb];
      destruct (Z.eqb_spec vect_offset 0); lia.
Qed.

(** The MAC Message of the well-formed frame returns with the next
    Message at 14 and the cursor at 13, where the End Mark of its list
    stands and the End Mark item is added. *)
Lemma C5_end_mark_position_witness :
  tvb_ntohs frame_mac_service (1 + 14 - 2) = Some MMRP_END_MARK
  /\ snd (14, 13) = 1 + fst (14, 13) - 2.
Proof.
  pose (r := message_body 26 frame_mac_service (subtree ett_mmrp) (0, 0)
               init_state).
  assert (r = (fst r, OK (14, 13))) as E by (vm_compute; reflexivity).
  destruct (C5_end_mark_position 26 frame_mac_service (subtree ett_mmrp)
              0 0 2 6 init_state (fst r) (14, 13))
    as (_ & Eend & _ & _ & _ & Hpos).
  - unfold tvb_fits, G_MAXINT. vm_compute. discriminate.
  - vm_compute. reflexivity.
  - lia.
  - vm_compute. split; discriminate.
  - reflexivity.
  - reflexivity.
  - exact E.
  - split; [exact Eend|].
    apply Hpos; [cbn [fst]; lia | left; split; reflexivity].
Defined.

(** C5, as stated, fails on a MAC Message whose AttributeLength is not
    6. With AttributeLength 5 the Vector Attribute at 3 is 8 bytes long
    and the End Mark of the list stands at 11, where the loop finds it;
    the expander has read its one byte at 5 + 6 = 11 and returned 12, and
    the End Mark item is added at 12. *)
Lemma C5_counterexample :
  tvb_byte frame_mac_length5 1 = Some MMRP_ATTRIBUTE_TYPE_MAC
  /\ tvb_byte frame_mac_length5 2 = Some 5
  /\ tvb_ntohs frame_mac_length5 11 = Some MMRP_END_MARK
  /\ run (message_body 19 frame_mac_length5 (subtree ett_mmrp) (0, 0))
     = (mkState
          (message_items (subtree ett_mmrp) 2 5 0
           ++ vector_header_items (subtree ett_attr_list) 3 8 0x0001
           ++ first_value_items 2 5 5
           ++ [ E_uint (subtree ett_vect_attr) hf_mmrp_three_packed_event 11 1 0;
                E_item (subtree ett_attr_list) hf_mmrp_end_mark 12 2
                  ENC_BIG_ENDIAN ])
          2,
        OK (12, 12))
  /\ ~ (forall fuel tvb mmrp_tree msg_offset offset T L s s' v',
          tvb_fits tvb ->
          tvb_captured_length tvb < Z.of_nat fuel ->
          0 <= msg_offset ->
          0 <= offset <= tvb_captured_length tvb + 6 ->
          tvb_byte tvb (1 + msg_offset) = Some T ->
          tvb_byte tvb (2 + msg_offset) = Some L ->
          message_body fuel tvb mmrp_tree (msg_offset, offset) s = (s', OK v') ->
          msg_offset + 4 < fst v' ->
          T = MMRP_ATTRIBUTE_TYPE_MAC \/ T = MMRP_ATTRIBUTE_TYPE_SERVICE ->
          snd v' = 1 + fst v' - 2).
Proof.
  repeat split. intros H.
  pose (r := message_body 19 frame_mac_length5 (subtree ett_mmrp) (0, 0)
               init_state).
  assert (r = (fst r, OK (12, 12))) as E by (vm_compute; reflexivity).
  specialize (H 19%nat frame_mac_length5 (subtree ett_mmrp) 0 0 2 5
                init_state (fst r) (12, 12)).
  cbn [fst snd] in H.
  assert (12 = 1 + 12 - 2) as Habs; [|discriminate Habs].
  apply H; try exact E; try reflexivity; try lia.
  - unfold tvb_fits, G_MAXINT. vm_compute. discriminate.
  - vm_compute. split; discriminate.
  - left. reflexivity.
Qed.

(** The Vector Attributes of a Message of a type that is neither MAC
    nor Service Requirement end within the buffer, at or after where they
    start. *)
Lemma skipped_vector_attributes_end tvb tree L p e items :
  0 <= L ->
  skipped_vector_attributes tvb tree L p e items ->
  p <= e /\ e + 2 <= tvb_captured_length tvb.
Proof.
  intros HL H. induction H as [p Eend|p h e items Eh _ _ IH].
  - destruct (tvb_ntohs_range _ _ _ Eend) as (_ & Hlen & _). lia.
  - destruct (tvb_ntohs_range _ _ _ Eh) as (_ & _ & Hh).
    pose proof (number_of_values_range h Hh).
    pose proof (ceil3_spec (number_of_values h)). lia.
Qed.

(** The loop over them: each one adds its group and its header, moves
    [vect_offset] by 2, the AttributeLength and the bytes of its packed
    events, and leaves the cursor where it was, up to the End Mark. *)
Lemma skipped_vector_attribute_loop fuel tvb tree T L msg_offset p e items :
  tvb_fits tvb ->
  tvb_captured_length tvb < Z.of_nat fuel ->
  T <> MMRP_ATTRIBUTE_TYPE_SERVICE ->
  T <> MMRP_ATTRIBUTE_TYPE_MAC ->
  0 <= L <= 255 ->
  0 <= msg_offset ->
  skipped_vector_attributes tvb tree L p e items ->
  forall gas vect_offset offset s,
    p = 3 + msg_offset + vect_offset -> 0 <= vect_offset ->
    e - p <= Z.of_nat gas ->
    exists t,
      while gas (vector_attribute_cond tvb msg_offset)
        (vector_attribute_body fuel tvb tree T L msg_offset)
        (vect_offset, offset) s
      = (extend s items t, OK (e - (3 + msg_offset), offset))
      /\ Z.of_nat t <= e - p.
Proof.
  intros Hfits Hfuel Hns Hnm HL Hm H.
  induction H as [p Eend|p h e items Eh Hnz Hrest IH];
    intros gas v offset s Ep Hv Hgas;
    rewrite while_unfold; unfold bind at 1.
  - destruct (tvb_ntohs_range _ _ _ Eend) as (_ & Hlen & _).
    rewrite vector_attribute_cond_eq by (cbn [fst]; try assumption; lia).
    cbn [fst]. rewrite <- Ep, Eend, Z.eqb_refl. cbn [negb].
    exists 0%nat. rewrite extend_nil. split; [|lia].
    unfold ret. do 3 f_equal. lia.
  - destruct (tvb_ntohs_range _ _ _ Eh) as (_ & Hlen & Hh).
    destruct (skipped_vector_attributes_end tvb tree L _ _ _ ltac:(lia) Hrest)
      as [Hle _].
    pose proof (number_of_values_range h Hh) as Hn.
    pose proof (ceil3_spec (number_of_values h)) as Hk.
    rewrite vector_attribute_cond_eq by (cbn [fst]; try assumption; lia).
    cbn [fst]. rewrite <- Ep, Eh.
    destruct (Z.eqb_spec h MMRP_END_MARK) as [|_]; [contradiction|].
    cbn [negb]. destruct gas as [|gas]; [lia|].
    rewrite (bind_OK _ _ _ _ _ (tick_extend _)).
    assert (vector_attribute_body fuel tvb tree T L msg_offset (v, offset)
              (extend s [] 1)
            = (extend (extend s [] 1)
                 (vector_header_items tree p
                    (2 + L + ceil3 (number_of_values h)) h) 0,
               OK (v + (2 + L + ceil3 (number_of_values h)), offset)))
      as Eb.
    { rewrite vector_attribute_body_eq with (h := h);
        try assumption; [|rewrite <- Ep; exact Eh].
      unfold first_value_size.
      destruct (Z.eqb_spec T MMRP_ATTRIBUTE_TYPE_MAC); [congruence|].
      destruct (Z.eqb_spec T MMRP_ATTRIBUTE_TYPE_SERVICE); [congruence|].
      rewrite <- Ep. reflexivity. }
    rewrite (bind_OK _ _ _ _ _ Eb).
    destruct (IH gas (v + (2 + L + ceil3 (number_of_values h))) offset
                (extend (extend s [] 1)
                   (vector_header_items tree p
                      (2 + L + ceil3 (number_of_values h)) h) 0)
                ltac:(lia) ltac:(lia) ltac:(lia))
      as (t & Ew & Ht).
    exists (S t). rewrite Ew, !extend_extend. cbn [app Nat.add].
    split; [reflexivity | lia].
Qed.

(** C6. A Message whose AttributeType is neither 0x01 nor 0x02 is not
    rejected: the text appended to its heading is the one for a value
    out of the table, "<Unknown>"; and each of its Vector Attributes
    that is in the buffer is dissected without an error, adds the
    group and its header and no First Value or event, leaves the cursor
    where it was, and moves [vect_offset] by 2, the AttributeLength as
    it is, for the First Value, and the bytes of the packed events. So a
    Message of such a type whose Vector Attributes, sized in this way,
    come to their End Mark in the buffer is dissected to its end: the
    Message returns, with its opening items, the items of its Vector
    Attributes and its End Mark item (at the cursor, which it leaves
    where it was, taken to be in the buffer) for a record, and the
    dissection goes on two bytes after the End Mark of its list. *)
Theorem C6_unknown_attribute_type fuel tvb T L :
  tvb_fits tvb ->
  tvb_captured_length tvb < Z.of_nat fuel ->
  0 <= T <= 255 ->
  T <> MMRP_ATTRIBUTE_TYPE_SERVICE ->
  T <> MMRP_ATTRIBUTE_TYPE_MAC ->
  0 <= L <= 255 ->
  val_to_str_const T attribute_type_vals "<Unknown>" = "<Unknown>"%string
  /\ (forall mmrp_tree msg_offset offset s,
      0 <= msg_offset ->
      tvb_byte tvb (1 + msg_offset) = Some T ->
      tvb_byte tvb (2 + msg_offset) = Some L ->
      exists rest t,
        fst (message_body fuel tvb mmrp_tree (msg_offset, offset) s)
        = extend s
            (E_item mmrp_tree hf_mmrp_message (1 + msg_offset) (-1) ENC_NA
             :: E_text (subtree ett_msg) (format_label "<Unknown>" T)
             :: rest) t)
  /\ (forall tree msg_offset vect_offset offset h s,
      0 <= msg_offset -> 0 <= vect_offset ->
      tvb_ntohs tvb (3 + msg_offset + vect_offset) = Some h ->
      3 + msg_offset + vect_offset + (2 + L + ceil3 (number_of_values h))
      <= tvb_captured_length tvb ->
      vector_attribute_body fuel tvb tree T L msg_offset
        (vect_offset, offset) s
      = (extend s
           (vector_header_items tree (3 + msg_offset + vect_offset)
              (2 + L + ceil3 (number_of_values h)) h) 0,
         OK (vect_offset + (2 + L + ceil3 (number_of_values h)), offset)))
  /\ (forall mmrp_tree msg_offset offset s e items,
      0 <= msg_offset ->
      0 <= offset -> offset + 2 <= tvb_captured_length tvb ->
      tvb_byte tvb (1 + msg_offset) = Some T ->
      tvb_byte tvb (2 + msg_offset) = Some L ->
      skipped_vector_attributes tvb (subtree ett_attr_list) L
        (3 + msg_offset) e items ->
      exists t,
        message_body fuel tvb mmrp_tree (msg_offset, offset) s
        = (extend s
             (E_item mmrp_tree hf_mmrp_message (1 + msg_offset) (-1) ENC_NA
              :: E_text (subtree ett_msg) (format_label "<Unknown>" T)
              :: E_item (subtree ett_msg) hf_mmrp_attribute_type
                   (1 + msg_offset) 1 ENC_BIG_ENDIAN
              :: E_item (subtree ett_msg) hf_mmrp_attribute_length
                   (2 + msg_offset) 1 ENC_BIG_ENDIAN
              :: E_item (subtree ett_msg) hf_mmrp_attribute_list
                   (3 + msg_offset) (-1) ENC_NA
              :: items
              ++ [E_item (subtree ett_attr_list) hf_mmrp_end_mark offset 2
                    ENC_BIG_ENDIAN]) t,
           OK (e + 1, offset))
        /\ Z.of_nat t <= e - (3 + msg_offset)
        /\ tvb_ntohs tvb e = Some MMRP_END_MARK).
Proof.
  intros Hfits Hfuel HT Hns Hnm HL.
  assert (val_to_str_const T attribute_type_vals "<Unknown>"
          = "<Unknown>"%string) as Elabel.
  { cbn [val_to_str_const attribute_type_vals].
    destruct (Z.eqb_spec MMRP_ATTRIBUTE_TYPE_SERVICE T); [congruence|].
    destruct (Z.eqb_spec MMRP_ATTRIBUTE_TYPE_MAC T); [congruence|].
    reflexivity. }
  split; [exact Elabel | split; [|split]].
  - intros mmrp_tree msg_offset offset s Hm ET EL.
    destruct (message_body_opens fuel tvb mmrp_tree msg_offset offset T L s
                Hfits Hm ET EL) as (rest & t & E).
    unfold message_items in E. rewrite Elabel in E.
    eexists _, t. rewrite E. reflexivity.
  - intros tree msg_offset vect_offset offset h s Hm Hv Eh _.
    rewrite vector_attribute_body_eq with (h := h) by assumption.
    unfold first_value_size.
    destruct (Z.eqb_spec T MMRP_ATTRIBUTE_TYPE_MAC); [congruence|].
    destruct (Z.eqb_spec T MMRP_ATTRIBUTE_TYPE_SERVICE); [congruence|].
    reflexivity.
  - intros mmrp_tree msg_offset offset s e items Hm Hoff0 Hoff2 ET EL Hlist.
    destruct (skipped_vector_attributes_end tvb (subtree ett_attr_list) L _ _ _
                ltac:(lia) Hlist)
      as [Hle Hend].
    assert (tvb_ntohs tvb e = Some MMRP_END_MARK) as Emark.
    { clear - Hlist. induction Hlist; assumption. }
    rewrite (message_body_eq _ _ _ _ _ T L) by assumption.
    destruct (skipped_vector_attribute_loop fuel tvb (subtree ett_attr_list)
                T L msg_offset (3 + msg_offset) e items Hfits Hfuel Hns Hnm
                HL Hm Hlist fuel 0 offset
                (extend s (message_items mmrp_tree T L msg_offset) 0)
                ltac:(lia) ltac:(lia) ltac:(lia))
      as (t & Ew & Ht).
    rewrite (bind_OK _ _ _ _ _ Ew). cbn [fst snd].
    unfold tvb_fits, G_MAXINT in Hfits.
    mstep. unfold ret. unwrap.
    exists t. split; [|split; [exact Ht | exact Emark]].
    unfold message_items. rewrite Elabel. cbn [app].
    rewrite Nat.add_0_r. do 3 f_equal. lia.
Qed.

(** The Message of type 3 and AttributeLength 4: its Vector Attribute
    of five events moves [vect_offset] by 2 + 4 + 2, and the Message is
    dissected to the End Mark of its list, at offset 11. *)
Lemma C6_unknown_attribute_type_witness :
  val_to_str_const 3 attribute_type_vals "<Unknown>" = "<Unknown>"%string
  /\ vector_attribute_body 16 frame_type3 (subtree ett_attr_list) 3 4 0
       (0, 0) init_state
     = (extend init_state
          (vector_header_items (subtree ett_attr_list) 3 8 5) 0,
        OK (8, 0))
  /\ exists t,
       message_body 16 frame_type3 (subtree ett_mmrp) (0, 0) init_state
       = (extend init_state
            (E_item (subtree ett_mmrp) hf_mmrp_message 1 (-1) ENC_NA
             :: E_text (subtree ett_msg) (format_label "<Unknown>" 3)
             :: E_item (subtree ett_msg) hf_mmrp_attribute_type 1 1
                  ENC_BIG_ENDIAN
             :: E_item (subtree ett_msg) hf_mmrp_attribute_length 2 1
                  ENC_BIG_ENDIAN
             :: E_item (subtree ett_msg) hf_mmrp_attribute_list 3 (-1) ENC_NA
             :: vector_header_items (subtree ett_attr_list) 3 8 5
             ++ [E_item (subtree ett_attr_list) hf_mmrp_end_mark 0 2
                   ENC_BIG_ENDIAN]) t,
          OK (12, 0)).
Proof.
  destruct (C6_unknown_attribute_type 16 frame_type3 3 4)
    as (Elabel & _ & Hbody & Hmsg).
  - unfold tvb_fits, G_MAXINT. vm_compute. discriminate.
  - vm_compute. reflexivity.
  - lia.
  - discriminate.
  - discriminate.
  - lia.
  - split; [exact Elabel|]. split.
    + apply (Hbody (subtree ett_attr_list) 0 0 0 5 init_state);
        try lia; [reflexivity | vm_compute; discriminate].
    + destruct (Hmsg (subtree ett_mmrp) 0 0 init_state 11
                  (vector_header_items (subtree ett_attr_list) 3 8 5 ++ []))
        as (t & E & _).
      * lia.
      * lia.
      * vm_compute. discriminate.
      * reflexivity.
      * reflexivity.
      * apply (sva_next frame_type3 (subtree ett_attr_list) 4 3 5 11 []);
          [reflexivity | discriminate|].
        apply (sva_end frame_type3 (subtree ett_attr_list) 4 11). reflexivity.
      * exists t. rewrite app_nil_r in E. exact E.
Defined.

(** C7, as amended. A read of one or two bytes that would run past the
    end of the buffer fails with [Truncated], and the failure aborts what
    follows it. A dissection into a tree ends in [Truncated] or returns
    the captured length. It ends in [Truncated] on every buffer that is
    shorter than its own header fields imply, one that does not hold a
    whole frame; and when it returns, the frame ends within the buffer and
    every Vector Attribute added lies within the buffer with the length
    its header fields imply, four bytes at least before the end. Called
    with a NULL tree, on any buffer and any fuel, the dissector sets the
    two columns, reads nothing, and returns the captured length: the
    outcome is the same for any two buffers of one length. *)
Theorem C7_truncation_with_tree fuel tvb tree s :
  tvb_fits tvb ->
  tvb_captured_length tvb < Z.of_nat fuel ->
  (forall offset s1,
      0 <= offset -> tvb_captured_length tvb < offset + 1 ->
      tvb_get_guint8 tvb offset s1 = (s1, Truncated))
  /\ (forall offset s1,
      0 <= offset -> tvb_captured_length tvb < offset + 2 ->
      tvb_get_ntohs tvb offset s1 = (s1, Truncated))
  /\ (forall (A B : Type) (c : M A) (k : A -> M B) s1 s2,
      c s1 = (s2, Truncated) -> bind c k s1 = (s2, Truncated))
  /\ (exists out t r,
      dissect_mmrp fuel tvb (Some tree) s = (extend s out t, r)
      /\ (~ well_framed tvb -> r = Truncated)
      /\ (r = Truncated
          \/ r = OK (tvb_captured_length tvb)
             /\ (exists e, messages tvb 1 e /\ e <= tvb_captured_length tvb)
             /\ forall tr start length enc,
                 In (E_item tr hf_mmrp_vector_attribute start length enc) out ->
                 start + length + 4 <= tvb_captured_length tvb
                 /\ exists h l,
                      tvb_ntohs tvb start = Some h
                      /\ 0 <= l <= 255
                      /\ length = 2 + l + ceil3 (number_of_values h)))
  /\ (forall fuel' tvb' s',
      dissect_mmrp fuel' tvb' None s'
      = (extend s' column_items 0, OK (tvb_captured_length tvb')))
  /\ (forall fuel' tvb1 tvb2 s',
      tvb_captured_length tvb1 = tvb_captured_length tvb2 ->
      dissect_mmrp fuel' tvb1 None s' = dissect_mmrp fuel' tvb2 None s').
Proof.
  intros Hfits Hfuel. split; [|split; [|split; [|split; [|split]]]].
  5:{ intros fuel' tvb' s'. apply dissect_mmrp_None. }
  5:{ intros fuel' tvb1 tvb2 s' E. rewrite !dissect_mmrp_None, E.
      reflexivity. }
  - intros offset s1 _ H. apply tvb_get_guint8_Truncated, tvb_byte_none. lia.
  - intros offset s1 _ H. apply tvb_get_ntohs_Truncated, tvb_ntohs_none. lia.
  - intros A B c k s1 s2 E. now apply bind_Truncated.
  - destruct (dissect_mmrp_post fuel tvb tree s Hfits Hfuel)
      as (out & t & r & E & _ & Hr).
    exists out, t, r. split; [exact E|].
    destruct r as [n| |]; [|split; [reflexivity | left; reflexivity]
                           |contradiction].
    destruct Hr as (-> & Hwithin & e & Hframe & He).
    split; [intros Hnot; exfalso; apply Hnot; exists e; exact Hframe|].
    right. split; [reflexivity|]. split; [exists e; split; assumption|].
    intros tr start length enc Hin.
    rewrite Forall_forall in Hwithin. specialize (Hwithin _ Hin).
    cbn [va_within] in Hwithin. destruct Hwithin as [Hb Hh].
    split; [lia | exact Hh].
Qed.

(** The buffer cut short in its packed events holds no whole frame, and
    is not dissected to the end. *)
Lemma frame_cut_short_not_well_framed : ~ well_framed frame_cut_short.
Proof.
  intros [e H].
  inversion H as [q E0|q h l e1 e2 Eh Hnz El Hlist Hrest]; subst;
    [vm_compute in E0; discriminate|].
  vm_compute in El. assert (l = 6) by congruence. subst l.
  change (1 + 2) with 3 in Hlist.
  inversion Hlist as [p E0|p h1 e3 Eh1 Hnz1 Hnext]; subst;
    [vm_compute in E0; discriminate|].
  vm_compute in Eh1. assert (h1 = 0x2004) by congruence. subst h1.
  change (3 + (2 + 6 + ceil3 (0x2004 mod 2 ^ 13))) with 13 in Hnext.
  inversion Hnext as [p E0|p h2 e4 Eh2 _ _]; subst.
  - vm_compute in E0. discriminate.
  - vm_compute in Eh2. discriminate.
Qed.

Lemma C7_truncation_with_tree_witness :
  (exists out t,
      dissect_mmrp 13 frame_cut_short (Some root_tree) init_state
      = (extend init_state out t, Truncated))
  /\ dissect_mmrp 13 frame_cut_short None init_state
     = (extend init_state column_items 0, OK 12).
Proof.
  destruct (C7_truncation_with_tree 13 frame_cut_short root_tree init_state)
    as (_ & _ & _ & (out & t & r & E & Hnot & _) & Hnull & _).
  - unfold tvb_fits, G_MAXINT. vm_compute. discriminate.
  - vm_compute. reflexivity.
  - split.
    + exists out, t. rewrite E. f_equal.
      apply Hnot, frame_cut_short_not_well_framed.
    + apply Hnull.
Defined.

(** C7, as stated, fails without a tree: the dissector called with a
    NULL tree reads nothing, and returns the captured length of the
    buffer that is cut short in the packed events its header counts and
    holds no whole frame. *)
Lemma C7_counterexample :
  tvb_ntohs frame_cut_short 3 = Some 0x2004
  /\ number_of_values 0x2004 = 4
  /\ tvb_captured_length frame_cut_short < 3 + 2 + 6 + ceil3 4
  /\ ~ well_framed frame_cut_short
  /\ dissect_mmrp 13 frame_cut_short None init_state
     = (mkState column_items 0, OK 12)
  /\ ~ (forall fuel tvb tree s,
          tvb_fits tvb ->
          tvb_captured_length tvb < Z.of_nat fuel ->
          ~ well_framed tvb ->
          exists s', dissect_mmrp fuel tvb tree s = (s', Truncated)).
Proof.
  repeat split; try exact frame_cut_short_not_well_framed.
  intros H.
  destruct (H 13%nat frame_cut_short None init_state) as [s' E].
  - unfold tvb_fits, G_MAXINT. vm_compute. discriminate.
  - vm_compute. reflexivity.
  - exact frame_cut_short_not_well_framed.
  - vm_compute in E. discriminate.
Qed.



(** C9. The packed events of a Vector Attribute are read from the First
    Value position plus 6 in a MAC Message and plus 1 in a Service
    Requirement Message, whatever the AttributeLength, while
    [vect_offset] moves by [vect_attr_len], which counts the
    AttributeLength as it is. The cursor the expander returns is where
    the next Vector Attribute starts if and only if the AttributeLength is
    6 in a MAC Message, 1 in a Service Requirement Message. *)
Theorem C9_packed_offset_fixed fuel tvb tree T L msg_offset vect_offset
  offset h fs s s' v' :
  tvb_fits tvb ->
  tvb_captured_length tvb < Z.of_nat fuel ->
  0 <= L <= 255 -> 0 <= msg_offset -> 0 <= vect_offset ->
  tvb_ntohs tvb (3 + msg_offset + vect_offset) = Some h ->
  first_value_size T = Some fs ->
  vector_attribute_body fuel tvb tree T L msg_offset (vect_offset, offset) s
  = (s', OK v') ->
  let first_value := MMRP_FIRST_VALUE_GROUP_OFFSET + msg_offset + vect_offset in
  let n := number_of_values h in
  (T = MMRP_ATTRIBUTE_TYPE_MAC /\ fs = 6
   \/ T = MMRP_ATTRIBUTE_TYPE_SERVICE /\ fs = 1)
  /\ s' = extend s
            (vector_header_items tree (3 + msg_offset + vect_offset)
               (vect_attr_len L n) h
             ++ first_value_items T first_value L
             ++ packed_events (subtree ett_vect_attr) tvb (first_value + fs) n)
            (Z.to_nat (ceil3 n))
  /\ snd v' = first_value + fs + ceil3 n
  /\ fst v' = vect_offset + vect_attr_len L n
  /\ vect_attr_len L n = 2 + L + ceil3 n
  /\ (snd v' = MMRP_VECTOR_HEADER_OFFSET + msg_offset + fst v' <-> L = fs).
Proof.
  intros Hfits Hfuel HL Hm Hv Eh Efs Eb first_value n.
  destruct (tvb_ntohs_range _ _ _ Eh) as (_ & _ & Hh).
  pose proof (number_of_values_range h Hh) as Hn. fold n in Hn.
  rewrite vector_attribute_body_eq with (h := h) in Eb; try assumption.
  rewrite Efs in Eb. fold n in Eb.
  rewrite (vect_attr_len_eq L n) by lia.
  destruct (_ || _); [|discriminate].
  apply pair_OK_inj in Eb. destruct Eb as [<- <-]. cbn [fst snd].
  unfold first_value.
  change MMRP_FIRST_VALUE_GROUP_OFFSET with 5.
  change MMRP_VECTOR_HEADER_OFFSET with 3.
  replace (5 + msg_offset + vect_offset)
    with (3 + msg_offset + vect_offset + 2) by lia.
  split; [|repeat split; try lia].
  unfold first_value_size in Efs.
  destruct (Z.eqb_spec T MMRP_ATTRIBUTE_TYPE_MAC);
    [left | destruct (Z.eqb_spec T MMRP_ATTRIBUTE_TYPE_SERVICE);
            [right | discriminate]];
    split; try assumption; vm_compute in Efs; congruence.
Qed.

(** The Vector Attribute of the MAC Message of the well-formed frame:
    four events from 5 + 6 on, the cursor at 13, the next Vector
    Attribute at 3 + 10. *)
Lemma C9_packed_offset_fixed_witness :
  snd (10, 13) = MMRP_VECTOR_HEADER_OFFSET + 0 + fst (10, 13) <-> 6 = 6.
Proof.
  pose (r := vector_attribute_body 26 frame_mac_service (subtree ett_attr_list)
               2 6 0 (0, 0) init_state).
  assert (r = (fst r, OK (10, 13))) as E by (vm_compute; reflexivity).
  refine (proj2 (proj2 (proj2 (proj2 (proj2
    (C9_packed_offset_fixed 26 frame_mac_service (subtree ett_attr_list)
       2 6 0 0 0 0x2004 6 init_state (fst r) (10, 13) _ _ _ _ _ _ _ E)))))).
  - unfold tvb_fits, G_MAXINT. vm_compute. discriminate.
  - vm_compute. reflexivity.
  - lia.
  - lia.
  - lia.
  - reflexivity.
  - reflexivity.
Defined.

(** C10. The expander neither rejects nor clamps a packed byte: for
    every byte value [v] in [0,255] the second and third digits lie in
    [0,5], the first is [v / 36], in [0,7] and above 5 from 216 on, and a
    run over such a byte succeeds and adds the three digits as they
    are. *)
Theorem C10_no_reject_no_clamp v :
  0 <= v <= 255 ->
  three_packed_event v = (v / 36, (v mod 36) / 6, v mod 6)
  /\ 0 <= v / 36 <= 7
  /\ 0 <= (v mod 36) / 6 <= 5
  /\ 0 <= v mod 6 <= 5
  /\ (216 <= v <-> 5 < v / 36)
  /\ (forall fuel tree tvb offset s,
      tvb_fits tvb ->
      tvb_byte tvb offset = Some v ->
      (1 <= fuel)%nat ->
      dissect_mmrp_three_packed_event fuel tree tvb offset 3 s =
      (extend s
         [ E_uint tree hf_mmrp_three_packed_event offset 1 (v / 36);
           E_uint tree hf_mmrp_three_packed_event offset 1 ((v mod 36) / 6);
           E_uint tree hf_mmrp_three_packed_event offset 1 (v mod 6) ] 1,
       OK (offset + 1))).
Proof.
  intros Hv. split; [apply three_packed_event_digits; lia|].
  repeat (split; [Z.div_mod_to_equations; lia|]).
  intros fuel tree tvb offset s Hfits Ev Hfuel.
  destruct (tvb_byte_range _ _ _ Ev) as [Ho _].
  rewrite dissect_mmrp_three_packed_event_OK;
    try assumption; change (ceil3 3) with 1; try lia.
  unfold packed_events. change (ceil3 3) with 1.
  change (Z.to_nat 1) with 1%nat. change (Z.to_nat 3) with 3%nat.
  cbn [packed_run]. rewrite Ev. reflexivity.
Qed.

(** The byte 255: its first digit is 7. *)
Lemma C10_no_reject_no_clamp_witness :
  three_packed_event 255 = (7, 0, 3) /\ 5 < 255 / 36.
Proof.
  destruct (C10_no_reject_no_clamp 255) as (E & _ & _ & _ & H & _).
  - lia.
  - split; [exact E | apply H; lia].
Defined.

(** * Further properties *)

(** ** The packed byte and the Vector Header *)

(** X1. The expander on a run that the buffer ends in: with [n] events
    to expand from [offset], where fewer bytes are left than the events
    take, it adds the three events of every byte there is, enters the
    loop once more, and raises the exception on the read past the end;
    fewer than [n] events have been added then. *)
Theorem X1_expander_cut_short fuel tree tvb offset n s :
  0 < n < 2 ^ 16 ->
  tvb_fits tvb ->
  0 <= offset <= tvb_captured_length tvb ->
  tvb_captured_length tvb < offset + ceil3 n ->
  tvb_captured_length tvb - offset < Z.of_nat fuel ->
  let avail := Z.to_nat (tvb_captured_length tvb - offset) in
  dissect_mmrp_three_packed_event fuel tree tvb offset n s =
    (extend s (packed_run tree tvb offset avail) (S avail), Truncated)
  /\ List.length (packed_run tree tvb offset avail) = (3 * avail)%nat
  /\ 3 * Z.of_nat avail < n.
Proof.
  intros Hn Hfits Ho Hlen Hfuel avail. split; [|split].
  - apply dissect_mmrp_three_packed_event_Truncated; try assumption; lia.
  - apply packed_run_length; unfold avail; lia.
  - pose proof (ceil3_spec n). unfold avail. lia.
Qed.

Lemma X1_expander_cut_short_witness :
  dissect_mmrp_three_packed_event 2 (subtree ett_vect_attr) frame_cut_short
    11 4 init_state
  = (extend init_state
       (packed_run (subtree ett_vect_attr) frame_cut_short 11 1) 2,
     Truncated).
Proof.
  apply (X1_expander_cut_short 2 (subtree ett_vect_attr) frame_cut_short
           11 4 init_state);
    unfold tvb_fits, G_MAXINT; cbn; lia.
Defined.

(** X2. The three events of a byte give the byte back: the arithmetic
    of the expander, in 8 bits, loses nothing. The first event is 7 at
    most, the second and the third 5. *)
Theorem X2_three_packed_event_recompose v :
  0 <= v < 256 ->
  let '(e0, e1, e2) := three_packed_event v in
  pack_three e0 e1 e2 = v
  /\ 0 <= e0 <= 7 /\ 0 <= e1 <= 5 /\ 0 <= e2 <= 5.
Proof.
  intros Hv. rewrite three_packed_event_digits by assumption.
  unfold pack_three. Z.div_mod_to_equations. lia.
Qed.

Lemma X2_three_packed_event_recompose_witness :
  let '(e0, e1, e2) := three_packed_event 215 in
  pack_three e0 e1 e2 = 215
  /\ 0 <= e0 <= 7 /\ 0 <= e1 <= 5 /\ 0 <= e2 <= 5.
Proof. apply (X2_three_packed_event_recompose 215). lia. Defined.

(** X3. The expander undoes the packing: the byte of three events, each
    one of the six event values, expands to these three events. *)
Theorem X3_three_packed_event_unpack e0 e1 e2 :
  0 <= e0 <= 5 -> 0 <= e1 <= 5 -> 0 <= e2 <= 5 ->
  0 <= pack_three e0 e1 e2 < 216
  /\ three_packed_event (pack_three e0 e1 e2) = (e0, e1, e2).
Proof.
  intros H0 H1 H2. unfold pack_three. split; [lia|].
  rewrite three_packed_event_digits by lia.
  repeat f_equal; Z.div_mod_to_equations; lia.
Qed.

Lemma X3_three_packed_event_unpack_witness :
  0 <= pack_three 1 2 3 < 216
  /\ three_packed_event (pack_three 1 2 3) = (1, 2, 3).
Proof. apply (X3_three_packed_event_unpack 1 2 3); lia. Defined.

Lemma three_packed_vals_named e :
  In e (named_values hf_mmrp_three_packed_event) <-> 0 <= e <= 5.
Proof.
  change (named_values hf_mmrp_three_packed_event)
    with (map fst three_packed_vals).
  unfold three_packed_vals. cbn [map fst In]. split.
  - intros H. repeat (destruct H as [<-|H]; [lia|]). contradiction.
  - intros H.
    assert (e = 0 \/ e = 1 \/ e = 2 \/ e = 3 \/ e = 4 \/ e = 5) by lia.
    intuition auto.
Qed.

(** X4. The names of the events: the field of the Attribute Events is
    registered with the table [three_packed_vals]; the second and the
    third event of a byte always have a name in it, and the first has
    one when the byte is less than 216, and none otherwise. *)
Theorem X4_three_packed_vals_cover v :
  0 <= v < 256 ->
  let '(e0, e1, e2) := three_packed_event v in
  (In e0 (named_values hf_mmrp_three_packed_event) <-> v < 216)
  /\ In e1 (named_values hf_mmrp_three_packed_event)
  /\ In e2 (named_values hf_mmrp_three_packed_event).
Proof.
  intros Hv. rewrite three_packed_event_digits by assumption.
  rewrite !three_packed_vals_named.
  split; [|split]; try split; intros; Z.div_mod_to_equations; lia.
Qed.

Lemma X4_three_packed_vals_cover_witness :
  let '(e0, e1, e2) := three_packed_event 216 in
  (In e0 (named_values hf_mmrp_three_packed_event) <-> 216 < 216)
  /\ In e1 (named_values hf_mmrp_three_packed_event)
  /\ In e2 (named_values hf_mmrp_three_packed_event).
Proof. apply (X4_three_packed_vals_cover 216). lia. Defined.

(** X5. The two fields of a Vector Header share no bit and leave none
    out: the header is the Leave All Event, of its three high bits, and
    the NumberOfValues, of its thirteen low bits, put together. *)
Theorem X5_vector_header_recompose h :
  0 <= h < 2 ^ 16 ->
  let leave_all :=
    Z.shiftr (Z.land h (hf_bitmask hf_mmrp_leave_all_event))
      (ws_ctz (hf_bitmask hf_mmrp_leave_all_event)) in
  h = 2 ^ 13 * leave_all + number_of_values h
  /\ 0 <= leave_all <= 7
  /\ 0 <= number_of_values h <= 8191.
Proof.
  intros Hh leave_all.
  assert (leave_all = h / 2 ^ 13) as ->.
  { unfold leave_all. rewrite ws_ctz_leave_all.
    cbn [hf_bitmask]. rewrite leave_all_event_bits by assumption.
    reflexivity. }
  rewrite number_of_values_mod by assumption.
  Z.div_mod_to_equations. lia.
Qed.

Lemma X5_vector_header_recompose_witness :
  let leave_all :=
    Z.shiftr (Z.land 0xe024 (hf_bitmask hf_mmrp_leave_all_event))
      (ws_ctz (hf_bitmask hf_mmrp_leave_all_event)) in
  0xe024 = 2 ^ 13 * leave_all + number_of_values 0xe024
  /\ 0 <= leave_all <= 7
  /\ 0 <= number_of_values 0xe024 <= 8191.
Proof. apply (X5_vector_header_recompose 0xe024). lia. Defined.

(** ** The frame as a whole *)

Lemma bind_ret_outcome {A B} (c : M A) (b : B) s :
  fst (bind c (fun _ => ret b) s) = fst (c s)
  /\ forall n, snd (bind c (fun _ => ret b) s) = OK n -> n = b.
Proof.
  unfold bind, ret. destruct (c s) as [s1 [a| |]]; cbn [fst snd];
    (split; [reflexivity|]); intros n H; congruence.
Qed.

(** X6. The columns come first, and the length last: whatever the
    buffer, the tree and the outcome, the record of a dissection starts
    with the Protocol and the Info column, set before any byte is read;
    and a dissection that returns, returns the captured length. *)
Theorem X6_columns_then_length fuel tvb tree s :
  exists rest t,
    fst (dissect_mmrp fuel tvb tree s) = extend s (column_items ++ rest) t
    /\ forall n,
         snd (dissect_mmrp fuel tvb tree s) = OK n ->
         n = tvb_captured_length tvb.
Proof.
  unfold dissect_mmrp, col_set_str. mstep.
  match goal with
  | |- context [bind ?c _ ?s1] =>
      assert (extends c) as Hext
          by (unfold proto_item_add_subtree; destruct tree; extends_tac);
      destruct (Hext s1) as (rest & t & E);
      destruct (bind_ret_outcome c (tvb_captured_length tvb) s1) as [Ef Hn]
  end.
  exists rest, t. rewrite Ef, E, extend_extend.
  split; [reflexivity | exact Hn].
Qed.

(** X7. A buffer of fewer than three bytes, dissected into a tree: the
    first test of the Message loop reads the two bytes after the
    Protocol Version, and raises the exception. *)
Theorem X7_short_buffer fuel tvb tree s :
  tvb_captured_length tvb < 3 ->
  snd (dissect_mmrp fuel tvb (Some tree) s) = Truncated.
Proof.
  intros Hlen. rewrite dissect_mmrp_Some, while_unfold.
  unfold message_cond. cbn [fst].
  change (gint_of (MMRP_ATTRIBUTE_TYPE_OFFSET + 0)) with 1.
  rewrite !bind_assoc.
  erewrite bind_Truncated; [reflexivity|].
  apply tvb_get_ntohs_Truncated, tvb_ntohs_none. lia.
Qed.

Lemma X7_short_buffer_witness :
  snd (dissect_mmrp 0 [x00; x02]%byte (Some root_tree) init_state) = Truncated.
Proof.
  apply (X7_short_buffer 0 [x00; x02]%byte root_tree init_state).
  cbn. lia.
Defined.

(** X8. A frame without a Message, the End Mark right after the
    Protocol Version, in a buffer of four bytes at least: the record is
    the columns, the protocol item, the Protocol Version and the End
    Mark item; the event cursor has not moved from 0, and the End Mark
    item is added two bytes after it, at offset 2, where the End Mark
    read is at offset 1. No fuel is used. *)
Theorem X8_frame_without_message fuel tvb tree s :
  4 <= tvb_captured_length tvb ->
  tvb_ntohs tvb 1 = Some MMRP_END_MARK ->
  dissect_mmrp fuel tvb (Some tree) s =
  (extend s
     (frame_items tree
      ++ [E_item (subtree ett_mmrp) hf_mmrp_end_mark 2 2 ENC_BIG_ENDIAN]) 0,
   OK (tvb_captured_length tvb)).
Proof.
  intros _ Eend. rewrite dissect_mmrp_Some, while_unfold.
  unfold message_cond. cbn [fst].
  change (gint_of (MMRP_ATTRIBUTE_TYPE_OFFSET + 0)) with 1.
  rewrite !bind_assoc.
  rewrite (bind_OK _ _ _ _ _ (tvb_get_ntohs_OK _ _ _ _ Eend)).
  rewrite Z.eqb_refl. cbn [negb snd].
  change (gint_of (guint_of (0 + 2))) with 2.
  mstep. reflexivity.
Qed.

Lemma X8_frame_without_message_witness :
  dissect_mmrp 0 [x00; x00; x00; x00]%byte (Some root_tree) init_state =
  (extend init_state
     (frame_items root_tree
      ++ [E_item (subtree ett_mmrp) hf_mmrp_end_mark 2 2 ENC_BIG_ENDIAN]) 0,
   OK 4).
Proof.
  apply (X8_frame_without_message 0 [x00; x00; x00; x00]%byte root_tree
           init_state).
  - cbn. lia.
  - reflexivity.
Defined.

(** ** Bytes after the frame *)

Lemma ok_le_refl {A} (c : M A) : ok_le c c.
Proof. intros s s' a E. exact E. Qed.

Lemma ok_le_bind {A B} (c c' : M A) (k k' : A -> M B) :
  ok_le c c' -> (forall a, ok_le (k a) (k' a)) ->
  ok_le (bind c k) (bind c' k').
Proof.
  intros Hc Hk s s' b E. apply bind_OK_inv in E.
  destruct E as (s1 & a & Ec & Ek).
  rewrite (bind_OK _ _ _ _ _ (Hc _ _ _ Ec)). apply Hk, Ek.
Qed.

Lemma ok_le_while {V} (cond cond' : V -> M bool) (body body' : V -> M V) :
  (forall v, ok_le (cond v) (cond' v)) ->
  (forall v, ok_le (body v) (body' v)) ->
  forall fuel v, ok_le (while fuel cond body v) (while fuel cond' body' v).
Proof.
  intros Hc Hb. induction fuel as [|fuel IH]; intros v;
    rewrite !while_unfold;
    (apply ok_le_bind; [apply Hc|]); intros [|]; try apply ok_le_refl.
  apply ok_le_bind; [apply ok_le_refl|]. intros _.
  apply ok_le_bind; [apply Hb | apply IH].
Qed.

(** A byte of a buffer is the same byte of the buffer with more bytes
    after it. *)
Lemma tvb_byte_app tvb extra offset v :
  tvb_byte tvb offset = Some v -> tvb_byte (tvb ++ extra) offset = Some v.
Proof.
  unfold tvb_byte. destruct (offset <? 0); [discriminate|].
  destruct (nth_error tvb (Z.to_nat offset)) as [b|] eqn:E; [|discriminate].
  rewrite nth_error_app1 by (apply nth_error_Some; congruence).
  rewrite E. exact (fun H => H).
Qed.

Lemma tvb_ntohs_app tvb extra offset v :
  tvb_ntohs tvb offset = Some v -> tvb_ntohs (tvb ++ extra) offset = Some v.
Proof.
  unfold tvb_ntohs.
  destruct (tvb_byte tvb offset) as [hi|] eqn:Ehi; [|discriminate].
  destruct (tvb_byte tvb (offset + 1)) as [lo|] eqn:Elo; [|discriminate].
  rewrite (tvb_byte_app _ extra _ _ Ehi), (tvb_byte_app _ extra _ _ Elo).
  exact (fun H => H).
Qed.

Lemma ok_le_tvb_get_guint8 tvb extra offset :
  ok_le (tvb_get_guint8 tvb offset) (tvb_get_guint8 (tvb ++ extra) offset).
Proof.
  intros s s' a. unfold tvb_get_guint8.
  destruct (tvb_byte tvb offset) as [v|] eqn:E; [|discriminate].
  rewrite (tvb_byte_app _ extra _ _ E). exact (fun H => H).
Qed.

Lemma ok_le_tvb_get_ntohs tvb extra offset :
  ok_le (tvb_get_ntohs tvb offset) (tvb_get_ntohs (tvb ++ extra) offset).
Proof.
  intros s s' a. unfold tvb_get_ntohs.
  destruct (tvb_ntohs tvb offset) as [v|] eqn:E; [|discriminate].
  rewrite (tvb_ntohs_app _ extra _ _ E). exact (fun H => H).
Qed.

(** Sequences, loops and branches of reads of the two buffers. *)
Ltac ok_le_tac :=
  repeat first
    [ apply ok_le_tvb_get_guint8
    | apply ok_le_tvb_get_ntohs
    | apply ok_le_bind; [|intros ?]
    | apply ok_le_while; intros ?
    | match goal with
      | |- ok_le (if ?b then _ else _) _ => destruct b
      | |- ok_le (match ?x with (_, _) => _ end) _ => destruct x
      | |- ok_le (let (_, _) := ?x in _) _ => destruct x
      end
    | apply ok_le_refl ].






(** ** Whole frames *)

Lemma vector_attributes_le tvb L p e :
  0 <= L -> vector_attributes tvb L p e -> p <= e.
Proof.
  intros HL H. induction H as [p _|p h e Eh _ _ IH]; [lia|].
  destruct (tvb_ntohs_range _ _ _ Eh) as (_ & _ & Hh).
  pose proof (Z.mod_pos_bound h (2 ^ 13) ltac:(lia)).
  pose proof (ceil3_spec (h mod 2 ^ 13)). lia.
Qed.

Lemma vector_attributes_end tvb L p e :
  vector_attributes tvb L p e -> e + 2 <= tvb_captured_length tvb.
Proof.
  intros H. induction H as [p Eend|]; [|assumption].
  destruct (tvb_ntohs_range _ _ _ Eend) as (_ & Hlen & _). exact Hlen.
Qed.

Lemma messages_such_end P tvb q e :
  messages_such P tvb q e ->
  q + 2 <= e <= tvb_captured_length tvb
  /\ tvb_ntohs tvb (e - 2) = Some MMRP_END_MARK.
Proof.
  intros H. induction H as [q Eend|q h t l e e' Eh _ _ El Hva _ _ IH].
  - destruct (tvb_ntohs_range _ _ _ Eend) as (_ & Hlen & _).
    replace (q + 2 - 2) with q by lia. split; [lia | exact Eend].
  - destruct (tvb_byte_range _ _ _ El) as [_ Hl].
    pose proof (vector_attributes_le tvb l _ _ ltac:(lia) Hva).
    split; [lia | apply IH].
Qed.

Lemma messages_such_impl (P Q : Z -> Z -> Z -> Prop) tvb q e :
  (forall t l n, P t l n -> Q t l n) ->
  messages_such P tvb q e -> messages_such Q tvb q e.
Proof.
  intros HPQ H. induction H; [apply msgs_end; assumption|].
  eapply msgs_next; eauto.
Qed.

Lemma regular_message_fits t l n :
  regular_message t l n -> first_value_fits t l n.
Proof. intros [E _] fs Efs. assert (fs = l) by congruence. lia. Qed.

(** Items within the buffer. *)
Lemma item_within_packed_run tvb tree count : forall offset,
  0 <= offset ->
  offset + Z.of_nat count <= tvb_captured_length tvb ->
  Forall (item_within tvb) (packed_run tree tvb offset count).
Proof.
  induction count as [|count IH]; intros offset Ho Hlen; cbn [packed_run];
    [constructor|].
  apply Forall_app. split; [|apply IH; lia].
  destruct (tvb_byte tvb offset) as [v|]; [|constructor].
  cbn [expand map]. repeat constructor; cbn; lia.
Qed.

Lemma item_within_packed_events tvb tree offset n :
  0 <= n -> 0 <= offset ->
  offset + ceil3 n <= tvb_captured_length tvb ->
  Forall (item_within tvb) (packed_events tree tvb offset n).
Proof.
  intros Hn Ho Hlen. pose proof (ceil3_spec n).
  apply Forall_firstn_of, item_within_packed_run; lia.
Qed.

Lemma item_within_vector_header_items tvb tree p len h :
  0 <= p -> 2 <= len -> p + len <= tvb_captured_length tvb ->
  Forall (item_within tvb) (vector_header_items tree p len h).
Proof.
  intros Hp Hl Hlen. unfold vector_header_items.
  repeat constructor; cbn; try lia;
    destruct (Z.ltb_spec len 0); lia.
Qed.

Lemma item_within_first_value_items tvb T p L :
  0 <= p -> 0 <= L -> p + L <= tvb_captured_length tvb ->
  (forall fs, first_value_size T = Some fs -> fs <= L) ->
  Forall (item_within tvb) (first_value_items T p L).
Proof.
  intros Hp HL Hlen Hfs. unfold first_value_items.
  unfold first_value_size in Hfs.
  change (MMRP_MAC_THREE_PACKED_OFFSET - MMRP_FIRST_VALUE_GROUP_OFFSET)
    with 6 in Hfs.
  change (MMRP_SERVICE_THREE_PACKED_OFFSET - MMRP_FIRST_VALUE_GROUP_OFFSET)
    with 1 in Hfs.
  destruct (T =? MMRP_ATTRIBUTE_TYPE_MAC);
    [|destruct (T =? MMRP_ATTRIBUTE_TYPE_SERVICE)];
    try constructor;
    specialize (Hfs _ eq_refl);
    repeat constructor; cbn; try lia;
    destruct (Z.ltb_spec L 0); lia.
Qed.

Lemma item_within_message_items tvb tree T L m :
  0 <= m -> 3 + m <= tvb_captured_length tvb ->
  Forall (item_within tvb) (message_items tree T L m).
Proof.
  intros Hm Hlen. unfold message_items.
  repeat apply Forall_cons; try apply Forall_nil; unfold item_within;
    try exact I;
    change (-1 <? 0) with true; change (1 <? 0) with false;
    cbv beta iota; lia.
Qed.

Section VectorLoopComplete.

Variable tvb : tvbuff_t.
Variables attribute_type attribute_length msg_offset : Z.
Variable fuel : nat.
Hypothesis Hfits : tvb_fits tvb.
Hypothesis Hlength : 0 <= attribute_length <= 255.
Hypothesis Hmsg : 0 <= msg_offset.
Hypothesis Hfuel : tvb_captured_length tvb < Z.of_nat fuel.
Hypothesis Hroom :
  forall fs, first_value_size attribute_type = Some fs ->
             fs <= attribute_length.

(** The loop over Vector Attributes that are all there, with room for
    the First Value of their type, comes to the End Mark; every item it
    adds lies within the buffer. *)
Lemma vector_attribute_loop_complete p e :
  vector_attributes tvb attribute_length p e ->
  forall gas v offset s,
    p = 3 + msg_offset + v -> 0 <= v -> e - p <= Z.of_nat gas ->
    exists out t offset',
      while gas (vector_attribute_cond tvb msg_offset)
        (vector_attribute_body fuel tvb (subtree ett_attr_list)
           attribute_type attribute_length msg_offset)
        (v, offset) s
      = (extend s out t, OK (e - (3 + msg_offset), offset'))
      /\ Forall (item_within tvb) out.
Proof.
  intros H.
  induction H as [p Eend|p h e Eh Hnz Hrest IH];
    intros gas v offset s Ep Hv Hgas;
    rewrite while_unfold; unfold bind at 1.
  - destruct (tvb_ntohs_range _ _ _ Eend) as (_ & Hlen & _).
    rewrite vector_attribute_cond_eq by (cbn [fst]; try assumption; lia).
    cbn [fst]. rewrite <- Ep.
    rewrite Eend, Z.eqb_refl. cbn [negb]. exists [], 0%nat, offset.
    rewrite extend_nil. split; [|constructor].
    unfold ret. do 3 f_equal. lia.
  - pose proof (vector_attributes_le tvb attribute_length _ _ ltac:(lia) Hrest)
      as Hle.
    pose proof (vector_attributes_end _ _ _ _ Hrest) as Hend.
    destruct (tvb_ntohs_range _ _ _ Eh) as (Hp & _ & Hh).
    pose proof (number_of_values_mod h Hh) as En.
    pose proof (number_of_values_range h Hh) as Hn.
    pose proof (ceil3_spec (number_of_values h)) as Hk.
    rewrite <- En in *.
    rewrite vector_attribute_cond_eq by (cbn [fst]; try assumption; lia).
    cbn [fst]. rewrite <- Ep.
    rewrite Eh. destruct (Z.eqb_spec h MMRP_END_MARK) as [|_]; [contradiction|].
    cbn [negb]. destruct gas as [|gas]; [lia|].
    rewrite (bind_OK _ _ _ _ _ (tick_extend _)).
    assert (exists out2 t2 offset2,
              vector_attribute_body fuel tvb (subtree ett_attr_list)
                attribute_type attribute_length msg_offset (v, offset)
                (extend s [] 1)
              = (extend (extend s [] 1) out2 t2,
                 OK (v + (2 + attribute_length
                          + ceil3 (number_of_values h)), offset2))
              /\ Forall (item_within tvb) out2)
      as (out2 & t2 & offset2 & Eb & Hw2).
    { rewrite vector_attribute_body_eq with (h := h);
        try assumption; [|rewrite <- Ep; exact Eh].
      rewrite <- Ep.
      assert (Forall (item_within tvb)
                (vector_header_items (subtree ett_attr_list) p
                   (2 + attribute_length + ceil3 (number_of_values h)) h))
        as Hw by (apply item_within_vector_header_items; lia).
      destruct (first_value_size attribute_type) as [fs|] eqn:Efs.
      - pose proof (Hroom fs eq_refl) as Hfs.
        assert (0 <= fs).
        { destruct (first_value_size_cases attribute_type)
            as [E|[E|E]]; rewrite E in Efs; inversion Efs; lia. }
        destruct (_ || _) eqn:Ein.
        + eexists _, _, _. split; [reflexivity|].
          rewrite !Forall_app. split; [exact Hw|]. split.
          * apply item_within_first_value_items; try lia.
            intros fs' E'. rewrite Efs in E'. exact (Hroom fs' E').
          * apply item_within_packed_events; lia.
        + apply orb_false_iff in Ein. rewrite Z.leb_gt in Ein. lia.
      - eexists _, _, _. split; [reflexivity | exact Hw]. }
    rewrite (bind_OK _ _ _ _ _ Eb).
    destruct (IH gas (v + (2 + attribute_length + ceil3 (number_of_values h)))
                offset2 (extend (extend s [] 1) out2 t2)
                ltac:(lia) ltac:(lia) ltac:(lia))
      as (out & t & offset' & Ew & Hw).
    rewrite Ew, !extend_extend. cbn [app].
    eexists _, _, _. split; [reflexivity|].
    apply Forall_app. split; assumption.
Qed.

End VectorLoopComplete.

Section MessageLoopComplete.

Variable tvb : tvbuff_t.
Variable mmrp_tree : proto_tree.
Variable fuel : nat.
Variable P : Z -> Z -> Z -> Prop.
Hypothesis Hfits : tvb_fits tvb.
Hypothesis Hfuel : tvb_captured_length tvb < Z.of_nat fuel.
Hypothesis HP : forall t l n, P t l n -> first_value_fits t l n.

(** The loop over Messages that are all there comes to the End Mark of
    the frame, and every item it adds lies within the buffer. The event
    cursor stays four bytes at least before the end of the buffer; it is
    where it was when there is no Message, and on the End Mark of the
    frame when there is one and all are regular. *)
Lemma message_loop_complete q e :
  messages_such P tvb q e ->
  forall gas m offset s,
    q = 1 + m -> 0 <= m ->
    0 <= offset -> offset + 4 <= tvb_captured_length tvb ->
    e - q - 2 <= Z.of_nat gas ->
    exists out t offset',
      while gas (message_cond tvb) (message_body fuel tvb mmrp_tree)
        (m, offset) s
      = (extend s out t, OK (e - 3, offset'))
      /\ Forall (item_within tvb) out
      /\ 0 <= offset' /\ offset' + 4 <= tvb_captured_length tvb
      /\ (e = q + 2 -> offset' = offset)
      /\ ((forall t l n, P t l n -> regular_message t l n) ->
          q + 2 < e -> offset' + 2 = e - 2).
Proof.
  intros H.
  induction H as [q Eend|q h t l e e' Eh Hnz Et El Hva HPm Hrest IH];
    intros gas m offset s Eq Hm Hoff0 Hoff4 Hgas;
    rewrite while_unfold; unfold bind at 1.
  - destruct (tvb_ntohs_range _ _ _ Eend) as (_ & Hlen & _).
    rewrite message_cond_eq by (cbn [fst]; try assumption; lia).
    cbn [fst]. rewrite <- Eq, Eend, Z.eqb_refl. cbn [negb].
    exists [], 0%nat, offset. rewrite extend_nil.
    split; [|repeat split; try constructor; lia].
    unfold ret. do 3 f_equal. lia.
  - destruct (tvb_ntohs_range _ _ _ Eh) as (_ & Hlen & _).
    destruct (tvb_byte_range _ _ _ El) as [_ Hl].
    pose proof (vector_attributes_le tvb l _ _ ltac:(lia) Hva) as Hle.
    destruct (messages_such_end _ _ _ _ Hrest) as [Hend _].
    rewrite message_cond_eq by (cbn [fst]; try assumption; lia).
    cbn [fst]. rewrite <- Eq, Eh.
    destruct (Z.eqb_spec h MMRP_END_MARK) as [|_]; [contradiction|].
    cbn [negb]. destruct gas as [|gas]; [lia|].
    rewrite (bind_OK _ _ _ _ _ (tick_extend _)).
    assert (tvb_byte tvb (1 + m) = Some t) as Et' by (rewrite <- Eq; exact Et).
    assert (tvb_byte tvb (2 + m) = Some l) as El'
        by (replace (2 + m) with (q + 1) by lia; exact El).
    destruct (vector_attribute_loop_complete tvb t l m fuel Hfits
                ltac:(lia) Hm Hfuel (HP _ _ _ HPm) (q + 2) e Hva fuel 0 offset
                (extend (extend s [] 1) (message_items mmrp_tree t l m) 0)
                ltac:(lia) ltac:(lia) ltac:(lia))
      as (out1 & t1 & offset1 & Ew & Hw1).
    pose proof (vector_attribute_loop_post tvb (subtree ett_attr_list)
                  t l m offset
                  (extend (extend s [] 1) (message_items mmrp_tree t l m) 0)
                  fuel Hfits ltac:(lia) Hm Hfuel fuel
                  ltac:(lia) ltac:(lia) ltac:(lia)) as Hpost.
    rewrite Ew in Hpost.
    destruct Hpost as (out1' & t1' & _ & _ & Hr). cbn [fst snd] in Hr.
    destruct Hr as (_ & _ & _ & Hoff1 & _ & _ & Hcur & _).
    assert (offset1 = offset \/ offset1 <= e) as Hbound.
    { rewrite Hcur. unfold event_cursor.
      destruct (first_value_size t) as [fs|] eqn:Efs; [|left; reflexivity].
      destruct (Z.eqb_spec (e - (3 + m)) 0); [left; reflexivity|].
      right. pose proof (HP _ _ _ HPm fs Efs).
      change MMRP_VECTOR_HEADER_OFFSET with 3. lia. }
    assert (message_body fuel tvb mmrp_tree (m, offset) (extend s [] 1)
            = (extend (extend s [] 1)
                 (message_items mmrp_tree t l m ++ out1
                  ++ [E_item (subtree ett_attr_list) hf_mmrp_end_mark offset1 2
                        ENC_BIG_ENDIAN]) t1,
               OK (e + 1, offset1))) as Eb.
    { rewrite (message_body_eq _ _ _ _ _ t l) by assumption.
      rewrite (bind_OK _ _ _ _ _ Ew). cbn [fst snd].
      assert (Hfits' := Hfits). unfold tvb_fits, G_MAXINT in Hfits'.
      mstep. unfold ret. unwrap.
      rewrite Nat.add_0_r. do 3 f_equal. lia. }
    rewrite (bind_OK _ _ _ _ _ Eb).
    destruct (IH gas (e + 1) offset1
                (extend (extend s [] 1)
                   (message_items mmrp_tree t l m ++ out1
                    ++ [E_item (subtree ett_attr_list) hf_mmrp_end_mark
                          offset1 2 ENC_BIG_ENDIAN]) t1)
                ltac:(lia) ltac:(lia) ltac:(lia) ltac:(lia) ltac:(lia))
      as (out & t0 & offset' & Ew' & Hw & Hoff0' & Hoff4' & Hnone & Hreg).
    rewrite Ew', !extend_extend. cbn [app].
    eexists _, _, offset'. split; [reflexivity|].
    split; [|split; [exact Hoff0'|split; [exact Hoff4'|split; [lia|]]]].
    + rewrite !Forall_app. repeat split.
      * apply item_within_message_items; lia.
      * exact Hw1.
      * repeat constructor; cbn; lia.
      * exact Hw.
    + intros Hall _.
      destruct (Z_lt_dec (e + 2 + 2) e') as [Lt|Ge]; [apply Hreg; assumption|].
      rewrite Hnone by lia.
      destruct (Hall _ _ _ HPm) as [Efs Hsize].
      rewrite Hcur. unfold event_cursor. rewrite Efs.
      destruct (Z.eqb_spec (e - (3 + m)) 0) as [|_]; [lia|].
      change MMRP_VECTOR_HEADER_OFFSET with 3. lia.
Qed.

End MessageLoopComplete.

(** The Messages of [frame_mac_service], both regular. *)
Lemma frame_mac_service_regular :
  messages_such regular_message frame_mac_service 1 25.
Proof.
  apply msgs_next with (h := 0x0206) (t := 2) (l := 6) (e := 13);
    try reflexivity; try discriminate.
  { apply va_next with (h := 0x2004); try reflexivity; try discriminate.
    apply va_end. reflexivity. }
  { split; [reflexivity | lia]. }
  apply msgs_next with (h := 0x0101) (t := 1) (l := 1) (e := 21);
    try reflexivity; try discriminate.
  { apply va_next with (h := 0x0002); try reflexivity; try discriminate.
    apply va_end. reflexivity. }
  { split; [reflexivity | lia]. }
  apply (msgs_end regular_message frame_mac_service 23). reflexivity.
Qed.

(** X10. A frame that is all there is dissected to its end, and within
    the buffer: when the buffer, of four bytes at least, holds Messages
    up to the End Mark of the frame, and the First Value of every MAC or
    Service Requirement Message has room for the value of its type
    (AttributeLength 6 at least for MAC, 1 at least for Service
    Requirement), the dissection into a tree returns the captured
    length, on any fuel above the length, and the bytes of every item it
    adds lie within the buffer. *)
Theorem X10_whole_frame_dissected fuel tvb tree s e :
  tvb_fits tvb ->
  tvb_captured_length tvb < Z.of_nat fuel ->
  4 <= tvb_captured_length tvb ->
  messages_such first_value_fits tvb 1 e ->
  exists out t,
    dissect_mmrp fuel tvb (Some tree) s
    = (extend s out t, OK (tvb_captured_length tvb))
    /\ Forall (item_within tvb) out.
Proof.
  intros Hfits Hfuel Hlen Hframe.
  rewrite dissect_mmrp_Some.
  destruct (messages_such_end _ _ _ _ Hframe) as [Hend _].
  destruct (message_loop_complete tvb (subtree ett_mmrp) fuel
              first_value_fits Hfits Hfuel (fun _ _ _ H => H) 1 e Hframe
              fuel 0 0 (extend s (frame_items tree) 0)
              ltac:(lia) ltac:(lia) ltac:(lia) ltac:(lia) ltac:(lia))
    as (out & t & offset' & Ew & Hw & Hoff0 & Hoff4 & _).
  rewrite (bind_OK _ _ _ _ _ Ew). cbn [snd].
  assert (Hfits' := Hfits). unfold tvb_fits, G_MAXINT in Hfits'.
  rewrite (guint_of_small (offset' + 2)) by lia.
  rewrite (gint_of_small (offset' + 2)) by lia.
  mstep. unfold ret.
  eexists _, _. split; [reflexivity|].
  rewrite !Forall_app. repeat split.
  - unfold frame_items, column_items. repeat constructor; cbn; lia.
  - exact Hw.
  - repeat constructor; cbn; lia.
Qed.

Lemma X10_whole_frame_dissected_witness :
  exists out t,
    dissect_mmrp 26 frame_mac_service (Some root_tree) init_state
    = (extend init_state out t, OK 25)
    /\ Forall (item_within frame_mac_service) out.
Proof.
  apply (X10_whole_frame_dissected 26 frame_mac_service root_tree init_state 25).
  - unfold tvb_fits, G_MAXINT. cbn. lia.
  - cbn. lia.
  - cbn. lia.
  - exact (messages_such_impl _ _ _ _ _ regular_message_fits
             frame_mac_service_regular).
Defined.

(** X11. The End Mark item of a regular frame: when the frame has a
    Message at least, and every Message is a MAC Message of
    AttributeLength 6 or a Service Requirement Message of
    AttributeLength 1 with a Vector Attribute at least, the dissection
    returns and its last entry is the End Mark item of the frame, at the
    two bytes where the End Mark of the frame is. *)
Theorem X11_frame_end_mark_position fuel tvb tree s e :
  tvb_fits tvb ->
  tvb_captured_length tvb < Z.of_nat fuel ->
  messages_such regular_message tvb 1 e ->
  3 < e ->
  tvb_ntohs tvb (e - 2) = Some MMRP_END_MARK
  /\ exists out t,
       dissect_mmrp fuel tvb (Some tree) s
       = (extend s
            (out ++ [E_item (subtree ett_mmrp) hf_mmrp_end_mark (e - 2) 2
                       ENC_BIG_ENDIAN]) t,
          OK (tvb_captured_length tvb)).
Proof.
  intros Hfits Hfuel Hframe Hsome.
  destruct (messages_such_end _ _ _ _ Hframe) as [Hend Emark].
  split; [exact Emark|].
  rewrite dissect_mmrp_Some.
  destruct (message_loop_complete tvb (subtree ett_mmrp) fuel
              regular_message Hfits Hfuel regular_message_fits 1 e Hframe
              fuel 0 0 (extend s (frame_items tree) 0)
              ltac:(lia) ltac:(lia) ltac:(lia) ltac:(lia) ltac:(lia))
    as (out & t & offset' & Ew & _ & _ & _ & _ & Hreg).
  specialize (Hreg (fun _ _ _ H => H) ltac:(lia)).
  rewrite (bind_OK _ _ _ _ _ Ew). cbn [snd].
  unfold tvb_fits, G_MAXINT in Hfits.
  rewrite (guint_of_small (offset' + 2)) by lia.
  rewrite (gint_of_small (offset' + 2)) by lia.
  rewrite Hreg. mstep. unfold ret.
  exists (frame_items tree ++ out), t.
  rewrite <- app_assoc, Nat.add_0_r. reflexivity.
Qed.

Lemma X11_frame_end_mark_position_witness :
  tvb_ntohs frame_mac_service (25 - 2) = Some MMRP_END_MARK
  /\ exists out t,
       dissect_mmrp 26 frame_mac_service (Some root_tree) init_state
       = (extend init_state
            (out ++ [E_item (subtree ett_mmrp) hf_mmrp_end_mark (25 - 2) 2
                       ENC_BIG_ENDIAN]) t,
          OK 25).
Proof.
  apply (X11_frame_end_mark_position 26 frame_mac_service root_tree
           init_state 25).
  - unfold tvb_fits, G_MAXINT. cbn. lia.
  - cbn. lia.
  - exact frame_mac_service_regular.
  - lia.
Defined.

(** ** The entries of the record *)

Lemma emits_ret {A} P (a : A) : emits P (ret a).
Proof. intros s. exists [], 0%nat. now rewrite extend_nil. Qed.

Lemma emits_throw {A} P : emits P (@throw A).
Proof. intros s. exists [], 0%nat. now rewrite extend_nil. Qed.

Lemma emits_out_of_fuel {A} P : emits P (@out_of_fuel A).
Proof. intros s. exists [], 0%nat. now rewrite extend_nil. Qed.

Lemma emits_tick P : emits P tick.
Proof. intros s. exists [], 1%nat. now rewrite tick_extend. Qed.

Lemma emits_emit (P : entry -> Prop) e : P e -> emits P (emit e).
Proof.
  intros He s. exists [e], 0%nat. rewrite emit_extend.
  split; [reflexivity | repeat constructor; exact He].
Qed.

Lemma emits_bind {A B} P (c : M A) (k : A -> M B) :
  emits P c -> (forall a, emits P (k a)) -> emits P (bind c k).
Proof.
  intros Hc Hk s. unfold bind.
  destruct (Hc s) as (o1 & t1 & E1 & F1).
  destruct (c s) as [s1 [a| |]]; cbn [fst] in *; subst s1;
    try (exists o1, t1; split; [reflexivity | assumption]).
  destruct (Hk a (extend s o1 t1)) as (o2 & t2 & E2 & F2).
  exists (o1 ++ o2), (t1 + t2)%nat. rewrite E2, extend_extend.
  split; [reflexivity | apply Forall_app; split; assumption].
Qed.

Lemma emits_while {V} P (cond : V -> M bool) (body : V -> M V) :
  (forall v, emits P (cond v)) -> (forall v, emits P (body v)) ->
  forall fuel v, emits P (while fuel cond body v).
Proof.
  intros Hc Hb. induction fuel as [|fuel IH]; intros v; cbn [while];
    (apply emits_bind; [apply Hc|]); intros [|];
    try apply emits_ret; try apply emits_out_of_fuel.
  apply emits_bind; [apply emits_tick|]. intros _.
  apply emits_bind; [apply Hb | apply IH].
Qed.

(** What is read is a byte, or two. *)
Lemma emits_bind_guint8 {B} P tvb offset (k : Z -> M B) :
  (forall v, 0 <= v < 256 -> emits P (k v)) ->
  emits P (bind (tvb_get_guint8 tvb offset) k).
Proof.
  intros Hk s. unfold bind, tvb_get_guint8.
  destruct (tvb_byte tvb offset) as [v|] eqn:E.
  - apply Hk. exact (proj2 (tvb_byte_range _ _ _ E)).
  - apply (emits_throw P s).
Qed.

Lemma emits_bind_ntohs {B} P tvb offset (k : Z -> M B) :
  (forall h, 0 <= h < 2 ^ 16 -> emits P (k h)) ->
  emits P (bind (tvb_get_ntohs tvb offset) k).
Proof.
  intros Hk s. unfold bind, tvb_get_ntohs.
  destruct (tvb_ntohs tvb offset) as [h|] eqn:E.
  - apply Hk. exact (proj2 (proj2 (tvb_ntohs_range _ _ _ E))).
  - apply (emits_throw P s).
Qed.

Lemma emits_proto_tree_add_item (P : entry -> Prop) tree id tvb start len enc :
  P (E_item tree id start len enc) ->
  emits P (proto_tree_add_item tree id tvb start len enc).
Proof.
  intros He. apply emits_bind; [apply emits_emit, He | intros; apply emits_ret].
Qed.

Lemma emits_proto_tree_add_uint (P : entry -> Prop) tree id tvb start len value :
  P (E_uint tree id start len value) ->
  emits P (proto_tree_add_uint tree id tvb start len value).
Proof.
  intros He. apply emits_bind; [apply emits_emit, He | intros; apply emits_ret].
Qed.

(** Sequences, loops and branches of calls that add entries of
    [mmrp_entry]; what is left is what the values must satisfy. *)
Ltac emits_tac :=
  repeat first
    [ apply emits_ret
    | apply emits_throw
    | apply emits_out_of_fuel
    | apply emits_tick
    | apply emits_bind_guint8; intros ? ?
    | apply emits_bind_ntohs; intros ? ?
    | apply emits_proto_tree_add_item; constructor
    | apply emits_proto_tree_add_uint; constructor
    | apply emits_emit; constructor
    | apply emits_bind; [|intros ?]
    | apply emits_while; intros ?
    | match goal with
      | |- emits _ (if ?b then _ else _) => destruct b
      | |- emits _ (match ?x with (_, _) => _ end) => destruct x
      | |- emits _ (let (_, _) := ?x in _) => destruct x
      end ].

Section Entries.

Variable tree : proto_tree.
Variable tvb : tvbuff_t.

Lemma emits_dissect_mmrp_common1 msg_offset :
  emits (mmrp_entry tree) (dissect_mmrp_common1 (subtree ett_msg) tvb msg_offset).
Proof. unfold dissect_mmrp_common1. emits_tac. Qed.

Lemma emits_dissect_mmrp_common2 msg_offset :
  emits (mmrp_entry tree)
    (dissect_mmrp_common2 (subtree ett_vect_attr) tvb msg_offset).
Proof.
  unfold dissect_mmrp_common2, proto_tree_add_bitmask, vector_header_fields,
    proto_item_add_subtree.
  cbn [add_bitmask_fields].
  rewrite ws_ctz_leave_all, ws_ctz_number_of_values. cbn [hf_bitmask].
  apply emits_bind; [|intros; apply emits_ret].
  apply emits_bind_ntohs. intros h Hh.
  rewrite leave_all_event_bits by assumption.
  rewrite Z.shiftr_0_r.
  pose proof (number_of_values_range h Hh) as Hn.
  unfold number_of_values in Hn.
  rewrite guint16_of_small in Hn.
  2:{ unfold MMRP_NUMBER_OF_VALUES_MASK. change 0x1fff with (Z.ones 13).
      rewrite Z.land_ones by lia.
      pose proof (Z.mod_pos_bound h (2 ^ 13)). lia. }
  emits_tac; try assumption.
  Z.div_mod_to_equations. lia.
Qed.

Lemma emits_three_packed_event_body n v :
  emits (mmrp_entry tree)
    (three_packed_event_body (subtree ett_vect_attr) tvb n v).
Proof.
  unfold three_packed_event_body. destruct v as [counter offset].
  apply emits_bind_guint8. intros value Hv.
  rewrite three_packed_event_digits by assumption.
  emits_tac; Z.div_mod_to_equations; lia.
Qed.

Lemma emits_dissect_mmrp_three_packed_event fuel offset n :
  emits (mmrp_entry tree)
    (dissect_mmrp_three_packed_event fuel (subtree ett_vect_attr) tvb offset n).
Proof.
  unfold dissect_mmrp_three_packed_event.
  apply emits_bind; [|intros []; apply emits_ret].
  apply emits_while; intros v;
    [apply emits_ret | apply emits_three_packed_event_body].
Qed.

Lemma emits_vector_attribute_body fuel T L m v :
  emits (mmrp_entry tree)
    (vector_attribute_body fuel tvb (subtree ett_attr_list) T L m v).
Proof.
  unfold vector_attribute_body, proto_item_add_subtree.
  destruct v as [vect_offset offset].
  apply emits_bind_ntohs. intros header Hh.
  apply emits_bind; [emits_tac | intros _].
  apply emits_bind; [apply emits_dissect_mmrp_common2 | intros _].
  apply emits_bind; [|intros; apply emits_ret].
  destruct (T =? MMRP_ATTRIBUTE_TYPE_MAC);
    [|destruct (T =? MMRP_ATTRIBUTE_TYPE_SERVICE)];
    try apply emits_ret;
    (apply emits_bind; [emits_tac | intros _]);
    (apply emits_bind; [emits_tac | intros _]);
    apply emits_dissect_mmrp_three_packed_event.
Qed.

Lemma emits_message_body fuel v :
  emits (mmrp_entry tree) (message_body fuel tvb (subtree ett_mmrp) v).
Proof.
  unfold message_body, proto_item_add_subtree, proto_item_append_text.
  destruct v as [msg_offset offset].
  apply emits_bind_guint8. intros T _.
  apply emits_bind_guint8. intros L _.
  apply emits_bind; [emits_tac | intros _].
  apply emits_bind; [emits_tac | intros _].
  apply emits_bind; [apply emits_dissect_mmrp_common1 | intros _].
  apply emits_bind; [emits_tac | intros _].
  apply emits_bind; [|intros []; emits_tac].
  apply emits_while; intros v.
  - unfold vector_attribute_cond. emits_tac.
  - apply emits_vector_attribute_body.
Qed.

(** Every entry of a dissection is added by one of its calls, with the
    field, the tree, the length and the range of values of the call. *)
Lemma emits_dissect_mmrp fuel tree_opt :
  (forall tree', tree_opt = Some tree' -> tree' = tree) ->
  emits (mmrp_entry tree) (dissect_mmrp fuel tvb tree_opt).
Proof.
  intros Htree. unfold dissect_mmrp, col_set_str, proto_item_add_subtree.
  apply emits_bind; [emits_tac | intros _].
  apply emits_bind; [emits_tac | intros _].
  apply emits_bind; [|intros; apply emits_ret].
  destruct tree_opt as [tree'|]; [|apply emits_ret].
  rewrite (Htree tree' eq_refl).
  apply emits_bind; [emits_tac | intros _].
  apply emits_bind; [emits_tac | intros _].
  apply emits_bind; [|intros []; emits_tac].
  apply emits_while; intros v.
  - unfold message_cond. emits_tac.
  - apply emits_message_body.
Qed.

End Entries.

Lemma mmrp_entry_width_ok tree e : mmrp_entry tree e -> width_ok e.
Proof. intros H. destruct H; cbn; trivial. Qed.

Lemma mmrp_entry_value_ok tree e : mmrp_entry tree e -> value_ok e.
Proof. intros H. destruct H; cbn; trivial; lia. Qed.

Lemma mmrp_entry_subtree_ok tree e : mmrp_entry tree e -> subtree_ok tree e.
Proof. intros H. destruct H; cbn; auto. Qed.

Lemma run_entries {A} (P : entry -> Prop) (c : M A) :
  emits P c -> Forall P (st_log (fst (run c))).
Proof.
  intros H. unfold run. destruct (H init_state) as (out & t & E & F).
  rewrite E. exact F.
Qed.

(** X12. Registration and dissection agree on the width of the fields:
    in every run, whatever the buffer, the tree and the outcome, each
    item of a field registered as an 8-bit integer is added with length
    1, of a 16-bit integer with length 2, and of an Ethernet address
    with length 6; the MAC item has length 6 whatever the
    AttributeLength of the Message. *)
Theorem X12_items_have_the_width_of_their_type fuel tvb tree :
  Forall width_ok (st_log (fst (run (dissect_mmrp fuel tvb tree)))).
Proof.
  apply run_entries.
  destruct tree as [tree|].
  - intros s.
    destruct (emits_dissect_mmrp tree tvb fuel (Some tree)
                ltac:(congruence) s) as (out & t & E & F).
    exists out, t. split; [exact E|].
    eapply Forall_impl; [apply mmrp_entry_width_ok | exact F].
  - intros s.
    destruct (emits_dissect_mmrp root_tree tvb fuel None
                ltac:(discriminate) s) as (out & t & E & F).
    exists out, t. split; [exact E|].
    eapply Forall_impl; [apply mmrp_entry_width_ok | exact F].
Qed.

(** X13. The values added are values of their fields: in every run,
    each value added with [proto_tree_add_uint] fits the type of its
    field, or the bits of its mask: an Attribute Event is 255 at most
    (it is 7 at most), a Vector Header 65535, a Leave All Event 7 and a
    NumberOfValues 8191. *)
Theorem X13_values_fit_their_field fuel tvb tree :
  Forall value_ok (st_log (fst (run (dissect_mmrp fuel tvb tree)))).
Proof.
  apply run_entries.
  destruct tree as [tree|].
  - intros s.
    destruct (emits_dissect_mmrp tree tvb fuel (Some tree)
                ltac:(congruence) s) as (out & t & E & F).
    exists out, t. split; [exact E|].
    eapply Forall_impl; [apply mmrp_entry_value_ok | exact F].
  - intros s.
    destruct (emits_dissect_mmrp root_tree tvb fuel None
                ltac:(discriminate) s) as (out & t & E & F).
    exists out, t. split; [exact E|].
    eapply Forall_impl; [apply mmrp_entry_value_ok | exact F].
Qed.

(** X14. Each field goes to one kind of subtree: in every run into a
    tree, each call that adds an item hands it a tree that was opened
    with the subtree index of the group of its field: [ett_mmrp] for
    the Protocol Version and the Messages, [ett_msg] for the
    AttributeType, the AttributeLength and the Attribute List,
    [ett_attr_list] for the Vector Attributes, [ett_vect_attr] for the
    Vector Header, the First Value and the Attribute Events,
    [ett_vector_header] for the two header fields, and
    [ett_first_value] for the MAC or the Service Requirement; the text
    is appended to a tree opened with [ett_msg]. The End Mark alone goes
    to two kinds, [ett_attr_list] and [ett_mmrp]. This is about the
    subtree index of the tree of each call; the item that a subtree was
    opened under is not part of the record. *)
Theorem X14_fields_in_the_subtree_of_their_group fuel tvb tree :
  Forall (subtree_ok tree)
    (st_log (fst (run (dissect_mmrp fuel tvb (Some tree))))).
Proof.
  apply run_entries. intros s.
  destruct (emits_dissect_mmrp tree tvb fuel (Some tree)
              ltac:(congruence) s) as (out & t & E & F).
  exists out, t. split; [exact E|].
  eapply Forall_impl; [apply mmrp_entry_subtree_ok | exact F].
Qed.

(** ** Runs of packed events, end to end *)

Lemma ceil3_add3 a b : 0 <= b -> ceil3 (3 * a + b) = a + ceil3 b.
Proof. intros Hb. rewrite !ceil3_eq. Z.div_mod_to_equations. lia. Qed.

Lemma ceil3_mul3 a : ceil3 (3 * a) = a.
Proof. rewrite ceil3_eq. Z.div_mod_to_equations. lia. Qed.

Lemma packed_run_app tree tvb a : forall offset b,
  packed_run tree tvb offset (a + b)
  = packed_run tree tvb offset a
    ++ packed_run tree tvb (offset + Z.of_nat a) b.
Proof.
  induction a as [|a IH]; intros offset b.
  - cbn [Nat.add packed_run app]. rewrite Z.add_0_r. reflexivity.
  - cbn [Nat.add packed_run]. rewrite IH, <- app_assoc.
    do 3 f_equal. lia.
Qed.

Lemma packed_events_app tree tvb offset a b :
  0 <= a -> 0 <= b -> 0 <= offset ->
  offset + a + ceil3 b <= tvb_captured_length tvb ->
  packed_events tree tvb offset (3 * a + b)
  = packed_events tree tvb offset (3 * a)
    ++ packed_events tree tvb (offset + a) b.
Proof.
  intros Ha Hb Ho Hlen. pose proof (ceil3_spec b) as Hk.
  unfold packed_events.
  rewrite ceil3_add3, ceil3_mul3 by assumption.
  rewrite (Z2Nat.inj_add a (ceil3 b)) by lia.
  rewrite packed_run_app, Z2Nat.id by lia.
  assert (List.length (packed_run tree tvb offset (Z.to_nat a))
          = Z.to_nat (3 * a)) as Elen
      by (rewrite packed_run_length by lia; lia).
  rewrite (Z2Nat.inj_add (3 * a) b) by lia.
  rewrite <- Elen.
  rewrite firstn_app_2, firstn_all. reflexivity.
Qed.

(** X15. Runs of packed events compose at a byte: expanding [3 a + b]
    events from an offset is expanding the [3 a] events of the first
    [a] bytes, and then [b] events from the offset that this
    returns. *)
Theorem X15_expander_composes fuel tree tvb offset a b s :
  0 <= a -> 0 <= b -> 3 * a + b < 2 ^ 16 ->
  tvb_fits tvb ->
  0 <= offset ->
  offset + a + ceil3 b <= tvb_captured_length tvb ->
  a + ceil3 b <= Z.of_nat fuel ->
  dissect_mmrp_three_packed_event fuel tree tvb offset (3 * a + b) s
  = (offset' <- dissect_mmrp_three_packed_event fuel tree tvb offset (3 * a) ;;
     dissect_mmrp_three_packed_event fuel tree tvb offset' b) s.
Proof.
  intros Ha Hb Hn Hfits Ho Hlen Hfuel. pose proof (ceil3_spec b) as Hk.
  pose proof (ceil3_mul3 a) as Ea.
  rewrite dissect_mmrp_three_packed_event_OK;
    rewrite ?ceil3_add3 by assumption; try assumption; try lia.
  erewrite bind_OK.
  2:{ apply dissect_mmrp_three_packed_event_OK;
        rewrite ?Ea; try assumption; lia. }
  rewrite Ea.
  rewrite dissect_mmrp_three_packed_event_OK; try assumption; try lia.
  rewrite extend_extend, packed_events_app by assumption.
  rewrite Z2Nat.inj_add, Z.add_assoc by lia. reflexivity.
Qed.

Lemma X15_expander_composes_witness :
  dissect_mmrp_three_packed_event 2 (subtree ett_vect_attr) frame_mac_service
    11 (3 * 1 + 1) init_state
  = (offset' <- dissect_mmrp_three_packed_event 2 (subtree ett_vect_attr)
                  frame_mac_service 11 (3 * 1) ;;
     dissect_mmrp_three_packed_event 2 (subtree ett_vect_attr)
       frame_mac_service offset' 1) init_state.
Proof.
  apply (X15_expander_composes 2 (subtree ett_vect_attr) frame_mac_service
           11 1 1 init_state);
    unfold tvb_fits, G_MAXINT; cbn; lia.
Defined.
